(** * Avalon bus drivers of cocotb: a model of [cocotb/drivers/avalon.py]

    The file follows the Python module class by class:

    - [AvalonMemory]: the latency-randomising responder ([_pad], [_respond]);
    - [AvalonMaster]: the blocking memory-mapped master ([_acquire_lock],
      [_release_lock], [read], [write]) as coroutines run by a cycle scheduler;
    - [AvalonSTPkts]: the streaming packet driver ([__init__], [_wait_ready],
      [_send_string], [_send_iterable]).

    Python exceptions are values of [exn]; a function that can raise returns
    an [outcome].  Simulation time is counted in clock cycles; one cycle is
    a rising edge, the settle point ([ReadOnly]) and the move to the next
    time step ([NextTimeStep]). *)

From stdpp Require Import gmap strings list.
From Stdlib Require Import ZArith Lia.
From Stdlib.Strings Require Import Byte.

Local Open Scope Z_scope.

(** ** Exceptions and fallible results *)

Inductive exn : Type :=
| TestError        (* cocotb.result.TestError *)
| AttributeError   (* access to a signal the bus does not have *)
| ValueError       (* unresolvable value, empty random range *)
| KeyError.        (* missing dictionary key *)

Inductive outcome (A : Type) : Type :=
| Returns (a : A)
| Raises (e : exn).
Arguments Returns {A} a.
Arguments Raises {A} e.

Definition obind {A B} (x : outcome A) (f : A -> outcome B) : outcome B :=
  match x with
  | Returns a => f a
  | Raises e => Raises e
  end.

Declare Scope outcome_scope.
Delimit Scope outcome_scope with outcome.
Notation "x <- c1 ;; c2" := (obind c1 (fun x => c2))
  (at level 100, c1 at next level, right associativity) : outcome_scope.

(** ** Logging *)

Inductive level : Type := DEBUG | INFO | WARNING | ERROR.

(** A log record keeps the format string and the numbers substituted in it. *)
Record logrec : Type := LogRec { lvl : level; msg : string; args : list Z }.

Definition warnings (l : list logrec) : list logrec :=
  List.filter (fun r => match lvl r with WARNING => true | _ => false end) l.

(** ** Signal values and bus handles *)

(** Modelled from the spec: [cocotb.binary.BinaryValue] is not under src/
    (the logic-value encoding is an external collaborator).  A value of
    [bits] bits is either unresolved (all [x]) or an unsigned integer. *)
Inductive BinaryValue : Type :=
| BinX
| BinInt (n : Z).

(** [value.integer]: an unresolved value has no integer. *)
Definition integer (v : BinaryValue) : outcome Z :=
  match v with
  | BinInt n => Returns n
  | BinX => Raises ValueError
  end.

(** Truth value of a sampled strobe: some bit is 1. *)
Definition truthy (v : BinaryValue) : bool :=
  match v with
  | BinInt n => negb (n =? 0)
  | BinX => false
  end.

(** [val.integer = n] on a [BinaryValue(bits=w)]: kept modulo [2^w]
    (the integers stored here were read from [writedata], so none is
    negative). *)
Definition set_integer (w : Z) (n : Z) : BinaryValue := BinInt (n mod 2 ^ w).

Record Signal : Type := { sig_len : Z; sig_value : BinaryValue }.

Definition assign (s : Signal) (v : BinaryValue) : Signal :=
  {| sig_len := sig_len s; sig_value := v |}.

(** The Avalon-MM bus: [address] is required, the others are optional
    ([None] when [hasattr(self.bus, name)] is false). *)
Record Bus : Type := {
  bus_address : Signal;
  bus_readdata : option Signal;
  bus_read : option Signal;
  bus_write : option Signal;
  bus_waitrequest : option Signal;
  bus_writedata : option Signal;
  bus_readdatavalid : option Signal
}.

Inductive attr : Type :=
| a_readdata | a_read | a_write | a_waitrequest | a_writedata | a_readdatavalid.

Definition getattr (a : attr) (b : Bus) : option Signal :=
  match a with
  | a_readdata => bus_readdata b
  | a_read => bus_read b
  | a_write => bus_write b
  | a_waitrequest => bus_waitrequest b
  | a_writedata => bus_writedata b
  | a_readdatavalid => bus_readdatavalid b
  end.

Definition hasattr (b : Bus) (a : attr) : bool :=
  match getattr a b with Some _ => true | None => false end.

Definition setattr (a : attr) (s : Signal) (b : Bus) : Bus :=
  {| bus_address := bus_address b;
     bus_readdata := match a with a_readdata => Some s | _ => bus_readdata b end;
     bus_read := match a with a_read => Some s | _ => bus_read b end;
     bus_write := match a with a_write => Some s | _ => bus_write b end;
     bus_waitrequest := match a with a_waitrequest => Some s | _ => bus_waitrequest b end;
     bus_writedata := match a with a_writedata => Some s | _ => bus_writedata b end;
     bus_readdatavalid :=
       match a with a_readdatavalid => Some s | _ => bus_readdatavalid b end |}.

(** [self.bus.<a> <= v] *)
Definition drive (a : attr) (v : BinaryValue) (b : Bus) : outcome Bus :=
  match getattr a b with
  | Some s => Returns (setattr a (assign s v) b)
  | None => Raises AttributeError
  end.

(** [self.bus.<a>.value] *)
Definition sample (a : attr) (b : Bus) : outcome BinaryValue :=
  match getattr a b with
  | Some s => Returns (sig_value s)
  | None => Raises AttributeError
  end.

(** [self.bus.address <= v] *)
Definition drive_address (v : BinaryValue) (b : Bus) : Bus :=
  {| bus_address := assign (bus_address b) v;
     bus_readdata := bus_readdata b;
     bus_read := bus_read b;
     bus_write := bus_write b;
     bus_waitrequest := bus_waitrequest b;
     bus_writedata := bus_writedata b;
     bus_readdatavalid := bus_readdatavalid b |}.

(** [setimmediatevalue(0)] on an optional signal, when it is there. *)
Definition setimmediate0 (a : attr) (b : Bus) : Bus :=
  match getattr a b with
  | Some s => setattr a (assign s (BinInt 0)) b
  | None => b
  end.

(** ** [random.randint]

    The generator is an arbitrary sequence of integers; [randint lo hi]
    folds the next one into the closed range, and raises on an empty range
    as Python does. *)
Record Random : Type := { draws : nat -> Z; drawn : nat }.

Definition randint (lo hi : Z) (r : Random) : outcome (Z * Random) :=
  if hi <? lo then Raises ValueError
  else Returns (lo + draws r (drawn r) mod (hi - lo + 1),
                {| draws := draws r; drawn := S (drawn r) |}).

(** ** class AvalonMemory *)

(** An entry of [self._responses]: [None], [True] (undefined) or a value. *)
Inductive response : Type :=
| RNone
| RTrue
| RInt (v : Z).

Record AvalonMemory : Type := {
  _readable : bool;
  _writeable : bool;
  _width : Z;
  _mem : gmap Z Z;
  _val : BinaryValue;
  _readlatency_min : Z;
  _readlatency_max : Z;
  _responses : list response;
  mem_log : list logrec;
  mem_random : Random
}.

Definition with_responses (rs : list response) (m : AvalonMemory) : AvalonMemory :=
  {| _readable := _readable m; _writeable := _writeable m; _width := _width m;
     _mem := _mem m; _val := _val m;
     _readlatency_min := _readlatency_min m; _readlatency_max := _readlatency_max m;
     _responses := rs; mem_log := mem_log m; mem_random := mem_random m |}.

Definition with_mem (d : gmap Z Z) (m : AvalonMemory) : AvalonMemory :=
  {| _readable := _readable m; _writeable := _writeable m; _width := _width m;
     _mem := d; _val := _val m;
     _readlatency_min := _readlatency_min m; _readlatency_max := _readlatency_max m;
     _responses := _responses m; mem_log := mem_log m; mem_random := mem_random m |}.

Definition with_val (v : BinaryValue) (m : AvalonMemory) : AvalonMemory :=
  {| _readable := _readable m; _writeable := _writeable m; _width := _width m;
     _mem := _mem m; _val := v;
     _readlatency_min := _readlatency_min m; _readlatency_max := _readlatency_max m;
     _responses := _responses m; mem_log := mem_log m; mem_random := mem_random m |}.

Definition with_random (r : Random) (m : AvalonMemory) : AvalonMemory :=
  {| _readable := _readable m; _writeable := _writeable m; _width := _width m;
     _mem := _mem m; _val := _val m;
     _readlatency_min := _readlatency_min m; _readlatency_max := _readlatency_max m;
     _responses := _responses m; mem_log := mem_log m; mem_random := r |}.

Definition mem_logging (l : level) (s : string) (a : list Z) (m : AvalonMemory)
  : AvalonMemory :=
  {| _readable := _readable m; _writeable := _writeable m; _width := _width m;
     _mem := _mem m; _val := _val m;
     _readlatency_min := _readlatency_min m; _readlatency_max := _readlatency_max m;
     _responses := _responses m;
     mem_log := mem_log m ++ [LogRec l s a]; mem_random := mem_random m |}.

(** [AvalonMemory.__init__]: the width is that of [readdata], overridden by
    [writedata]; a bus with neither is refused; [readdatavalid] starts at 0. *)
Definition AvalonMemory_init (b : Bus) (readlatency_min readlatency_max : Z)
    (memory : option (gmap Z Z)) (rnd : Random) : outcome (AvalonMemory * Bus) :=
  let w1 := match bus_readdata b with Some s => sig_len s | None => 0 end in
  let w2 := match bus_writedata b with Some s => sig_len s | None => w1 end in
  if negb (hasattr b a_readdata) && negb (hasattr b a_writedata)
  then Raises TestError
  else Returns
    ({| _readable := hasattr b a_readdata;
        _writeable := hasattr b a_writedata;
        _width := w2;
        _mem := match memory with None => ∅ | Some d => d end;
        _val := BinX;
        _readlatency_min := readlatency_min;
        _readlatency_max := readlatency_max;
        _responses := [];
        mem_log := [];
        mem_random := rnd |},
     setimmediate0 a_readdatavalid b).

(** The [while len(self._responses) < l] loop of [_pad], [n] rounds. *)
Fixpoint pad_while (n : nat) (rs : list response) : list response :=
  match n with
  | O => rs
  | S n' => pad_while n' (rs ++ [RNone])
  end.

Definition _pad (m : AvalonMemory) : outcome AvalonMemory :=
  (lr <- randint (_readlatency_min m) (_readlatency_max m) (mem_random m) ;;
   let l := fst lr in
   Returns (with_responses
              (pad_while (Z.to_nat (l - Z.of_nat (length (_responses m))))
                         (_responses m))
              (with_random (snd lr) m)))%outcome.

(** [_respond], from [yield edge] to [yield ReadOnly()]: pop the oldest
    response and drive it. *)
Definition respond_edge (m : AvalonMemory) (b : Bus) : outcome (AvalonMemory * Bus) :=
  let resp := match _responses m with r :: _ => r | [] => RNone end in
  let m := with_responses (tail (_responses m)) m in
  match resp with
  | RNone =>
      (b <- drive a_readdatavalid (BinInt 0) b ;; Returns (m, b))%outcome
  | RTrue =>
      let m := with_val BinX m in
      (b <- drive a_readdata (_val m) b ;;
       b <- drive a_readdatavalid (BinInt 1) b ;;
       Returns (m, b))%outcome
  | RInt v =>
      let m := with_val (set_integer (_width m) v) m in
      let m := mem_logging DEBUG "sending 0x%x (%s)" [v mod 2 ^ _width m] m in
      (b <- drive a_readdata (_val m) b ;;
       b <- drive a_readdatavalid (BinInt 1) b ;;
       Returns (m, b))%outcome
  end.

(** The read branch of [_respond] (after [yield ReadOnly()]). *)
Definition respond_read (m : AvalonMemory) (b : Bus) : outcome AvalonMemory :=
  if _readable m then
    (rd <- sample a_read b ;;
     if truthy rd then
       m <- _pad m ;;
       addr <- integer (sig_value (bus_address b)) ;;
       match _mem m !! addr with
       | None =>
           let m := mem_logging WARNING
                      "Attempt to read from uninitialised address 0x%x" [addr] m in
           Returns (with_responses (_responses m ++ [RTrue]) m)
       | Some v =>
           let m := mem_logging DEBUG
                      "Read from address 0x%x returning 0x%x" [addr; v] m in
           Returns (with_responses (_responses m ++ [RInt v]) m)
       end
     else Returns m)%outcome
  else Returns m.

(** The write branch of [_respond]. *)
Definition respond_write (m : AvalonMemory) (b : Bus) : outcome AvalonMemory :=
  if _writeable m then
    (wr <- sample a_write b ;;
     if truthy wr then
       addr <- integer (sig_value (bus_address b)) ;;
       wd <- sample a_writedata b ;;
       data <- integer wd ;;
       let m := mem_logging DEBUG "Write to address 0x%x -> 0x%x" [addr; data] m in
       Returns (with_mem (<[addr := data]> (_mem m)) m)
     else Returns m)%outcome
  else Returns m.

(** [_respond], from [yield ReadOnly()] to the end of the loop body: the
    read branch, then the write branch. *)
Definition respond_readonly (m : AvalonMemory) (b : Bus) : outcome AvalonMemory :=
  (m <- respond_read m b ;; respond_write m b)%outcome.

(** *** The responder against a stream of bus requests

    What the master side puts on the bus at one rising edge. *)
Record request : Type := {
  rq_address : BinaryValue;
  rq_read : BinaryValue;
  rq_write : BinaryValue;
  rq_writedata : BinaryValue
}.

Definition drive_if_present (a : attr) (v : BinaryValue) (b : Bus) : Bus :=
  match getattr a b with
  | Some s => setattr a (assign s v) b
  | None => b
  end.

Definition apply_request (rq : request) (b : Bus) : Bus :=
  drive_if_present a_writedata (rq_writedata rq)
    (drive_if_present a_write (rq_write rq)
       (drive_if_present a_read (rq_read rq)
          (drive_address (rq_address rq) b))).

(** One pass through the [while True] body of [_respond]: the edge part
    runs after the master's assignments of that edge, the rest at the
    settle point of the same time step. *)
Definition respond_cycle (rq : request) (s : AvalonMemory * Bus)
  : outcome (AvalonMemory * Bus) :=
  (mb <- respond_edge (fst s) (apply_request rq (snd s)) ;;
   m <- respond_readonly (fst mb) (snd mb) ;;
   Returns (m, snd mb))%outcome.

(** Cycle after cycle; the bus as it stands at each settle point is kept. *)
Fixpoint respond_run (rqs : list request) (s : AvalonMemory * Bus)
  : outcome (list Bus * (AvalonMemory * Bus)) :=
  match rqs with
  | [] => Returns ([], s)
  | rq :: rqs' =>
      (s1 <- respond_cycle rq s ;;
       r <- respond_run rqs' s1 ;;
       Returns (snd s1 :: fst r, snd r))%outcome
  end.

(** What a bus observer sees of the responder in one cycle. *)
Definition observed (b : Bus) : option BinaryValue * option BinaryValue :=
  (sig_value <$> bus_readdatavalid b, sig_value <$> bus_readdata b).

(** The value a queued response is driven as. *)
Definition driven_as (w : Z) (r : response) : option BinaryValue :=
  match r with
  | RNone => None
  | RTrue => Some BinX
  | RInt v => Some (set_integer w v)
  end.

(** What a read of [addr] appends to the queue. *)
Definition lookup_response (d : gmap Z Z) (addr : Z) : response :=
  match d !! addr with
  | None => RTrue
  | Some v => RInt v
  end.

(** ** Coroutines and triggers

    Modelled from the spec: the scheduler and the triggers
    ([cocotb.scheduler], [cocotb.triggers]) are not under src/.  Spec 4.1
    and 5: code between two yields runs atomically; within one time step
    all tasks waiting on a clock edge resume before any task waiting on
    the settle point, so what is driven at an edge is what is sampled at
    the settle point of that step. *)

Inductive trigger : Type :=
| RisingEdge                 (* RisingEdge(self.clock) *)
| ReadOnly                   (* ReadOnly() *)
| NextTimeStep               (* NextTimeStep() *)
| EventWait                  (* self.busy_event.wait() *)
| NSignal (a : attr).        (* self._wait_for_nsignal(self.bus.<a>) *)

(** Modelled from the spec: [cocotb.triggers.Event] is not under src/.
    Spec 3 and 4.2: a waiter suspends on the event; firing it wakes all
    the waiters.  [_pending] holds the suspended task ids. *)
Record Event : Type := { fired : bool; _pending : list nat }.

Record AvalonMaster : Type := {
  _can_read : bool;
  _can_write : bool;
  busy : bool;
  busy_event : Event;
  log : list logrec
}.

(** What a master coroutine can touch: the shared bus, [self], and the
    scheduler's queue of tasks woken by an event. *)
Record world : Type := {
  bus : Bus;
  self : AvalonMaster;
  woken : list nat
}.

Definition with_bus (b : Bus) (w : world) : world :=
  {| bus := b; self := self w; woken := woken w |}.

Definition with_self (m : AvalonMaster) (w : world) : world :=
  {| bus := bus w; self := m; woken := woken w |}.

Definition set_busy (v : bool) (w : world) : world :=
  with_self {| _can_read := _can_read (self w); _can_write := _can_write (self w);
               busy := v; busy_event := busy_event (self w);
               log := log (self w) |} w.

Definition with_event (e : Event) (w : world) : world :=
  with_self {| _can_read := _can_read (self w); _can_write := _can_write (self w);
               busy := busy (self w); busy_event := e;
               log := log (self w) |} w.

Definition logging (l : level) (s : string) (w : world) : world :=
  with_self {| _can_read := _can_read (self w); _can_write := _can_write (self w);
               busy := busy (self w); busy_event := busy_event (self w);
               log := log (self w) ++ [LogRec l s []] |} w.

(** [Event.clear()] *)
Definition event_clear (w : world) : world :=
  with_event {| fired := false; _pending := _pending (busy_event (self w)) |} w.

(** [Event.set()]: every pending waiter is handed to the scheduler. *)
Definition event_set (w : world) : world :=
  {| bus := bus w;
     self := self (with_event {| fired := true; _pending := [] |} w);
     woken := woken w ++ _pending (busy_event (self w)) |}.

(** The scheduler primes the event trigger of task [i]. *)
Definition event_prime (i : nat) (w : world) : world :=
  with_event {| fired := fired (busy_event (self w));
                _pending := _pending (busy_event (self w)) ++ [i] |} w.

(** A coroutine: straight-line code over the [world], cut at its yields. *)
Inductive coro (A : Type) : Type :=
| Ret (a : A)
| Raise (e : exn)
| Yield (t : trigger) (k : coro A)
| Get (k : world -> coro A)
| Put (f : world -> world) (k : coro A).
Arguments Ret {A} a.
Arguments Raise {A} e.
Arguments Yield {A} t k.
Arguments Get {A} k.
Arguments Put {A} f k.

Fixpoint cbind {A B} (c : coro A) (f : A -> coro B) : coro B :=
  match c with
  | Ret a => f a
  | Raise e => Raise e
  | Yield t k => Yield t (cbind k f)
  | Get k => Get (fun w => cbind (k w) f)
  | Put g k => Put g (cbind k f)
  end.

Declare Scope coro_scope.
Delimit Scope coro_scope with coro.
Notation "x <- c1 ;; c2" := (cbind c1 (fun x => c2))
  (at level 100, c1 at next level, right associativity) : coro_scope.
Notation "c1 ;; c2" := (cbind c1 (fun _ => c2))
  (at level 100, right associativity) : coro_scope.

Definition yield (t : trigger) : coro unit := Yield t (Ret tt).
Definition modify (f : world -> world) : coro unit := Put f (Ret tt).
Definition raise {A} (e : exn) : coro A := Raise e.

(** An action on the bus that may raise. *)
Definition on_bus (f : Bus -> outcome Bus) : coro unit :=
  Get (fun w => match f (bus w) with
                | Returns b => Put (with_bus b) (Ret tt)
                | Raises e => Raise e
                end).

Definition from_bus {A} (f : Bus -> outcome A) : coro A :=
  Get (fun w => match f (bus w) with
                | Returns a => Ret a
                | Raises e => Raise e
                end).

(** ** class AvalonMM / AvalonMaster *)

(** [AvalonMM.__init__] and [AvalonMaster.__init__]. *)
Definition AvalonMaster_init (b : Bus) : world :=
  {| bus := drive_address (BinInt 0) (setimmediate0 a_write (setimmediate0 a_read b));
     self := {| _can_read := hasattr b a_read;
                _can_write := hasattr b a_write;
                busy := false;
                busy_event := {| fired := false; _pending := [] |};
                log := [LogRec DEBUG "AvalonMaster created" []] |};
     woken := [] |}.

Definition _acquire_lock : coro unit :=
  (Get (fun w => if busy (self w) then yield EventWait else Ret tt) ;;
   modify event_clear ;;
   modify (set_busy true))%coro.

Definition _release_lock : coro unit :=
  (modify (set_busy false) ;;
   modify event_set)%coro.

(** [if hasattr(self.bus, "waitrequest"): yield self._wait_for_nsignal(...)] *)
Definition wait_waitrequest : coro unit :=
  Get (fun w => if hasattr (bus w) a_waitrequest
                then yield (NSignal a_waitrequest) else Ret tt).

(** [read] from the first clock edge under the lock to its return. *)
Definition read_locked (address : Z) : coro BinaryValue :=
  (modify (fun w => with_bus (drive_address (BinInt address) (bus w)) w) ;;
   on_bus (drive a_read (BinInt 1)) ;;
   wait_waitrequest ;;
   yield RisingEdge ;;
   on_bus (drive a_read (BinInt 0)) ;;
   yield ReadOnly ;;
   data <- from_bus (sample a_readdata) ;;
   yield NextTimeStep ;;
   _release_lock ;;
   Ret data)%coro.

(** [read], after the capability check. *)
Definition read_transaction (address : Z) : coro BinaryValue :=
  (_acquire_lock ;;
   yield RisingEdge ;;
   read_locked address)%coro.

Definition read (address : Z) : coro BinaryValue :=
  Get (fun w =>
    if negb (_can_read (self w)) then
      (modify (logging ERROR "Cannot read - have no read signal") ;;
       raise TestError)%coro
    else read_transaction address).

(** [write] from the first clock edge under the lock to its return. *)
Definition write_locked (address value : Z) : coro unit :=
  (modify (fun w => with_bus (drive_address (BinInt address) (bus w)) w) ;;
   on_bus (drive a_writedata (BinInt value)) ;;
   on_bus (drive a_write (BinInt 1)) ;;
   wait_waitrequest ;;
   yield RisingEdge ;;
   on_bus (drive a_write (BinInt 0)) ;;
   _release_lock)%coro.

(** [write], after the capability check. *)
Definition write_transaction (address value : Z) : coro unit :=
  (_acquire_lock ;;
   yield RisingEdge ;;
   write_locked address value)%coro.

Definition write (address value : Z) : coro unit :=
  Get (fun w =>
    if negb (_can_write (self w)) then
      (modify (logging ERROR "Cannot write - have no write signal") ;;
       raise TestError)%coro
    else write_transaction address value).

(** ** The cycle scheduler *)

Inductive tstate (A : Type) : Type :=
| Waiting (t : trigger) (k : coro A)
| Finished (a : A)
| Failed (e : exn).
Arguments Waiting {A} t k.
Arguments Finished {A} a.
Arguments Failed {A} e.

(** Run a coroutine up to its next yield, its return or its exception. *)
Fixpoint resume {A} (c : coro A) (w : world) : tstate A * world :=
  match c with
  | Ret a => (Finished a, w)
  | Raise e => (Failed e, w)
  | Yield t k => (Waiting t k, w)
  | Get k => resume (k w) w
  | Put f k => resume k (f w)
  end.

(** The tasks (a task id is a position in [tasks]), the world they share,
    and the responder listening on the same bus, if any ([Raises] once its
    coroutine has died). *)
Record system (A : Type) : Type := {
  sys_world : world;
  tasks : list (tstate A);
  responder : option (outcome AvalonMemory)
}.
Arguments sys_world {A} s.
Arguments tasks {A} s.
Arguments responder {A} s.

Definition is_waiting_on {A} (t : trigger) (st : tstate A) : bool :=
  match st, t with
  | Waiting RisingEdge _, RisingEdge => true
  | Waiting ReadOnly _, ReadOnly => true
  | Waiting NextTimeStep _, NextTimeStep => true
  | Waiting EventWait _, EventWait => true
  | Waiting (NSignal _) _, NSignal _ => true
  | _, _ => false
  end.

(** Resume task [i] with continuation [k]; a task that now waits on the
    event is registered with it. *)
Definition step_task {A} (i : nat) (k : coro A) (s : system A) : system A :=
  let r := resume k (sys_world s) in
  let w := match fst r with
           | Waiting EventWait _ => event_prime i (snd r)
           | _ => snd r
           end in
  {| sys_world := w; tasks := <[i := fst r]> (tasks s); responder := responder s |}.

Definition run_task {A} (i : nat) (s : system A) : system A :=
  match tasks s !! i with
  | Some (Waiting _ k) => step_task i k s
  | _ => s
  end.

(** Modelled from the spec: [BusDriver._wait_for_nsignal] is not under
    src/.  Spec 4.3: the assertion is held until the backpressure signal
    de-asserts, polled once per edge; the wait ends at a settle point. *)
Definition poll_nsignal {A} (i : nat) (s : system A) : system A :=
  match tasks s !! i with
  | Some (Waiting (NSignal a) k) =>
      match obind (sample a (bus (sys_world s))) integer with
      | Returns n => if n =? 0 then step_task i k s else s
      | Raises e =>
          {| sys_world := sys_world s; tasks := <[i := Failed e]> (tasks s);
             responder := responder s |}
      end
  | _ => s
  end.

(** The ids of the tasks waiting on [t], in creation order. *)
Definition waiters {A} (t : trigger) (s : system A) : list nat :=
  List.filter (fun i => match tasks s !! i with
                        | Some st => is_waiting_on t st
                        | None => false
                        end)
              (seq 0 (length (tasks s))).

(** Fire a trigger: every task that was waiting on it resumes once. *)
Definition fire {A} (t : trigger) (s : system A) : system A :=
  foldl (fun s i => run_task i s) s (waiters t s).

(** Resume the tasks woken by an event, oldest first. *)
Fixpoint drain {A} (fuel : nat) (s : system A) : system A :=
  match fuel with
  | O => s
  | S fuel' =>
      match woken (sys_world s) with
      | [] => s
      | i :: rest =>
          let w := {| bus := bus (sys_world s); self := self (sys_world s);
                      woken := rest |} in
          drain fuel' (run_task i {| sys_world := w; tasks := tasks s;
                                     responder := responder s |})
      end
  end.

Definition settle_events {A} (s : system A) : system A :=
  drain (length (tasks s)) s.

Definition responder_edge {A} (s : system A) : system A :=
  match responder s with
  | Some (Returns m) =>
      match respond_edge m (bus (sys_world s)) with
      | Returns mb =>
          {| sys_world := with_bus (snd mb) (sys_world s); tasks := tasks s;
             responder := Some (Returns (fst mb)) |}
      | Raises e =>
          {| sys_world := sys_world s; tasks := tasks s;
             responder := Some (Raises e) |}
      end
  | _ => s
  end.

Definition responder_readonly {A} (s : system A) : system A :=
  match responder s with
  | Some (Returns m) =>
      {| sys_world := sys_world s; tasks := tasks s;
         responder := Some (respond_readonly m (bus (sys_world s))) |}
  | _ => s
  end.

(** One clock cycle: the rising edge, the settle point, the next time step. *)
Definition edge_phase {A} (s : system A) : system A :=
  responder_edge (settle_events (fire RisingEdge s)).

Definition readonly_phase {A} (s : system A) : system A :=
  responder_readonly
    (settle_events
       (foldl (fun s i => poll_nsignal i s) (fire ReadOnly s)
              (waiters (NSignal a_waitrequest) s))).

Definition nexttimestep_phase {A} (s : system A) : system A :=
  settle_events (fire NextTimeStep s).

Definition cycle {A} (s : system A) : system A :=
  nexttimestep_phase (readonly_phase (edge_phase s)).

Fixpoint cycles {A} (n : nat) (s : system A) : system A :=
  match n with
  | O => s
  | S n' => cycles n' (cycle s)
  end.

(** [cocotb.fork]: the new task runs at once, up to its first yield. *)
Definition fork {A} (c : coro A) (s : system A) : system A :=
  settle_events
    (step_task (length (tasks s)) c
       {| sys_world := sys_world s; tasks := tasks s ++ [Waiting NextTimeStep c];
          responder := responder s |}).

Definition boot {A} (w : world) (m : option AvalonMemory) : system A :=
  {| sys_world := w; tasks := []; responder := Returns <$> m |}.

(** ** class AvalonSTPkts *)

Inductive cfgval : Type :=
| CfgInt (n : Z)
| CfgBool (b : bool).

(** [_default_config] *)
Definition _default_config : gmap string cfgval :=
  <["dataBitsPerSymbol" := CfgInt 8]>
    (<["firstSymbolInHighOrderBits" := CfgBool true]>
       (<["maxChannel" := CfgInt 0]>
          (<["readyLatency" := CfgInt 0]> ∅))).

(** What is driven on a streaming signal: an integer, or a [BinaryValue]
    word filled through [word.buff = data]. *)
Inductive stvalue : Type :=
| SX
| SInt (n : Z)
| SWord (bits : Z) (bigEndian : cfgval) (buff : list byte).

(** The Avalon-ST bus: [error], [channel] and [ready] are optional;
    [st_ready] only says whether the sink has a ready signal, its value
    comes from the sink. *)
Record STBus : Type := {
  st_valid : stvalue;
  st_data : stvalue;
  st_data_len : Z;            (* len(self.bus.data) *)
  st_startofpacket : stvalue;
  st_endofpacket : stvalue;
  st_empty : stvalue;
  st_error : option stvalue;
  st_channel : option stvalue;
  st_ready : bool             (* hasattr(self.bus, "ready") *)
}.

Definition set_valid (v : stvalue) (b : STBus) : STBus :=
  {| st_valid := v; st_data := st_data b; st_data_len := st_data_len b;
     st_startofpacket := st_startofpacket b; st_endofpacket := st_endofpacket b;
     st_empty := st_empty b; st_error := st_error b; st_channel := st_channel b;
     st_ready := st_ready b |}.

Definition set_data (v : stvalue) (b : STBus) : STBus :=
  {| st_valid := st_valid b; st_data := v; st_data_len := st_data_len b;
     st_startofpacket := st_startofpacket b; st_endofpacket := st_endofpacket b;
     st_empty := st_empty b; st_error := st_error b; st_channel := st_channel b;
     st_ready := st_ready b |}.

Definition set_startofpacket (v : stvalue) (b : STBus) : STBus :=
  {| st_valid := st_valid b; st_data := st_data b; st_data_len := st_data_len b;
     st_startofpacket := v; st_endofpacket := st_endofpacket b;
     st_empty := st_empty b; st_error := st_error b; st_channel := st_channel b;
     st_ready := st_ready b |}.

Definition set_endofpacket (v : stvalue) (b : STBus) : STBus :=
  {| st_valid := st_valid b; st_data := st_data b; st_data_len := st_data_len b;
     st_startofpacket := st_startofpacket b; st_endofpacket := v;
     st_empty := st_empty b; st_error := st_error b; st_channel := st_channel b;
     st_ready := st_ready b |}.

Definition set_empty (v : stvalue) (b : STBus) : STBus :=
  {| st_valid := st_valid b; st_data := st_data b; st_data_len := st_data_len b;
     st_startofpacket := st_startofpacket b; st_endofpacket := st_endofpacket b;
     st_empty := v; st_error := st_error b; st_channel := st_channel b;
     st_ready := st_ready b |}.

(** [if hasattr(self.bus, 'error'): self.bus.error <= v] *)
Definition set_error_if_present (v : stvalue) (b : STBus) : STBus :=
  {| st_valid := st_valid b; st_data := st_data b; st_data_len := st_data_len b;
     st_startofpacket := st_startofpacket b; st_endofpacket := st_endofpacket b;
     st_empty := st_empty b;
     st_error := match st_error b with Some _ => Some v | None => None end;
     st_channel := st_channel b; st_ready := st_ready b |}.

Definition set_channel_if_present (v : stvalue) (b : STBus) : STBus :=
  {| st_valid := st_valid b; st_data := st_data b; st_data_len := st_data_len b;
     st_startofpacket := st_startofpacket b; st_endofpacket := st_endofpacket b;
     st_empty := st_empty b; st_error := st_error b;
     st_channel := match st_channel b with Some _ => Some v | None => None end;
     st_ready := st_ready b |}.

(** An element of an iterable packet: the attributes it has, by signal name. *)
Record busword : Type := {
  w_valid : option stvalue;
  w_data : option stvalue;
  w_startofpacket : option stvalue;
  w_endofpacket : option stvalue;
  w_empty : option stvalue;
  w_error : option stvalue;
  w_channel : option stvalue
}.

Definition maybe {A} (o : option stvalue) (f : stvalue -> A -> A) (a : A) : A :=
  match o with Some v => f v a | None => a end.

(** [self.bus <= word]: every signal of the bus the word has an attribute for. *)
Definition drive_word (wd : busword) (b : STBus) : STBus :=
  maybe (w_channel wd) set_channel_if_present
    (maybe (w_error wd) set_error_if_present
       (maybe (w_empty wd) set_empty
          (maybe (w_endofpacket wd) set_endofpacket
             (maybe (w_startofpacket wd) set_startofpacket
                (maybe (w_data wd) set_data
                   (maybe (w_valid wd) set_valid b)))))).

(** [self.on]: [True], [False] or a number of cycles. *)
Inductive onval : Type :=
| OnBool (b : bool)
| OnInt (n : Z).

Definition on_truthy (o : onval) : bool :=
  match o with
  | OnBool b => b
  | OnInt n => negb (n =? 0)
  end.

(** [if self.on is not True and self.on: self.on -= 1] *)
Definition consume_on (o : onval) : onval :=
  match o with
  | OnInt n => if n =? 0 then o else OnInt (n - 1)
  | OnBool _ => o
  end.

(** The yields of the driver that end a clock cycle. *)
Inductive site : Type :=
| AtWord      (* [yield clkedge] at the top of the word loop *)
| AtGap       (* [yield clkedge] inside the valid-low gap *)
| AtReady     (* [yield RisingEdge(self.clock)] in [_wait_ready] *)
| AtEnd.      (* [yield clkedge] after the loop *)

(** One clock cycle as seen at its end: the yield that closed it, its
    number, what the sink drove on ready, and the bus. *)
Record cycle_rec : Type := {
  c_site : site;
  c_time : nat;
  c_ready : stvalue;
  c_bus : STBus
}.

(** The driver object.  [G] is whatever the valid generator is made of. *)
Record AvalonSTPkts (G : Type) : Type := {
  st_bus : STBus;
  config : gmap string cfgval;
  on : onval;
  off : Z;
  valid_generator : G;
  st_log : list logrec;
  now : nat;                    (* the current clock cycle *)
  trace : list cycle_rec        (* the cycles that have ended *)
}.
Arguments st_bus {G} _.
Arguments config {G} _.
Arguments on {G} _.
Arguments off {G} _.
Arguments valid_generator {G} _.
Arguments st_log {G} _.
Arguments now {G} _.
Arguments trace {G} _.

(** How a call of a driver coroutine stands when the simulation stops. *)
Inductive status (A : Type) : Type :=
| Done (a : A)        (* returned *)
| Pending             (* still suspended *)
| Threw (e : exn).    (* raised *)
Arguments Done {A} a.
Arguments Pending {A}.
Arguments Threw {A} e.

Section Streaming.
Context {G : Type}.

(** [ValidatedBusDriver._next_valids] is not under src/: it is a
    parameter, taking [self.on], [self.off] and the generator to their
    next values. *)
Variable _next_valids : onval -> Z -> G -> onval * Z * G.

(** What the sink drives on [ready], cycle by cycle, and for how many
    polls of it the simulation goes on. *)
Variable ready_at : nat -> stvalue.
Variable patience : nat.

Definition M (A : Type) : Type := AvalonSTPkts G -> status A * AvalonSTPkts G.

Definition mret {A} (a : A) : M A := fun d => (Done a, d).

Definition mbind {A B} (m : M A) (f : A -> M B) : M B :=
  fun d => match m d with
           | (Done a, d') => f a d'
           | (Pending, d') => (Pending, d')
           | (Threw e, d') => (Threw e, d')
           end.

Definition with_st_bus (b : STBus) (d : AvalonSTPkts G) : AvalonSTPkts G :=
  {| st_bus := b; config := config d; on := on d; off := off d;
     valid_generator := valid_generator d; st_log := st_log d;
     now := now d; trace := trace d |}.

Definition with_valids (o : onval) (f : Z) (g : G) (d : AvalonSTPkts G)
  : AvalonSTPkts G :=
  {| st_bus := st_bus d; config := config d; on := o; off := f;
     valid_generator := g; st_log := st_log d;
     now := now d; trace := trace d |}.

Definition with_trace (t : list cycle_rec) (n : nat) (d : AvalonSTPkts G)
  : AvalonSTPkts G :=
  {| st_bus := st_bus d; config := config d; on := on d; off := off d;
     valid_generator := valid_generator d; st_log := st_log d;
     now := n; trace := t |}.

Definition st_logging (l : level) (s : string) (a : list Z) (d : AvalonSTPkts G)
  : AvalonSTPkts G :=
  {| st_bus := st_bus d; config := config d; on := on d; off := off d;
     valid_generator := valid_generator d;
     st_log := st_log d ++ [LogRec l s a];
     now := now d; trace := trace d |}.

(** [self.bus.<signal> <= v] *)
Definition bus_do (f : STBus -> STBus) : M unit :=
  fun d => (Done tt, with_st_bus (f (st_bus d)) d).

(** A yield on the clock edge: the cycle ends as the bus stands. *)
Definition yield_edge (s : site) : M unit :=
  fun d => (Done tt,
            with_trace (trace d ++ [{| c_site := s; c_time := now d;
                                       c_ready := ready_at (now d);
                                       c_bus := st_bus d |}])
                       (S (now d)) d).

Definition st_truthy (v : stvalue) : bool :=
  match v with
  | SInt n => negb (n =? 0)
  | _ => false
  end.

(** [self.config[key]] *)
Definition config_get (key : string) : M cfgval :=
  fun d => match config d !! key with
           | Some v => (Done v, d)
           | None => (Threw KeyError, d)
           end.

(** [self._next_valids()] *)
Definition next_valids : M unit :=
  fun d => let r := _next_valids (on d) (off d) (valid_generator d) in
           (Done tt, with_valids (fst (fst r)) (snd (fst r)) (snd r) d).

Local Notation "x <- c1 ;; c2" := (mbind c1 (fun x => c2))
  (at level 100, c1 at next level, right associativity).
Local Notation "c1 ;; c2" := (mbind c1 (fun _ => c2))
  (at level 100, right associativity).

(** The [while not self.bus.ready.value] loop of [_wait_ready], entered
    at a settle point. *)
Fixpoint wait_ready_loop (fuel : nat) : M unit :=
  match fuel with
  | O => fun d => (Pending, d)
  | S fuel' =>
      fun d =>
        if st_truthy (ready_at (now d)) then (Done tt, d)
        else (yield_edge AtReady ;; wait_ready_loop fuel') d
  end.

Definition _wait_ready : M unit := wait_ready_loop patience.

(** [for i in range(n): yield clkedge] *)
Fixpoint gap_cycles (n : nat) : M unit :=
  match n with
  | O => mret tt
  | S n' => yield_edge AtGap ;; gap_cycles n'
  end.

(** [if not self.on: ...]: the gap where valid is low. *)
Definition insert_gap : M unit :=
  fun d =>
    if negb (on_truthy (on d)) then
      (bus_do (set_valid (SInt 0)) ;;
       gap_cycles (Z.to_nat (off d)) ;;
       next_valids) d
    else (Done tt, d).

(** [if self.on is not True and self.on: self.on -= 1] *)
Definition consume_valid_cycle : M unit :=
  fun d => (Done tt, with_valids (consume_on (on d)) (off d) (valid_generator d) d).

Definition when (c : bool) (m : M unit) : M unit := if c then m else mret tt.

Definition has_ready : M bool := fun d => (Done (st_ready (st_bus d)), d).

(** One round of the [while string:] loop of [_send_string]: the word at
    the head of [string] goes on the bus; what is left of the string is
    returned. *)
Definition send_string_word (sync : bool) (bus_width bits : Z)
    (bigEndian : cfgval) (string : list byte) (firstword : bool)
  : M (list byte) :=
  when (negb firstword || (firstword && sync)) (yield_edge AtWord) ;;
  insert_gap ;;
  consume_valid_cycle ;;
  bus_do (set_valid (SInt 1)) ;;
  (if firstword
   then bus_do (set_empty (SInt 0)) ;; bus_do (set_startofpacket (SInt 1))
   else bus_do (set_startofpacket (SInt 0))) ;;
  let nbytes := Z.min (Z.of_nat (length string)) bus_width in
  let data := take (Z.to_nat nbytes) string in
  let word := SWord bits bigEndian data in
  rest <- (if Z.of_nat (length string) <=? bus_width
           then bus_do (set_endofpacket (SInt 1)) ;;
                bus_do (set_empty
                          (SInt (bus_width - Z.of_nat (length string)))) ;;
                mret []
           else mret (drop (Z.to_nat bus_width) string)) ;;
  bus_do (set_data word) ;;
  r <- has_ready ;;
  when r _wait_ready ;;
  mret rest.

(** The [while string:] loop of [_send_string], at most [fuel] rounds. *)
Fixpoint send_string_loop (fuel : nat) (sync : bool) (bus_width bits : Z)
    (bigEndian : cfgval) (string : list byte) (firstword : bool) : M unit :=
  match string with
  | [] => mret tt
  | _ :: _ =>
      match fuel with
      | O => fun d => (Pending, d)
      | S fuel' =>
          rest <- send_string_word sync bus_width bits bigEndian string
                    firstword ;;
          send_string_loop fuel' sync bus_width bits bigEndian rest false
      end
  end.

(** [_send_string].  Every round of the loop with a bus at least one
    byte wide shortens the string, so [length string] rounds end it; on
    a narrower bus the loop never ends. *)
Definition _send_string (string : list byte) (sync : bool) : M unit :=
  b <- (fun d => (Done (st_bus d), d)) ;;
  let bus_width := st_data_len b / 8 in
  bigEndian <- config_get "firstSymbolInHighOrderBits" ;;
  bus_do (set_empty (SInt 0)) ;;
  bus_do (set_startofpacket (SInt 0)) ;;
  bus_do (set_endofpacket (SInt 0)) ;;
  bus_do (set_valid (SInt 0)) ;;
  bus_do (set_error_if_present (SInt 0)) ;;
  send_string_loop (length string) sync bus_width (st_data_len b) bigEndian
                   string true ;;
  yield_edge AtEnd ;;
  bus_do (set_valid (SInt 0)) ;;
  bus_do (set_endofpacket (SInt 0)).

(** The [for word in pkt:] loop of [_send_iterable]. *)
Fixpoint send_iterable_loop (sync : bool) (pkt : list busword) (firstword : bool)
  : M unit :=
  match pkt with
  | [] => mret tt
  | word :: pkt' =>
      when (negb firstword || (firstword && sync)) (yield_edge AtWord) ;;
      insert_gap ;;
      consume_valid_cycle ;;
      bus_do (drive_word word) ;;
      bus_do (set_valid (SInt 1)) ;;
      r <- has_ready ;;
      when r _wait_ready ;;
      send_iterable_loop sync pkt' false
  end.

Definition _send_iterable (pkt : list busword) (sync : bool) : M unit :=
  send_iterable_loop sync pkt true ;;
  yield_edge AtEnd ;;
  bus_do (set_valid (SInt 0)).

(** [AvalonSTPkts.__init__]: the defaults, overridden option by option;
    the valid generator is primed as [ValidatedBusDriver.__init__] does. *)
Definition AvalonSTPkts_init (b : STBus) (cfg : gmap string cfgval) (g : G)
  : AvalonSTPkts G :=
  let r := _next_valids (OnBool false) 0 g in
  let d := {| st_bus := b;
              config := _default_config;
              on := fst (fst r); off := snd (fst r); valid_generator := snd r;
              st_log := []; now := O; trace := [] |} in
  map_fold (fun configoption value (d : AvalonSTPkts G) =>
              st_logging DEBUG "Setting config option %s to %s" []
                {| st_bus := st_bus d;
                   config := <[configoption := value]> (config d);
                   on := on d; off := off d; valid_generator := valid_generator d;
                   st_log := st_log d; now := now d; trace := trace d |})
           d cfg.

(** A packet is a string of bytes or an iterable of bus words. *)
Inductive packet : Type :=
| PktStr (string : list byte)
| PktIter (words : list busword).

Definition pkt_len (p : packet) : Z :=
  match p with
  | PktStr s => Z.of_nat (length s)
  | PktIter ws => Z.of_nat (length ws)
  end.

Definition _driver_send (pkt : packet) (sync : bool) : M unit :=
  (fun d => (Done tt,
             st_logging DEBUG "Sending packet of length %d bytes" [pkt_len pkt] d)) ;;
  (fun d => (Done tt, st_logging DEBUG "hexdump(pkt)" [] d)) ;;
  (match pkt with
   | PktStr s => _send_string s sync
   | PktIter ws => _send_iterable ws sync
   end) ;;
  (fun d => (Done tt,
             st_logging INFO "Sucessfully sent packet of length %d bytes"
                        [pkt_len pkt] d)).

End Streaming.

(** Modelled from the spec: [ValidatedBusDriver._next_valids] is not under
    src/.  Spec 4.5: after a gap the on/off counts are drawn again from the
    generator; "on" is a budget of cycles or "always on".  A generator is
    the list of the pairs it will yield, [None] when the driver has none;
    pairs with no "on" cycle are skipped and an exhausted generator leaves
    the driver always on. *)
Fixpoint next_pair (l : list (Z * Z)) (off : Z) : onval * Z * list (Z * Z) :=
  match l with
  | [] => (OnBool true, off, [])
  | (n, f) :: l' => if n =? 0 then next_pair l' f else (OnInt n, f, l')
  end.

Definition list_next_valids (_ : onval) (off : Z) (g : option (list (Z * Z)))
  : onval * Z * option (list (Z * Z)) :=
  match g with
  | None => (OnBool true, 0, None)
  | Some l => let r := next_pair l off in (fst (fst r), snd (fst r), Some (snd r))
  end.

(** ** Vocabulary of the statements *)

(** A bus with every signal the responder touches. *)
Definition responder_bus (b : Bus) : Prop :=
  hasattr b a_readdata = true /\ hasattr b a_readdatavalid = true /\
  hasattr b a_read = true /\ hasattr b a_write = true /\
  hasattr b a_writedata = true.

(** A request whose address and write data are resolved integers. *)
Definition definite (rq : request) : Prop :=
  (exists a, rq_address rq = BinInt a) /\ (exists v, rq_writedata rq = BinInt v).



(** A read, a write, both at once, and an idle cycle. *)
Definition read_request (a : Z) : request :=
  {| rq_address := BinInt a; rq_read := BinInt 1; rq_write := BinInt 0;
     rq_writedata := BinInt 0 |}.

Definition write_request (a v : Z) : request :=
  {| rq_address := BinInt a; rq_read := BinInt 0; rq_write := BinInt 1;
     rq_writedata := BinInt v |}.

Definition read_write_request (a v : Z) : request :=
  {| rq_address := BinInt a; rq_read := BinInt 1; rq_write := BinInt 1;
     rq_writedata := BinInt v |}.

Definition idle_request : request :=
  {| rq_address := BinInt 0; rq_read := BinInt 0; rq_write := BinInt 0;
     rq_writedata := BinInt 0 |}.

(** The latency [_pad] draws in state [m]. *)
Definition drawn_latency (m : AvalonMemory) : Z :=
  _readlatency_min m +
  draws (mem_random m) (drawn (mem_random m))
    mod (_readlatency_max m - _readlatency_min m + 1).


(** A 32-bit bus with every Avalon-MM signal but [waitrequest]. *)
Definition sig_x (n : Z) : Signal := {| sig_len := n; sig_value := BinX |}.

Definition example_bus : Bus :=
  {| bus_address := sig_x 32;
     bus_readdata := Some (sig_x 32);
     bus_read := Some (sig_x 1);
     bus_write := Some (sig_x 1);
     bus_waitrequest := None;
     bus_writedata := Some (sig_x 32);
     bus_readdatavalid := Some (sig_x 1) |}.

Definition zero_random : Random := {| draws := fun _ => 0; drawn := O |}.


Definition head_response (m : AvalonMemory) : response :=
  match _responses m with r :: _ => r | [] => RNone end.

Definition uninit_warning (addr : Z) : logrec :=
  LogRec WARNING "Attempt to read from uninitialised address 0x%x" [addr].

(** A responder over [example_bus] whose store holds 1 at address 32. *)
Definition example_memory : AvalonMemory :=
  {| _readable := true; _writeable := true; _width := 32;
     _mem := {[32 := 1]}; _val := BinX;
     _readlatency_min := 1; _readlatency_max := 1; _responses := [];
     mem_log := []; mem_random := zero_random |}.

(** Some run of the coroutine raises [e]. *)
Fixpoint may_raise {A} (e : exn) (c : coro A) : Prop :=
  match c with
  | Ret _ => False
  | Raise e' => e' = e
  | Yield _ k => may_raise e k
  | Get k => exists w, may_raise e (k w)
  | Put _ k => may_raise e k
  end.

(** A suspended task that will never raise [e]. *)
Definition never_later {A} (e : exn) (st : tstate A) : Prop :=
  match st with
  | Waiting _ k => ~ may_raise e k
  | _ => True
  end.

(** The bus and the lock are as they were. *)
Definition same_bus_and_lock (w w' : world) : Prop :=
  bus w' = bus w /\ busy (self w') = busy (self w) /\
  busy_event (self w') = busy_event (self w) /\ woken w' = woken w.

(** The capability flags are those [AvalonMM.__init__] computed for the bus. *)
Definition wired (w : world) : Prop :=
  _can_read (self w) = hasattr (bus w) a_read /\
  _can_write (self w) = hasattr (bus w) a_write.

(** One task on its own: each time it yields, the rest of the test bench
    does something to the bus (the next element of [env]) and the task is
    resumed; it stays suspended when [env] runs out. *)
Fixpoint exec {A} (env : list (Bus -> Bus)) (c : coro A) (w : world)
  : tstate A * world :=
  match env with
  | [] => resume c w
  | f :: env' =>
      match resume c w with
      | (Waiting _ k, w') => exec env' k (with_bus (f (bus w')) w')
      | r => r
      end
  end.

(** The lock after an operation: held after an error that is not the
    capability error, free after a return. *)
Definition lock_after {A} (r : tstate A * world) : Prop :=
  match fst r with
  | Failed e => e = TestError \/ busy (self (snd r)) = true
  | Finished _ => busy (self (snd r)) = false
  | Waiting _ _ => True
  end.

(** [example_bus] without its [writedata] signal. *)
Definition bus_without_writedata : Bus :=
  {| bus_address := sig_x 32;
     bus_readdata := Some (sig_x 32);
     bus_read := Some (sig_x 1);
     bus_write := Some (sig_x 1);
     bus_waitrequest := None;
     bus_writedata := None;
     bus_readdatavalid := Some (sig_x 1) |}.

(** A bus with only the write side. *)
Definition write_only_bus : Bus :=
  {| bus_address := sig_x 32;
     bus_readdata := None;
     bus_read := None;
     bus_write := Some (sig_x 1);
     bus_waitrequest := None;
     bus_writedata := Some (sig_x 32);
     bus_readdatavalid := None |}.

(** The width of the data signals of a bus. *)
Definition data_width (b : Bus) : Z :=
  match bus_writedata b with Some s => sig_len s | None => 0 end.

(** No backpressure: the bus has no [waitrequest], or it is held at 0. *)
Definition waitrequest_low (b : Bus) : Prop :=
  match bus_waitrequest b with
  | None => True
  | Some s => sig_value s = BinInt 0
  end.

(** A master and a responder created on the same bus, before any task. *)
Definition test_bench {A} (b : Bus) (readlatency_min readlatency_max : Z)
    (memory : option (gmap Z Z)) (rnd : Random) : outcome (system A) :=
  let w := AvalonMaster_init b in
  (mb <- AvalonMemory_init (bus w) readlatency_min readlatency_max memory rnd ;;
   Returns (boot (with_bus (snd mb) w) (Some (fst mb))))%outcome.

(** Write, then read the same address. *)
Definition write_then_read (address value : Z) : coro BinaryValue :=
  (write address value ;; read address)%coro.

(** A master without responder on [bus_without_writedata]: a first write,
    one clock cycle, then a second caller. *)
Definition two_writes_without_writedata : system unit :=
  fork (write 6 8)
    (cycles 1 (fork (write 5 7)
                 (boot (AvalonMaster_init bus_without_writedata) None))).

(** Three writes started together on [example_bus], with a responder of
    the default latency. *)
Definition three_writers : outcome (system unit) :=
  (s <- test_bench example_bus 1 1 None zero_random ;;
   Returns (fork (write 3 30) (fork (write 2 20) (fork (write 1 10) s))))%outcome.

Definition store_of {A} (s : system A) : option (gmap Z Z) :=
  match responder s with
  | Some (Returns m) => Some (_mem m)
  | _ => None
  end.

(** In a cycle of a gap, valid is low. *)
Definition gap_valid_low (c : cycle_rec) : Prop :=
  match c_site c with
  | AtGap => st_valid (c_bus c) = SInt 0
  | _ => True
  end.

(** The cycles in which a word goes over the bus: valid is high and the
    sink, if it has a ready signal, has it high. *)
Definition transfers (t : list cycle_rec) : list cycle_rec :=
  List.filter
    (fun c => st_truthy (st_valid (c_bus c)) &&
              (negb (st_ready (c_bus c)) || st_truthy (c_ready c)))
    t.

(** The sink always raises ready within [patience] cycles. *)
Definition responsive (ready_at : nat -> stvalue) (patience : nat) : Prop :=
  forall c, exists j, (j < patience)%nat /\ st_truthy (ready_at (c + j)%nat) = true.

(** The packet fields of a word on the bus. *)
Definition word_view (b : STBus) : stvalue * stvalue * stvalue * stvalue :=
  (st_startofpacket b, st_endofpacket b, st_empty b, st_data b).

(** The words of a string on a bus [W] bytes wide, as [word_view]s. *)
Fixpoint expected_words (fuel : nat) (W bits : Z) (bigEndian : cfgval)
    (s : list byte) (firstword : bool)
  : list (stvalue * stvalue * stvalue * stvalue) :=
  match s, fuel with
  | [], _ | _, O => []
  | _ :: _, S fuel' =>
      let n := Z.of_nat (length s) in
      let data := SWord bits bigEndian (take (Z.to_nat (Z.min n W)) s) in
      let sop := SInt (if firstword then 1 else 0) in
      if n <=? W then [(sop, SInt 1, SInt (W - n), data)]
      else (sop, SInt 0, SInt 0, data)
             :: expected_words fuel' W bits bigEndian (drop (Z.to_nat W) s) false
  end.

(** A driver on a 32-bit data bus without ready signal, and nine bytes. *)
Definition example_stbus : STBus :=
  {| st_valid := SX; st_data := SX; st_data_len := 32;
     st_startofpacket := SX; st_endofpacket := SX; st_empty := SX;
     st_error := None; st_channel := None; st_ready := false |}.

Definition nine_bytes : list byte :=
  [x01; x02; x03; x04; x05; x06; x07; x08; x09].

Definition always_ready (n : nat) : stvalue := SInt 1.

Definition example_driver : AvalonSTPkts (option (list (Z * Z))) :=
  AvalonSTPkts_init list_next_valids example_stbus ∅ None.

(** The same driver configured with a ready latency of 3. *)
Definition latency3_driver : AvalonSTPkts (option (list (Z * Z))) :=
  AvalonSTPkts_init list_next_valids example_stbus
    {["readyLatency" := CfgInt 3]} None.

(** A step of the driver only adds cycles to the trace, all of them in [R]. *)
Definition extends {G A} (R : cycle_rec -> Prop) (m : @M G A) : Prop :=
  forall d, exists new, trace (snd (m d)) = trace d ++ new /\ Forall R new.

(** Two drivers that differ at most in their configuration and their
    log, and agree on the one option the sender reads. *)
Definition same_but_config {G} (d1 d2 : AvalonSTPkts G) : Prop :=
  st_bus d1 = st_bus d2 /\ on d1 = on d2 /\ off d1 = off d2 /\
  valid_generator d1 = valid_generator d2 /\ now d1 = now d2 /\
  trace d1 = trace d2 /\
  config d1 !! "firstSymbolInHighOrderBits" = config d2 !! "firstSymbolInHighOrderBits".

(** A step of the driver that goes the same on two such drivers. *)
Definition config_blind {G A} (m : @M G A) : Prop :=
  forall d1 d2, same_but_config d1 d2 ->
    fst (m d1) = fst (m d2) /\ same_but_config (snd (m d1)) (snd (m d2)).

(** Where the sink has a ready signal, it is high in the current cycle. *)
Definition ready_ok {G} (ready_at : nat -> stvalue) (d : AvalonSTPkts G) : Prop :=
  st_ready (st_bus d) = true -> st_truthy (ready_at (now d)) = true.

(** *** Vocabulary of the further properties *)




(** What a master that honours [readdatavalid] receives: [readdata] in
    the cycles where valid is high. *)
Definition answer_on (o : Bus) : option BinaryValue :=
  match observed o with
  | (Some v, Some x) => if truthy v then Some x else None
  | _ => None
  end.

Definition delivered (outs : list Bus) : list BinaryValue := omap answer_on outs.



(** The optional signals the responder cannot do without: [readdatavalid],
    [read] where there is [readdata], [write] where there is [writedata]. *)
Definition lacks_needed_signal (b : Bus) : Prop :=
  hasattr b a_readdatavalid = false \/
  (hasattr b a_readdata = true /\ hasattr b a_read = false) \/
  (hasattr b a_writedata = true /\ hasattr b a_write = false).

(** A responder created on [b], run over [rqs]. *)
Definition run_from_init (b : Bus) (readlatency_min readlatency_max : Z)
    (memory : option (gmap Z Z)) (rnd : Random) (rqs : list request)
  : outcome (list Bus * (AvalonMemory * Bus)) :=
  (s <- AvalonMemory_init b readlatency_min readlatency_max memory rnd ;;
   respond_run rqs s)%outcome.

(** [example_bus] without its write side, and without its read side. *)
Definition read_only_bus : Bus :=
  {| bus_address := sig_x 32;
     bus_readdata := Some (sig_x 32);
     bus_read := Some (sig_x 1);
     bus_write := None;
     bus_waitrequest := None;
     bus_writedata := None;
     bus_readdatavalid := Some (sig_x 1) |}.

Definition bus_without_readdata : Bus :=
  {| bus_address := sig_x 32;
     bus_readdata := None;
     bus_read := Some (sig_x 1);
     bus_write := Some (sig_x 1);
     bus_waitrequest := None;
     bus_writedata := Some (sig_x 32);
     bus_readdatavalid := Some (sig_x 1) |}.

(** What the rest of the test bench does to the bus between two
    resumptions adds and removes no signal. *)
Definition keeps_signals (f : Bus -> Bus) : Prop :=
  forall b a, hasattr (f b) a = hasattr b a.

(** The bytes a data word was filled with. *)
Definition word_bytes (v : stvalue) : list byte :=
  match v with
  | SWord _ _ buff => buff
  | _ => []
  end.

(** The bus, word after word, as an iterable packet sets it: each word
    drives the signals it has an attribute for, and valid is raised. *)
Fixpoint words_on_bus (b : STBus) (pkt : list busword) : list STBus :=
  match pkt with
  | [] => []
  | word :: pkt' =>
      let b' := set_valid (SInt 1) (drive_word word b) in
      b' :: words_on_bus b' pkt'
  end.

(** The cycle that ends at a yield at [site], [i] cycles after cycle [t]. *)
Definition cycle_at (ready_at : nat -> stvalue) (s : site) (b : STBus) (t i : nat)
  : cycle_rec :=
  {| c_site := s; c_time := (t + i)%nat; c_ready := ready_at (t + i)%nat; c_bus := b |}.

(** The bus in the cycle after: that of the next record, or [b], the bus
    as the driver has it now, after the last one. *)
Definition next_bus (rest : list cycle_rec) (b : STBus) : STBus :=
  match rest with
  | c :: _ => c_bus c
  | [] => b
  end.

(** In every cycle spent waiting for ready, valid is high and ready low,
    and the cycle after it shows the same bus. *)
Fixpoint held (new : list cycle_rec) (b : STBus) : Prop :=
  match new with
  | [] => True
  | c :: rest =>
      (c_site c = AtReady ->
       st_truthy (st_valid (c_bus c)) = true /\ st_truthy (c_ready c) = false /\
       next_bus rest b = c_bus c) /\
      held rest b
  end.

(** A step of the driver that raises nothing and leaves the log and the
    configuration as they were. *)
Definition quiet {G A} (m : @M G A) : Prop :=
  forall d, (forall e, fst (m d) <> Threw e) /\
            st_log (snd (m d)) = st_log d /\ config (snd (m d)) = config d.

(** What the two word loops share, one round of it: the clock edge at
    the top, the gap, the consumed valid cycle, what the round drives
    ([drive], valid included) and the wait for ready. *)
Definition word_round {G} (_next_valids : onval -> Z -> G -> onval * Z * G)
    (ready_at : nat -> stvalue) (patience : nat)
    (c : bool) (drive : STBus -> STBus) : @M G unit :=
  mbind (when c (yield_edge ready_at AtWord)) (fun _ =>
  mbind (insert_gap _next_valids ready_at) (fun _ =>
  mbind consume_valid_cycle (fun _ =>
  mbind (bus_do drive) (fun _ =>
  mbind has_ready (fun r =>
  when r (_wait_ready ready_at patience)))))).

(** What one round of the [while string:] loop drives: valid, the packet
    flags, empty and the data word, in the order of the source. *)
Definition string_word_on (W bits : Z) (be : cfgval) (s : list byte) (fw : bool)
    (b : STBus) : STBus :=
  set_data
    (SWord bits be (take (Z.to_nat (Z.min (Z.of_nat (length s)) W)) s))
    ((if Z.of_nat (length s) <=? W
      then fun b => set_empty (SInt (W - Z.of_nat (length s)))
                      (set_endofpacket (SInt 1) b)
      else fun b => b)
       ((if fw
         then fun b => set_startofpacket (SInt 1) (set_empty (SInt 0) b)
         else set_startofpacket (SInt 0))
          (set_valid (SInt 1) b))).

(** A step that may follow a wait for ready: it raises nothing, the
    cycles it adds are [held], and the first of them, if there is one,
    shows the bus as the step found it. *)
Definition holding {G A} (m : @M G A) : Prop :=
  forall d, exists new,
    (forall e, fst (m d) <> Threw e) /\
    trace (snd (m d)) = trace d ++ new /\
    held new (st_bus (snd (m d))) /\
    next_bus new (st_bus (snd (m d))) = st_bus d.

(** A driver on a data bus four bits wide. *)
Definition narrow_driver : AvalonSTPkts (option (list (Z * Z))) :=
  AvalonSTPkts_init list_next_valids
    {| st_valid := SX; st_data := SX; st_data_len := 4;
       st_startofpacket := SX; st_endofpacket := SX; st_empty := SX;
       st_error := None; st_channel := None; st_ready := false |}
    ∅ None.

(** Two words of an iterable packet: one with data and the packet flags,
    one with data only. *)
Definition two_words : list busword :=
  [{| w_valid := Some (SInt 0); w_data := Some (SInt 17);
      w_startofpacket := Some (SInt 1); w_endofpacket := Some (SInt 0);
      w_empty := Some (SInt 0); w_error := None; w_channel := None |};
   {| w_valid := None; w_data := Some (SInt 18);
      w_startofpacket := None; w_endofpacket := None;
      w_empty := None; w_error := None; w_channel := None |}].

(** Two writes started together. *)
Definition two_writers (a1 v1 a2 v2 : Z) (s : system unit) : system unit :=
  fork (write a2 v2) (fork (write a1 v1) s).

(** The words a packet takes on a bus [W] bytes wide. *)
Definition pkt_words (W : Z) (p : packet) : Z :=
  match p with
  | PktStr s => (Z.of_nat (length s) + W - 1) / W
  | PktIter ws => Z.of_nat (length ws)
  end.

(** [self.on] lets [j] more words through: it is [True], or a count of
    at least [j]. *)
Definition budget_ok (o : onval) (j : Z) : Prop :=
  match o with
  | OnBool b => b = true
  | OnInt n => j <= n
  end.

(** [self.on] after [j] words. *)
Definition spend (o : onval) (j : Z) : onval :=
  match o with
  | OnBool b => OnBool b
  | OnInt n => OnInt (n - j)
  end.

(** From [d] to [d'] no cycle was a gap and the generator was not asked. *)
Definition no_gap {G} (d d' : AvalonSTPkts G) : Prop :=
  exists new,
    trace d' = trace d ++ new /\
    Forall (fun c => c_site c <> AtGap) new /\
    off d' = off d /\ valid_generator d' = valid_generator d.

(** A driver whose generator allows three words, then two idle cycles. *)
Definition budget_driver : AvalonSTPkts (option (list (Z * Z))) :=
  AvalonSTPkts_init list_next_valids example_stbus ∅ (Some [(3, 2)]).

(** * Properties *)

(** ** The responder *)

Lemma pad_while_app n rs : pad_while n rs = rs ++ replicate n RNone.
Proof.
  revert rs; induction n as [|n IH]; intros rs; simpl.
  - by rewrite app_nil_r.
  - rewrite IH. by rewrite <- app_assoc.
Qed.

Lemma randint_range lo hi r :
  lo <= hi ->
  exists l r', randint lo hi r = Returns (l, r') /\ lo <= l <= hi /\
               l = lo + draws r (drawn r) mod (hi - lo + 1).
Proof.
  intros H. unfold randint.
  destruct (hi <? lo) eqn:E; [lia|].
  eexists _, _. split; [reflexivity|]. split; [|reflexivity].
  pose proof (Z.mod_pos_bound (draws r (drawn r)) (hi - lo + 1)). lia.
Qed.


Lemma warnings_app l1 l2 : warnings (l1 ++ l2) = warnings l1 ++ warnings l2.
Proof. unfold warnings. apply List.filter_app. Qed.

Lemma respond_edge_spec m b :
  hasattr b a_readdata = true -> hasattr b a_readdatavalid = true ->
  exists m' b',
    respond_edge m b = Returns (m', b') /\
    _responses m' = tail (_responses m) /\
    observed b' =
      (Some (BinInt (match head_response m with RNone => 0 | _ => 1 end)),
       match driven_as (_width m) (head_response m) with
       | Some v => Some v
       | None => sig_value <$> bus_readdata b
       end) /\
    bus_address b' = bus_address b /\ bus_read b' = bus_read b /\
    bus_write b' = bus_write b /\ bus_writedata b' = bus_writedata b /\
    hasattr b' a_readdata = true /\ hasattr b' a_readdatavalid = true /\
    _mem m' = _mem m /\ _readable m' = _readable m /\ _writeable m' = _writeable m /\
    _readlatency_min m' = _readlatency_min m /\
    _readlatency_max m' = _readlatency_max m /\
    _width m' = _width m /\ mem_random m' = mem_random m /\
    warnings (mem_log m') = warnings (mem_log m).
Proof.
  intros Hrd Hrv.
  destruct b as [ad [rd|] r w wt wd [rv|]]; try discriminate.
  unfold respond_edge, head_response.
  destruct (_responses m) as [|[| |x] rs] eqn:E; cbn -[Z.modulo Z.pow];
    eexists _, _; (split; [reflexivity|]); cbn -[Z.modulo Z.pow];
    rewrite ?warnings_app, ?app_nil_r; repeat split; reflexivity.
Qed.

Lemma respond_read_spec m b rd a :
  _readable m = true -> _readlatency_min m <= _readlatency_max m ->
  sample a_read b = Returns rd -> sig_value (bus_address b) = BinInt a ->
  exists m',
    respond_read m b = Returns m' /\
    _responses m' =
      _responses m ++
      (if truthy rd
       then replicate (Z.to_nat (drawn_latency m - Z.of_nat (length (_responses m))))
                      RNone ++ [lookup_response (_mem m) a]
       else []) /\
    _mem m' = _mem m /\ _readable m' = true /\ _writeable m' = _writeable m /\
    _readlatency_min m' = _readlatency_min m /\
    _readlatency_max m' = _readlatency_max m /\
    _width m' = _width m /\
    warnings (mem_log m') =
      warnings (mem_log m) ++
      (if truthy rd
       then match _mem m !! a with
            | None => [uninit_warning a]
            | Some _ => []
            end
       else []).
Proof.
  intros Hre Hlat Hrd Ha.
  destruct (randint_range _ _ (mem_random m) Hlat) as (l & rn' & Hri & Hl & Hl').
  unfold respond_read, _pad. rewrite Hre, Hrd. cbn [obind].
  destruct (truthy rd).
  - rewrite Hri. cbn [obind fst snd _mem with_responses with_random mem_log
                      _responses]. rewrite Ha. cbn [integer obind].
    unfold lookup_response, drawn_latency. rewrite <- Hl'.
    destruct (_mem m !! a) eqn:Ema; eexists; (split; [reflexivity|]);
      cbn -[Z.modulo Z.pow]; rewrite pad_while_app, warnings_app, <- app_assoc;
      repeat split; try reflexivity; done.
  - eexists; split; [reflexivity|]. rewrite !app_nil_r. repeat split; done.
Qed.

Lemma respond_write_spec m b wr a v :
  _writeable m = true ->
  sample a_write b = Returns wr -> sig_value (bus_address b) = BinInt a ->
  sample a_writedata b = Returns (BinInt v) ->
  exists m',
    respond_write m b = Returns m' /\
    _responses m' = _responses m /\
    _mem m' = (if truthy wr then <[a := v]> (_mem m) else _mem m) /\
    _readable m' = _readable m /\ _writeable m' = true /\
    _readlatency_min m' = _readlatency_min m /\
    _readlatency_max m' = _readlatency_max m /\
    _width m' = _width m /\
    warnings (mem_log m') = warnings (mem_log m).
Proof.
  intros Hwe Hwr Ha Hwd.
  unfold respond_write. rewrite Hwe, Hwr. cbn [obind].
  destruct (truthy wr).
  - rewrite Ha, Hwd. cbn [integer obind].
    eexists; split; [reflexivity|]. cbn. rewrite warnings_app, app_nil_r.
    repeat split; done.
  - eexists; split; [reflexivity|]. repeat split; done.
Qed.

Lemma apply_request_spec rq b :
  responder_bus b ->
  let b' := apply_request rq b in
  responder_bus b' /\
  sig_value (bus_address b') = rq_address rq /\
  sample a_read b' = Returns (rq_read rq) /\
  sample a_write b' = Returns (rq_write rq) /\
  sample a_writedata b' = Returns (rq_writedata rq) /\
  bus_readdata b' = bus_readdata b.
Proof.
  intros (Hrd & Hrv & Hr & Hw & Hwd).
  destruct b as [ad [rd|] [r|] [w|] wt [wd|] [rv|]]; try discriminate.
  cbn. repeat split; reflexivity.
Qed.










(** C5 (amended): when the read and the write strobe are both sampled
    high, the responder queues the read's answer first and stores the
    write after it: the answer queued in that cycle is what the store
    held before the write (the undefined marker if the address had never
    been written), and the store holds the written value afterwards. *)
Theorem C5_read_is_queued_before_write (m : AvalonMemory) (b : Bus)
    (rd wr : BinaryValue) (a v : Z) :
  _readable m = true -> _writeable m = true ->
  _readlatency_min m <= _readlatency_max m ->
  sample a_read b = Returns rd -> truthy rd = true ->
  sample a_write b = Returns wr -> truthy wr = true ->
  sig_value (bus_address b) = BinInt a ->
  sample a_writedata b = Returns (BinInt v) ->
  exists m',
    respond_readonly m b = Returns m' /\
    last (_responses m') = Some (lookup_response (_mem m) a) /\
    _mem m' = <[a := v]> (_mem m).
Proof.
  intros Hre Hwe Hlat Hrd Trd Hwr Twr Ha Hwd.
  destruct (respond_read_spec m b rd a Hre Hlat Hrd Ha)
    as (m1 & E1 & Hrs1 & Hmem1 & _ & Hwe1 & _).
  destruct (respond_write_spec m1 b wr a v) as (m2 & E2 & Hrs2 & Hmem2 & _);
    try done; [congruence|].
  exists m2. unfold respond_readonly. rewrite E1. cbn [obind]. rewrite E2.
  split; [done|]. rewrite Hrs2, Hrs1, Hmem2, Hmem1, Trd, Twr.
  split; [|done]. by rewrite app_assoc, last_snoc.
Qed.

Lemma C5_read_is_queued_before_write_witness :
  exists m',
    respond_readonly
      example_memory
      (apply_request (read_write_request 32 2) example_bus) = Returns m' /\
    last (_responses m') = Some (lookup_response (_mem example_memory) 32) /\
    _mem m' = <[32 := 2]> (_mem example_memory).
Proof.
  apply (C5_read_is_queued_before_write
           example_memory
           (apply_request (read_write_request 32 2) example_bus)
           (BinInt 1) (BinInt 1) 32 2); try reflexivity; simpl; lia.
Defined.

(** C5 as stated fails: address 32 holds 1; a cycle with read and write
    of 2 to address 32 queues the answer 1, not the 2 written in that
    cycle. *)
Lemma C5_same_cycle_read_sees_old_value :
  exists m',
    respond_readonly
      example_memory
      (apply_request (read_write_request 32 2) example_bus) = Returns m' /\
    _responses m' = [RNone; RInt 1] /\
    last (_responses m') <> Some (RInt 2) /\
    _mem m' !! 32 = Some 2.
Proof.
  eexists. split; [vm_compute; reflexivity|].
  split; [reflexivity|]. split; [discriminate|reflexivity].
Qed.



(** ** The master *)

Lemma drive_raises a v b e : drive a v b = Raises e -> e = AttributeError.
Proof. unfold drive. destruct (getattr a b); congruence. Qed.

Lemma sample_raises a b e : sample a b = Raises e -> e = AttributeError.
Proof. unfold sample. destruct (getattr a b); congruence. Qed.

Ltac no_raise H :=
  repeat match type of H with
         | exists _, _ => destruct H as [? H]
         | context [match drive ?a ?v ?b with _ => _ end] =>
             let E := fresh "E" in
             destruct (drive a v b) eqn:E;
             [|apply drive_raises in E; subst]; cbn in H
         | context [match sample ?a ?b with _ => _ end] =>
             let E := fresh "E" in
             destruct (sample a b) eqn:E;
             [|apply sample_raises in E; subst]; cbn in H
         | context [match ?x with _ => _ end] => destruct x; cbn in H
         end.

Lemma read_transaction_no_TestError address :
  ~ may_raise TestError (read_transaction address).
Proof.
  unfold read_transaction, read_locked, _acquire_lock, _release_lock,
    wait_waitrequest, on_bus, from_bus, yield, modify. cbn.
  intros [w H].
  destruct (busy (self w)); cbn in H; no_raise H; try discriminate; done.
Qed.

Lemma write_transaction_no_TestError address value :
  ~ may_raise TestError (write_transaction address value).
Proof.
  unfold write_transaction, write_locked, _acquire_lock, _release_lock,
    wait_waitrequest, on_bus, from_bus, yield, modify. cbn.
  intros [w H].
  destruct (busy (self w)); cbn in H; no_raise H; try discriminate; done.
Qed.

(** C8: on a master whose capability flags are those of its bus, [read]
    raises [TestError] exactly when the bus has no read signal and
    [write] exactly when it has no write signal: with the signal the call
    does not raise it at once nor at any later resumption; without it the
    error is raised with the bus, the busy flag, the event and the
    scheduler queue as they were. *)
Theorem C8_capability_errors (w : world) (address value : Z) :
  wired w ->
  (hasattr (bus w) a_read = false <->
   fst (resume (read address) w) = Failed TestError) /\
  (hasattr (bus w) a_read = false ->
   same_bus_and_lock w (snd (resume (read address) w))) /\
  (hasattr (bus w) a_read = true ->
   never_later TestError (fst (resume (read address) w))) /\
  (hasattr (bus w) a_write = false <->
   fst (resume (write address value) w) = Failed TestError) /\
  (hasattr (bus w) a_write = false ->
   same_bus_and_lock w (snd (resume (write address value) w))) /\
  (hasattr (bus w) a_write = true ->
   never_later TestError (fst (resume (write address value) w))).
Proof.
  intros [Hr Hw].
  pose proof (read_transaction_no_TestError address) as Nr.
  pose proof (write_transaction_no_TestError address value) as Nw.
  unfold read, write. cbn [resume]. rewrite Hr, Hw.
  unfold read_transaction, write_transaction, read_locked, write_locked,
    _acquire_lock, wait_waitrequest, on_bus, yield, modify in *. cbn in Nr, Nw.
  split_and!.
  - destruct (hasattr (bus w) a_read); cbn; [|done].
    destruct (busy (self w)); cbn; split; discriminate.
  - intros ->. cbn. done.
  - intros ->. cbn. destruct (busy (self w)) eqn:Eb; cbn.
    + intros H. apply Nr. exists w. rewrite Eb. exact H.
    + intros H. apply Nr. exists w. rewrite Eb. exact H.
  - destruct (hasattr (bus w) a_write); cbn; [|done].
    destruct (busy (self w)); cbn; split; discriminate.
  - intros ->. cbn. done.
  - intros ->. cbn. destruct (busy (self w)) eqn:Eb; cbn.
    + intros H. apply Nw. exists w. rewrite Eb. exact H.
    + intros H. apply Nw. exists w. rewrite Eb. exact H.
Qed.

Lemma C8_capability_errors_witness :
  (hasattr (bus (AvalonMaster_init write_only_bus)) a_read = false <->
   fst (resume (read 5) (AvalonMaster_init write_only_bus)) = Failed TestError) /\
  (hasattr (bus (AvalonMaster_init write_only_bus)) a_read = false ->
   same_bus_and_lock (AvalonMaster_init write_only_bus)
     (snd (resume (read 5) (AvalonMaster_init write_only_bus)))) /\
  (hasattr (bus (AvalonMaster_init write_only_bus)) a_read = true ->
   never_later TestError (fst (resume (read 5) (AvalonMaster_init write_only_bus)))) /\
  (hasattr (bus (AvalonMaster_init write_only_bus)) a_write = false <->
   fst (resume (write 5 7) (AvalonMaster_init write_only_bus)) = Failed TestError) /\
  (hasattr (bus (AvalonMaster_init write_only_bus)) a_write = false ->
   same_bus_and_lock (AvalonMaster_init write_only_bus)
     (snd (resume (write 5 7) (AvalonMaster_init write_only_bus)))) /\
  (hasattr (bus (AvalonMaster_init write_only_bus)) a_write = true ->
   never_later TestError
     (fst (resume (write 5 7) (AvalonMaster_init write_only_bus)))).
Proof.
  apply (C8_capability_errors (AvalonMaster_init write_only_bus) 5 7).
  split; reflexivity.
Defined.

Ltac exec_cases :=
  repeat (cbn [exec resume fst snd lock_after cbind];
          match goal with
          | |- context [match drive ?a ?v ?b with _ => _ end] =>
              let E := fresh "E" in
              destruct (drive a v b) eqn:E;
              [|apply drive_raises in E; subst]
          | |- context [match sample ?a ?b with _ => _ end] =>
              let E := fresh "E" in
              destruct (sample a b) eqn:E;
              [|apply sample_raises in E; subst]
          | |- context [if ?x then _ else _] => destruct x
          | |- context [exec ?env _ _] => is_var env; destruct env
          end);
  cbn; auto.

(** C6 (amended): [read] and [write] release the lock on their normal
    exit path only.  Whatever the rest of the test bench does to the bus
    while the operation is suspended, a call that returns leaves the lock
    free, and a call that raises anything but the capability error, which
    it can only do after the lock was acquired, leaves the lock held. *)
Theorem C6_lock_released_on_return_only (env : list (Bus -> Bus)) (w : world)
    (address value : Z) :
  lock_after (exec env (read address) w) /\
  lock_after (exec env (write address value) w).
Proof.
  unfold read, write, read_transaction, write_transaction, read_locked,
    write_locked, _acquire_lock,
    _release_lock, wait_waitrequest, on_bus, from_bus, yield, modify, raise.
  split.
  - destruct env; exec_cases.
  - destruct env; exec_cases.
Qed.

Lemma cycles_S {A} n (s : system A) : cycles (S n) s = cycles n (cycle s).
Proof. reflexivity. Qed.

Lemma gmap_lookup_insert_raw (a v : Z) (d : gmap Z Z) :
  gmap_lookup a (gmap_partial_alter (fun _ => Some v) a d) = Some v.
Proof. exact (lookup_insert_eq d a v). Qed.

(** Run one clock cycle of a system whose store and values are symbolic:
    the store operations and the width arithmetic are kept folded, the
    lookup of the address just written and the latency drawn from the
    range [0, 0] are rewritten. *)
Ltac run_cycle n :=
  rewrite (cycles_S n);
  let E := fresh "E" in
  match goal with
  | |- context [cycle ?s] => eassert (cycle s = _) as E
  end;
  [ lazy -[Z.modulo Z.pow Z.sub Z.to_nat Z.add gmap_partial_alter gmap_lookup];
    rewrite ?gmap_lookup_insert_raw;
    change (0 - 0 + 1) with 1; rewrite ?Z.mod_1_r;
    lazy -[Z.modulo Z.pow gmap_partial_alter gmap_lookup];
    reflexivity
  | rewrite E; clear E ].

(** C1 (amended): on a bus with every data and strobe signal and no
    backpressure, shared by a master and a responder whose read latency
    is 0 ([readlatency_min = readlatency_max = 0]), with any initial
    store, [write(A, V)] followed by [read(A)] returns [V] after four
    clock cycles, for every address [A] and every [V] within the data
    width. *)
Theorem C1_round_trip_at_zero_latency (b : Bus) (store : option (gmap Z Z))
    (rnd : Random) (A V : Z) :
  responder_bus b -> waitrequest_low b -> 0 <= V < 2 ^ data_width b ->
  exists s0,
    test_bench b 0 0 store rnd = Returns s0 /\
    tasks (cycles 4 (fork (write_then_read A V) s0)) = [Finished (BinInt V)].
Proof.
  intros (Hrd & Hrv & Hr & Hw & Hwd) Hwt HV.
  destruct b as [ad [rd|] [r|] [w|] wt [[wl wv]|] [rv|]]; try discriminate.
  destruct rnd as [dr dn]. unfold data_width in HV. simpl in HV.
  unfold waitrequest_low in Hwt. simpl in Hwt.
  destruct wt as [[wtl wtv]|]; [simpl in Hwt; subst wtv|].
  - eexists. split; [reflexivity|].
    match goal with
    | |- context [fork ?c ?s] => eassert (fork c s = _) as E0
    end.
    { lazy. reflexivity. }
    rewrite E0. clear E0.
    run_cycle 3%nat. run_cycle 2%nat. run_cycle 1%nat. run_cycle 0%nat.
    cbn [cycles tasks]. by rewrite Z.mod_small.
  - eexists. split; [reflexivity|].
    match goal with
    | |- context [fork ?c ?s] => eassert (fork c s = _) as E0
    end.
    { lazy. reflexivity. }
    rewrite E0. clear E0.
    run_cycle 3%nat. run_cycle 2%nat. run_cycle 1%nat. run_cycle 0%nat.
    cbn [cycles tasks]. by rewrite Z.mod_small.
Qed.

Lemma C1_round_trip_at_zero_latency_witness :
  exists s0,
    test_bench example_bus 0 0 None zero_random = Returns s0 /\
    tasks (cycles 4 (fork (write_then_read 5 7) s0)) = [Finished (BinInt 7)].
Proof.
  apply (C1_round_trip_at_zero_latency example_bus None zero_random 5 7).
  - repeat split; reflexivity.
  - exact I.
  - unfold data_width; simpl; lia.
Defined.

(** C1 as stated fails: against a responder of the default latency
    ([readlatency_min = readlatency_max = 1]) the master, which samples
    [readdata] on the edge after the read strobe, returns the value
    [readdata] held before the answer (here the undefined value); the
    responder drives the stored 7 one cycle later. *)
Lemma C1_default_latency_returns_stale_data :
  exists s0,
    test_bench example_bus 1 1 None zero_random = Returns s0 /\
    tasks (cycles 4 (fork (write_then_read 5 7) s0)) = [Finished BinX] /\
    tasks (cycles 4 (fork (write_then_read 5 7) s0)) <> [Finished (BinInt 7)] /\
    store_of (cycles 4 (fork (write_then_read 5 7) s0)) = Some {[5 := 7]} /\
    observed (bus (sys_world (cycles 5 (fork (write_then_read 5 7) s0))))
      = (Some (BinInt 1), Some (BinInt 7)).
Proof.
  eexists. split; [reflexivity|].
  split; [vm_compute; reflexivity|].
  split; [vm_compute; discriminate|].
  split; vm_compute; reflexivity.
Qed.

(** C6 as stated fails: on a bus with [write] but no [writedata] the
    first [write] passes the capability check, takes the lock and raises
    [AttributeError] on its first clock edge; the lock stays held, and a
    second caller stays suspended on the event however long the clock
    runs. *)
Lemma C6_error_keeps_lock_held :
  tasks two_writes_without_writedata !! 0%nat = Some (Failed AttributeError) /\
  busy (self (sys_world two_writes_without_writedata)) = true /\
  fired (busy_event (self (sys_world two_writes_without_writedata))) = false /\
  forall n, exists k,
    tasks (cycles n two_writes_without_writedata) !! 1%nat
      = Some (Waiting EventWait k).
Proof.
  split; [reflexivity|]. split; [reflexivity|]. split; [reflexivity|].
  assert (cycle two_writes_without_writedata = two_writes_without_writedata) as Hfix
    by reflexivity.
  intros n. induction n as [|n IH].
  - eexists. reflexivity.
  - rewrite cycles_S, Hfix. exact IH.
Qed.

(** C2: the lock does not exclude two waiters.  Three writes are started
    together; the first takes the lock and the two others wait on the
    event.  The release of the first wakes both; neither looks at [busy]
    again, so after the second clock cycle both are suspended inside
    their locked sections.  They drive the bus at the same edge, all three
    calls return, and the store never receives the write to address 2. *)
Theorem C2_release_wakes_two_holders :
  exists s0,
    three_writers = Returns s0 /\
    tasks s0 !! 0%nat = Some (Waiting RisingEdge (write_locked 1 10)) /\
    (exists k1 k2, tasks s0 !! 1%nat = Some (Waiting EventWait k1) /\
                   tasks s0 !! 2%nat = Some (Waiting EventWait k2)) /\
    tasks (cycles 2 s0) =
      [Finished tt; Waiting RisingEdge (write_locked 2 20);
       Waiting RisingEdge (write_locked 3 30)] /\
    busy (self (sys_world (cycles 2 s0))) = true /\
    tasks (cycles 4 s0) = [Finished tt; Finished tt; Finished tt] /\
    store_of (cycles 4 s0) = Some {[1 := 10; 3 := 30]}.
Proof.
  eexists. split; [reflexivity|].
  split; [reflexivity|].
  split; [eexists _, _; split; reflexivity|].
  split; [reflexivity|].
  split; [reflexivity|].
  split; [reflexivity|].
  vm_compute. reflexivity.
Qed.

(** ** The streaming packet driver *)

Section StreamingFacts.
Context {G : Type}.
Variable _next_valids : onval -> Z -> G -> onval * Z * G.
Variable ready_at : nat -> stvalue.
Variable patience : nat.

Local Abbreviation M := (@M G).
Local Abbreviation extends := (@extends G _).
Local Abbreviation config_blind := (@config_blind G _).


Lemma extends_mret {A} R (a : A) : extends R (mret a : M A).
Proof. intros d. exists []. simpl. by rewrite app_nil_r. Qed.

Lemma extends_mbind {A B} R (m : M A) (f : A -> M B) :
  extends R m -> (forall a, extends R (f a)) -> extends R (mbind m f).
Proof.
  intros Hm Hf d. unfold mbind.
  destruct (Hm d) as (n1 & E1 & F1).
  destruct (m d) as [[a| |e] d1]; simpl in *.
  - destruct (Hf a d1) as (n2 & E2 & F2).
    exists (n1 ++ n2). rewrite E2, E1, app_assoc. split; [done|].
    by apply Forall_app.
  - by exists n1.
  - by exists n1.
Qed.

Lemma extends_quiet {A} R (m : M A) :
  (forall d, trace (snd (m d)) = trace d) -> extends R m.
Proof. intros H d. exists []. rewrite H, app_nil_r. by split. Qed.

Lemma extends_yield_edge (R : cycle_rec -> Prop) s :
  (forall n r b, R {| c_site := s; c_time := n; c_ready := r; c_bus := b |}) ->
  extends R (yield_edge ready_at s).
Proof. intros H d. eexists [_]. simpl. split; [done|]. by constructor. Qed.

Lemma extends_wait_ready R :
  (forall n r b, R {| c_site := AtReady; c_time := n; c_ready := r; c_bus := b |}) ->
  forall fuel, extends R (wait_ready_loop ready_at fuel).
Proof.
  intros H fuel. induction fuel as [|fuel IH]; intros d; simpl.
  - exists []. by rewrite app_nil_r.
  - destruct (st_truthy (ready_at (now d))).
    + exists []. simpl. by rewrite app_nil_r.
    + apply (extends_mbind R); [by apply extends_yield_edge | intros _; apply IH].
Qed.

(** A gap of [n] cycles: [n] cycles more, each closed inside the gap with
    the bus as it stood; the bus is not touched. *)
Lemma gap_cycles_spec n : forall d : AvalonSTPkts G,
  exists new,
    gap_cycles ready_at n d =
      (Done tt, with_trace (trace d ++ new) (n + now d)%nat d) /\
    length new = n /\
    Forall (fun c => c_site c = AtGap /\ c_bus c = st_bus d) new.
Proof.
  induction n as [|n IH]; intros d.
  - exists []. simpl. rewrite app_nil_r. by destruct d.
  - simpl. unfold mbind, yield_edge at 1.
    destruct (IH (with_trace
                    (trace d ++ [{| c_site := AtGap; c_time := now d;
                                    c_ready := ready_at (now d);
                                    c_bus := st_bus d |}])
                    (S (now d)) d)) as (new & E & Hl & Hf).
    rewrite E. eexists (_ :: new). unfold with_trace. simpl.
    rewrite <- app_assoc. simpl.
    replace (n + S (now d))%nat with (S (n + now d)) by lia.
    split; [done|]. split; [by rewrite Hl|].
    constructor; [done|exact Hf].
Qed.

Lemma extends_insert_gap : extends gap_valid_low (insert_gap _next_valids ready_at).
Proof.
  intros d. unfold insert_gap.
  destruct (negb (on_truthy (on d))).
  - unfold mbind, bus_do.
    destruct (gap_cycles_spec (Z.to_nat (off d))
                (with_st_bus (set_valid (SInt 0) (st_bus d)) d))
      as (new & E & _ & Hf).
    rewrite E. exists new. simpl. split; [done|].
    eapply Forall_impl; [exact Hf|]. intros c [Hs Hb].
    unfold gap_valid_low. by rewrite Hs, Hb.
  - exists []. simpl. by rewrite app_nil_r.
Qed.

(** When the on budget is used up, the gap lasts exactly [self.off]
    cycles, all with valid low. *)
Lemma insert_gap_cycles (d : AvalonSTPkts G) :
  on_truthy (on d) = false ->
  exists new,
    trace (snd (insert_gap _next_valids ready_at d)) = trace d ++ new /\
    length new = Z.to_nat (off d) /\
    Forall (fun c => c_site c = AtGap /\ st_valid (c_bus c) = SInt 0) new.
Proof.
  intros Hon. unfold insert_gap. rewrite Hon. simpl.
  unfold mbind, bus_do.
  destruct (gap_cycles_spec (Z.to_nat (off d))
              (with_st_bus (set_valid (SInt 0) (st_bus d)) d))
    as (new & E & Hl & Hf).
  rewrite E. exists new. simpl. split; [done|]. split; [done|].
  eapply Forall_impl; [exact Hf|]. intros c [Hs Hb]. by rewrite Hb.
Qed.

Lemma extends_when R (c : bool) (m : M unit) :
  extends R m -> extends R (when c m).
Proof. intros H. destruct c; [exact H | apply extends_mret]. Qed.

Ltac extends_tac :=
  lazymatch goal with
  | |- extends _ (mbind _ _) =>
      apply extends_mbind; [extends_tac | intros ?; extends_tac]
  | |- extends _ (mret _) => apply extends_mret
  | |- extends _ (when _ _) => apply extends_when; extends_tac
  | |- extends _ (insert_gap _ _) => apply extends_insert_gap
  | |- extends _ (_wait_ready _ _) =>
      unfold _wait_ready; apply extends_wait_ready; intros; exact I
  | |- extends _ (yield_edge _ AtWord) =>
      apply extends_yield_edge; intros; exact I
  | |- extends _ (yield_edge _ AtEnd) =>
      apply extends_yield_edge; intros; exact I
  | |- extends _ (if ?c then _ else _) => destruct c; extends_tac
  | |- extends _ (bus_do _) => apply extends_quiet; intros ?; reflexivity
  | |- extends _ consume_valid_cycle => apply extends_quiet; intros ?; reflexivity
  | |- extends _ has_ready => apply extends_quiet; intros ?; reflexivity
  | |- extends _ (config_get _) =>
      apply extends_quiet; intros ?; unfold config_get;
      destruct (_ !! _); reflexivity
  | |- extends _ (fun _ => _) => apply extends_quiet; intros ?; reflexivity
  | _ => idtac
  end.

Lemma extends_send_string_loop sync bus_width bits bigEndian :
  forall fuel string firstword,
    extends gap_valid_low
      (send_string_loop _next_valids ready_at patience fuel sync bus_width bits
         bigEndian string firstword).
Proof.
  induction fuel as [|fuel IH]; intros string firstword;
    destruct string as [|c string]; cbn [send_string_loop];
    unfold send_string_word; cbv zeta; extends_tac.
  apply IH.
Qed.

Lemma extends_send_iterable_loop sync :
  forall pkt firstword,
    extends gap_valid_low
      (send_iterable_loop _next_valids ready_at patience sync pkt firstword).
Proof.
  induction pkt as [|word pkt IH]; intros firstword; cbn [send_iterable_loop];
    extends_tac.
  apply IH.
Qed.

(** C9: whatever the on/off generator yields, whatever the sink does
    with ready and whatever the packet is, a string of bytes or an
    iterable of words, the cycles a send adds to the trace that lie in an
    injected gap (closed by the yield inside the [for i in
    range(self.off)] loop) all have valid low. *)
Theorem C9_valid_low_in_gaps (d : AvalonSTPkts G) (pkt : packet) (sync : bool) :
  exists new,
    trace (snd (_driver_send _next_valids ready_at patience pkt sync d))
      = trace d ++ new /\
    Forall gap_valid_low new.
Proof.
  revert d. change (extends gap_valid_low
                      (_driver_send _next_valids ready_at patience pkt sync)).
  unfold _driver_send, _send_string, _send_iterable. cbv zeta.
  destruct pkt as [string|words]; extends_tac.
  - apply extends_send_string_loop.
  - apply extends_send_iterable_loop.
Qed.

(** *** The configuration *)

Lemma init_fields (b : STBus) (cfg : gmap string cfgval) (g : G) :
  let d := AvalonSTPkts_init _next_valids b cfg g in
  let r := _next_valids (OnBool false) 0 g in
  st_bus d = b /\ on d = fst (fst r) /\ off d = snd (fst r) /\
  valid_generator d = snd r /\ now d = O /\ trace d = [] /\
  config d = cfg ∪ _default_config.
Proof.
  cbv zeta. unfold AvalonSTPkts_init.
  apply (map_fold_weak_ind
           (fun (d : AvalonSTPkts G) (m : gmap string cfgval) =>
              st_bus d = b /\
              on d = fst (fst (_next_valids (OnBool false) 0 g)) /\
              off d = snd (fst (_next_valids (OnBool false) 0 g)) /\
              valid_generator d = snd (_next_valids (OnBool false) 0 g) /\
              now d = O /\ trace d = [] /\
              config d = m ∪ _default_config)).
  - cbn [st_bus on off valid_generator now trace config].
    rewrite (left_id_L ∅ (∪)). by split_and!.
  - intros i x m d Hi (H1 & H2 & H3 & H4 & H5 & H6 & H7).
    cbn [st_logging st_bus on off valid_generator now trace config].
    rewrite H7, insert_union_l. by split_and!.
Qed.



Lemma blind_mret {A} (a : A) : config_blind (mret a : M A).
Proof. intros d1 d2 H. by split. Qed.

Lemma blind_mbind {A B} (m : M A) (f : A -> M B) :
  config_blind m -> (forall a, config_blind (f a)) -> config_blind (mbind m f).
Proof.
  intros Hm Hf d1 d2 H. unfold mbind.
  destruct (Hm d1 d2 H) as [E S].
  destruct (m d1) as [[a| |e] d1'], (m d2) as [[a'| |e'] d2']; simpl in *;
    try discriminate.
  - injection E as ->. by apply Hf.
  - by split.
  - injection E as ->. by split.
Qed.

Lemma blind_when (c : bool) (m : M unit) : config_blind m -> config_blind (when c m).
Proof. intros H. destruct c; [exact H | apply blind_mret]. Qed.

Lemma blind_local {A} (m : M A) :
  (forall d1 d2, same_but_config d1 d2 ->
     fst (m d1) = fst (m d2) /\ same_but_config (snd (m d1)) (snd (m d2))) ->
  config_blind m.
Proof. done. Qed.

Lemma blind_wait_ready fuel : config_blind (wait_ready_loop ready_at fuel).
Proof.
  induction fuel as [|fuel IH]; intros d1 d2 H; simpl; [by split|].
  destruct H as (H1 & H2 & H3 & H4 & H5 & H6 & H7). rewrite H5.
  destruct (st_truthy (ready_at (now d2))).
  - by split.
  - apply (blind_mbind (yield_edge ready_at AtReady) (fun _ => wait_ready_loop ready_at fuel)).
    + intros e1 e2 (K1 & K2 & K3 & K4 & K5 & K6 & K7).
      unfold yield_edge, same_but_config; simpl. rewrite K1, K5, K6. by split_and!.
    + intros _. apply IH.
    + by split_and!.
Qed.

Lemma blind_gap_cycles n : config_blind (gap_cycles ready_at n).
Proof.
  induction n as [|n IH]; simpl; [apply blind_mret|].
  apply blind_mbind; [|intros _; apply IH].
  intros e1 e2 (K1 & K2 & K3 & K4 & K5 & K6 & K7).
  unfold yield_edge, same_but_config; simpl. rewrite K1, K5, K6. by split_and!.
Qed.

Ltac blind_prim :=
  let d1 := fresh "d" in let d2 := fresh "d" in
  let K1 := fresh "K" in let K2 := fresh "K" in let K3 := fresh "K" in
  let K4 := fresh "K" in let K5 := fresh "K" in let K6 := fresh "K" in
  let K7 := fresh "K" in
  intros d1 d2 (K1 & K2 & K3 & K4 & K5 & K6 & K7);
  unfold same_but_config, yield_edge, bus_do, next_valids, consume_valid_cycle,
    has_ready, config_get, st_logging;
  cbn [fst snd st_bus on off valid_generator now trace config with_st_bus
       with_valids with_trace];
  rewrite ?K1, ?K2, ?K3, ?K4, ?K5, ?K6, ?K7;
  try match goal with
      | |- context [config ?d !! ?k] => destruct (config d !! k) eqn:?
      end;
  cbn [fst snd];
  split_and!; congruence.

Lemma blind_insert_gap : config_blind (insert_gap _next_valids ready_at).
Proof.
  intros d1 d2 H. unfold insert_gap.
  assert (on d1 = on d2 /\ off d1 = off d2) as [E1 E2]
    by (destruct H as (_ & ? & ? & _); done).
  rewrite E1, E2.
  destruct (negb (on_truthy (on d2))); [|by split].
  apply (blind_mbind (bus_do (set_valid (SInt 0)))
           (fun _ => mbind (gap_cycles ready_at (Z.to_nat (off d2)))
                       (fun _ => next_valids _next_valids)));
    [blind_prim | intros _ | exact H].
  apply blind_mbind; [apply blind_gap_cycles | intros _; blind_prim].
Qed.

Ltac blind_tac :=
  lazymatch goal with
  | |- config_blind (mbind _ _) =>
      apply blind_mbind; [blind_tac | intros ?; blind_tac]
  | |- config_blind (mret _) => apply blind_mret
  | |- config_blind (when _ _) => apply blind_when; blind_tac
  | |- config_blind (insert_gap _ _) => apply blind_insert_gap
  | |- config_blind (_wait_ready _ _) => unfold _wait_ready; apply blind_wait_ready
  | |- config_blind (if ?c then _ else _) => destruct c; blind_tac
  | |- config_blind (yield_edge _ _) => blind_prim
  | |- config_blind (bus_do _) => blind_prim
  | |- config_blind consume_valid_cycle => blind_prim
  | |- config_blind has_ready => blind_prim
  | |- config_blind (config_get "firstSymbolInHighOrderBits") => blind_prim
  | |- config_blind (fun _ => _) => blind_prim
  | _ => idtac
  end.

Lemma blind_send_string_loop sync bus_width bits bigEndian :
  forall fuel string firstword,
    config_blind
      (send_string_loop _next_valids ready_at patience fuel sync bus_width bits
         bigEndian string firstword).
Proof.
  induction fuel as [|fuel IH]; intros string firstword;
    destruct string as [|c string]; cbn [send_string_loop];
    unfold send_string_word; cbv zeta; blind_tac.
  apply IH.
Qed.

Lemma blind_send_iterable_loop sync :
  forall pkt firstword,
    config_blind
      (send_iterable_loop _next_valids ready_at patience sync pkt firstword).
Proof.
  induction pkt as [|word pkt IH]; intros firstword; cbn [send_iterable_loop];
    blind_tac.
  apply IH.
Qed.

Lemma blind_driver_send pkt sync :
  config_blind (_driver_send _next_valids ready_at patience pkt sync).
Proof.
  unfold _driver_send, _send_string, _send_iterable.
  destruct pkt as [string|words]; blind_tac.
  - apply blind_send_string_loop.
  - apply blind_send_iterable_loop.
Qed.

(** C7 (amended): no value of readyLatency is refused.  [__init__]
    stores whatever the configuration gives for it, and every send then
    goes as on a driver configured with readyLatency 0: same outcome,
    same cycles on the bus, same final bus. *)
Theorem C7_ready_latency_is_ignored (b : STBus) (cfg : gmap string cfgval)
    (g : G) (v : cfgval) (pkt : packet) (sync : bool) :
  let d := AvalonSTPkts_init _next_valids b (<["readyLatency" := v]> cfg) g in
  let d0 := AvalonSTPkts_init _next_valids b
              (<["readyLatency" := CfgInt 0]> cfg) g in
  let r := _driver_send _next_valids ready_at patience pkt sync d in
  let r0 := _driver_send _next_valids ready_at patience pkt sync d0 in
  config d !! "readyLatency" = Some v /\
  fst r = fst r0 /\ trace (snd r) = trace (snd r0) /\
  st_bus (snd r) = st_bus (snd r0).
Proof.
  cbv zeta.
  pose proof (init_fields b (<["readyLatency" := v]> cfg) g) as I1.
  pose proof (init_fields b (<["readyLatency" := CfgInt 0]> cfg) g) as I0.
  cbv zeta in I1, I0.
  destruct I1 as (A1 & A2 & A3 & A4 & A5 & A6 & A7).
  destruct I0 as (B1 & B2 & B3 & B4 & B5 & B6 & B7).
  split.
  { rewrite A7. apply lookup_union_Some_l, lookup_insert_eq. }
  destruct (blind_driver_send pkt sync
              (AvalonSTPkts_init _next_valids b (<["readyLatency" := v]> cfg) g)
              (AvalonSTPkts_init _next_valids b
                 (<["readyLatency" := CfgInt 0]> cfg) g))
    as (E & S1 & _ & _ & _ & _ & S6 & _).
  { unfold same_but_config. rewrite A1, A2, A3, A4, A5, A6, A7, B1, B2, B3, B4, B5, B6, B7.
    split_and!; try done.
    rewrite !lookup_union, !lookup_insert_ne by done. done. }
  by split_and!.
Qed.


(** *** The words of a string *)

Lemma transfers_app t1 t2 : transfers (t1 ++ t2) = transfers t1 ++ transfers t2.
Proof. unfold transfers. apply List.filter_app. Qed.

Lemma transfers_none (t : list cycle_rec) :
  Forall (fun c => st_truthy (st_valid (c_bus c)) = false \/
                   (st_ready (c_bus c) = true /\ st_truthy (c_ready c) = false)) t ->
  transfers t = [].
Proof.
  induction 1 as [|c t Hc _ IH]; [done|]. unfold transfers in *. simpl.
  rewrite IH. destruct Hc as [-> | [-> ->]]; [done|].
  by destruct (st_truthy (st_valid (c_bus c))).
Qed.

(** Waiting for ready ends when the sink is responsive: the cycles
    waited show the bus as it was with ready low, and ready is high in
    the cycle the wait ends in. *)
Lemma wait_ready_loop_spec fuel : forall (d : AvalonSTPkts G) j,
  (j < fuel)%nat -> st_truthy (ready_at (now d + j)%nat) = true ->
  exists k new,
    wait_ready_loop ready_at fuel d
      = (Done tt, with_trace (trace d ++ new) (k + now d)%nat d) /\
    st_truthy (ready_at (k + now d)%nat) = true /\
    Forall (fun c => c_bus c = st_bus d /\ st_truthy (c_ready c) = false) new.
Proof.
  induction fuel as [|fuel IH]; intros d j Hj Hr; [lia|].
  simpl. destruct (st_truthy (ready_at (now d))) eqn:E.
  - exists O, []. simpl. rewrite app_nil_r. split; [by destruct d|]. by split.
  - destruct j as [|j]; [rewrite Nat.add_0_r in Hr; congruence|].
    unfold mbind, yield_edge at 1.
    destruct (IH (with_trace
                    (trace d ++ [{| c_site := AtReady; c_time := now d;
                                    c_ready := ready_at (now d);
                                    c_bus := st_bus d |}])
                    (S (now d)) d) j) as (k & new & E1 & Hk & Hf).
    { lia. }
    { unfold with_trace; cbn [now].
      replace (S (now d) + j)%nat with (now d + S j)%nat by lia. exact Hr. }
    rewrite E1.
    exists (S k), ({| c_site := AtReady; c_time := now d;
                      c_ready := ready_at (now d); c_bus := st_bus d |} :: new).
    unfold with_trace in *. simpl in *.
    rewrite <- app_assoc. simpl.
    replace (k + S (now d))%nat with (S (k + now d)) in * by lia.
    split; [done|]. split; [done|]. constructor; [by split|done].
Qed.

Lemma when_wait_ready_spec (d : AvalonSTPkts G) :
  (st_ready (st_bus d) = true -> responsive ready_at patience) ->
  exists d' new,
    when (st_ready (st_bus d)) (_wait_ready ready_at patience) d = (Done tt, d') /\
    trace d' = trace d ++ new /\ transfers new = [] /\
    st_bus d' = st_bus d /\ ready_ok ready_at d'.
Proof.
  intros Hresp. destruct (st_ready (st_bus d)) eqn:Er; simpl.
  - destruct (Hresp eq_refl (now d)) as (j & Hj & Hr).
    destruct (wait_ready_loop_spec patience d j Hj Hr) as (k & new & E & Hk & Hf).
    unfold _wait_ready. rewrite E. eexists _, new. split; [done|]. simpl.
    split_and!; try done.
    { apply transfers_none. eapply Forall_impl; [exact Hf|].
      intros c [Hb Hc]. right. by rewrite Hb, Er. }
    intros _. exact Hk.
  - exists d, []. unfold mret. rewrite app_nil_r. split_and!; try done.
    intros H. congruence.
Qed.

Lemma insert_gap_spec (d : AvalonSTPkts G) :
  exists d' new,
    insert_gap _next_valids ready_at d = (Done tt, d') /\
    trace d' = trace d ++ new /\ transfers new = [] /\
    word_view (st_bus d') = word_view (st_bus d) /\
    st_ready (st_bus d') = st_ready (st_bus d).
Proof.
  unfold insert_gap. destruct (negb (on_truthy (on d))).
  - unfold mbind, bus_do.
    destruct (gap_cycles_spec (Z.to_nat (off d))
                (with_st_bus (set_valid (SInt 0) (st_bus d)) d))
      as (new & E & _ & Hf).
    rewrite E. unfold next_valids. eexists _, new. split; [reflexivity|].
    simpl. split_and!; try done.
    apply transfers_none. eapply Forall_impl; [exact Hf|].
    intros c [_ Hb]. left. by rewrite Hb.
  - exists d, []. by rewrite app_nil_r.
Qed.

Lemma mbind_done {A B} (m : M A) (f : A -> M B) d a d' :
  m d = (Done a, d') -> mbind m f d = f a d'.
Proof. intros E. unfold mbind. by rewrite E. Qed.

Lemma top_yield_spec (c fw : bool) (d : AvalonSTPkts G) :
  (fw = false -> c = true) ->
  (if fw then st_valid (st_bus d) = SInt 0
   else st_truthy (st_valid (st_bus d)) = true /\ ready_ok ready_at d) ->
  exists d' new,
    when c (yield_edge ready_at AtWord) d = (Done tt, d') /\
    trace d' = trace d ++ new /\
    map (fun c => word_view (c_bus c)) (transfers new)
      = (if fw then [] else [word_view (st_bus d)]) /\
    st_bus d' = st_bus d.
Proof.
  intros Hc Hpre. destruct c; simpl.
  - eexists _, [_]. unfold yield_edge. split; [reflexivity|]. simpl.
    split; [done|]. split; [|done]. unfold transfers. simpl.
    destruct fw.
    + by rewrite Hpre.
    + destruct Hpre as [-> Hr]. unfold ready_ok in Hr.
      destruct (st_ready (st_bus d)); simpl; [by rewrite Hr|done].
  - destruct fw; [|by discriminate Hc].
    exists d, []. by rewrite app_nil_r.
Qed.

Lemma send_string_word_spec sync W bits be (s : list byte) (fw : bool)
    (d : AvalonSTPkts G) :
  (st_ready (st_bus d) = true -> responsive ready_at patience) ->
  (if fw then st_valid (st_bus d) = SInt 0
   else st_truthy (st_valid (st_bus d)) = true /\ ready_ok ready_at d) ->
  let final := Z.of_nat (length s) <=? W in
  exists d' new,
    send_string_word _next_valids ready_at patience sync W bits be s fw d
      = (Done (if final then [] else drop (Z.to_nat W) s), d') /\
    trace d' = trace d ++ new /\
    map (fun c => word_view (c_bus c)) (transfers new)
      = (if fw then [] else [word_view (st_bus d)]) /\
    word_view (st_bus d') =
      (SInt (if fw then 1 else 0),
       (if final then SInt 1 else st_endofpacket (st_bus d)),
       (if final then SInt (W - Z.of_nat (length s))
        else if fw then SInt 0 else st_empty (st_bus d)),
       SWord bits be (take (Z.to_nat (Z.min (Z.of_nat (length s)) W)) s)) /\
    st_truthy (st_valid (st_bus d')) = true /\ ready_ok ready_at d' /\
    st_ready (st_bus d') = st_ready (st_bus d).
Proof.
  intros Hresp Hpre final.
  unfold send_string_word. cbv zeta.
  destruct (top_yield_spec (negb fw || fw && sync) fw d) as
    (d0 & n0 & E0 & T0 & V0 & B0); [by intros ->|done|].
  rewrite (mbind_done _ _ _ _ _ E0).
  destruct (insert_gap_spec d0) as (d1 & n1 & E1 & T1 & X1 & V1 & R1).
  rewrite (mbind_done _ _ _ _ _ E1).
  unfold word_view in V1. injection V1 as S1 P1 M1 D1.
  set (b2 := set_data
               (SWord bits be (take (Z.to_nat (Z.min (Z.of_nat (length s)) W)) s))
               ((if final
                 then fun b => set_empty (SInt (W - Z.of_nat (length s)))
                                 (set_endofpacket (SInt 1) b)
                 else fun b => b)
                  ((if fw
                    then fun b => set_startofpacket (SInt 1) (set_empty (SInt 0) b)
                    else set_startofpacket (SInt 0))
                     (set_valid (SInt 1) (st_bus d1))))).
  set (d2 := with_st_bus b2
               (with_valids (consume_on (on d1)) (off d1) (valid_generator d1) d1)).
  destruct (when_wait_ready_spec d2) as (d3 & n3 & E3 & T3 & X3 & B3 & R3).
  { intros H. apply Hresp. rewrite <- B0, <- R1. rewrite <- H.
    unfold d2, b2. simpl. by destruct final, fw. }
  exists d3, (n0 ++ n1 ++ n3).
  split.
  { unfold mbind, consume_valid_cycle, bus_do, has_ready, mret; fold final.
    destruct fw, final; cbn [fst snd]; exact (f_equal _ E3) || (
    match goal with |- context [when ?r _ ?x] =>
       change (when r (_wait_ready ready_at patience) x)
         with (when (st_ready (st_bus d2)) (_wait_ready ready_at patience) d2)
    end; by rewrite E3). }
  split.
  { rewrite T3. unfold d2. simpl. by rewrite T1, T0, <- !app_assoc. }
  split.
  { rewrite !transfers_app, X1, X3, app_nil_r. exact V0. }
  rewrite B3. unfold d2, b2. simpl. rewrite B0 in *.
  split; [|split_and!; try done].
  - unfold word_view. destruct final, fw; simpl; congruence.
  - by destruct final, fw.
  - rewrite <- R1. by destruct final, fw.
Qed.

Lemma send_string_loop_nil fuel sync W bits be fw :
  send_string_loop _next_valids ready_at patience fuel sync W bits be [] fw
  = mret tt.
Proof. by destruct fuel. Qed.

Lemma send_string_loop_cons fuel sync W bits be (s : list byte) fw :
  s <> [] ->
  send_string_loop _next_valids ready_at patience (S fuel) sync W bits be s fw
  = mbind (send_string_word _next_valids ready_at patience sync W bits be s fw)
      (fun rest =>
         send_string_loop _next_valids ready_at patience fuel sync W bits be
           rest false).
Proof. by destruct s. Qed.

Lemma expected_words_cons fuel W bits be (s : list byte) fw :
  s <> [] ->
  expected_words (S fuel) W bits be s fw =
  (let n := Z.of_nat (length s) in
   let data := SWord bits be (take (Z.to_nat (Z.min n W)) s) in
   let sop := SInt (if fw then 1 else 0) in
   if n <=? W then [(sop, SInt 1, SInt (W - n), data)]
   else (sop, SInt 0, SInt 0, data)
          :: expected_words fuel W bits be (drop (Z.to_nat W) s) false).
Proof. by destruct s. Qed.

Lemma expected_words_nonempty fuel W bits be (s : list byte) fw :
  s <> [] -> (length s <= fuel)%nat ->
  expected_words fuel W bits be s fw <> [].
Proof.
  destruct s as [|c s]; [done|]. intros _ Hl.
  destruct fuel as [|fuel]; [simpl in Hl; lia|]. simpl.
  by destruct (_ <=? _).
Qed.

Lemma send_string_loop_spec sync W bits be : forall fuel (s : list byte) fw
    (d : AvalonSTPkts G),
  1 <= W -> (length s <= fuel)%nat -> s <> [] ->
  (st_ready (st_bus d) = true -> responsive ready_at patience) ->
  st_endofpacket (st_bus d) = SInt 0 ->
  (fw = false -> st_empty (st_bus d) = SInt 0) ->
  (if fw then st_valid (st_bus d) = SInt 0
   else st_truthy (st_valid (st_bus d)) = true /\ ready_ok ready_at d) ->
  exists d' new,
    send_string_loop _next_valids ready_at patience fuel sync W bits be s fw d
      = (Done tt, d') /\
    trace d' = trace d ++ new /\
    map (fun c => word_view (c_bus c)) (transfers new) ++ [word_view (st_bus d')]
      = (if fw then [] else [word_view (st_bus d)])
        ++ expected_words fuel W bits be s fw /\
    st_truthy (st_valid (st_bus d')) = true /\ ready_ok ready_at d' /\
    st_ready (st_bus d') = st_ready (st_bus d).
Proof.
  induction fuel as [|fuel IH]; intros s fw d HW Hl Hs Hresp Heop Hempty Hpre.
  { destruct s; [done|simpl in Hl; lia]. }
  rewrite send_string_loop_cons, expected_words_cons by done. cbv zeta.
  destruct (send_string_word_spec sync W bits be s fw d Hresp Hpre) as
    (d1 & n1 & E1 & T1 & V1 & W1 & A1 & R1 & Y1).
  cbv zeta in E1, W1.
  rewrite (mbind_done _ _ _ _ _ E1).
  destruct (Z.of_nat (length s) <=? W) eqn:Efin.
  - rewrite send_string_loop_nil. exists d1, n1. unfold mret.
    split_and!; try done. by rewrite V1, W1.
  - apply Z.leb_gt in Efin.
    assert (length (drop (Z.to_nat W) s) = (length s - Z.to_nat W)%nat) as Hld
      by apply length_drop.
    destruct (IH (drop (Z.to_nat W) s) false d1) as
      (d2 & n2 & E2 & T2 & V2 & A2 & R2 & Y2); try done.
    { rewrite Hld. lia. }
    { intros H. apply (f_equal length) in H. rewrite Hld in H. simpl in H. lia. }
    { rewrite Y1. exact Hresp. }
    { unfold word_view in W1. injection W1 as _ -> _ _. exact Heop. }
    { intros _. unfold word_view in W1. injection W1 as _ _ -> _.
      destruct fw; [done|by apply Hempty]. }
    exists d2, (n1 ++ n2). split; [done|].
    split; [by rewrite T2, T1, app_assoc|].
    split; [|split_and!; try done; congruence].
    rewrite transfers_app, map_app, <- app_assoc, V2, V1, W1, Heop.
    destruct fw; simpl; [done|]. by rewrite Hempty.
Qed.

Lemma send_string_spec (s : list byte) sync be (d : AvalonSTPkts G) :
  1 <= st_data_len (st_bus d) / 8 -> s <> [] ->
  config d !! "firstSymbolInHighOrderBits" = Some be ->
  (st_ready (st_bus d) = true -> responsive ready_at patience) ->
  exists d' new,
    _send_string _next_valids ready_at patience s sync d = (Done tt, d') /\
    trace d' = trace d ++ new /\
    map (fun c => word_view (c_bus c)) (transfers new)
      = expected_words (length s) (st_data_len (st_bus d) / 8)
          (st_data_len (st_bus d)) be s true.
Proof.
  intros HW Hs Hcfg Hresp. unfold _send_string.
  unfold mbind at 1. cbv beta iota zeta.
  unfold mbind at 1. unfold config_get at 1. rewrite Hcfg. cbv beta iota.
  do 5 (unfold mbind at 1; unfold bus_do at 1; cbv beta iota).
  cbn [st_bus with_st_bus].
  match goal with
  | |- context [mbind (send_string_loop _ _ _ _ _ _ _ _ _ _) _ ?x] =>
      set (d0 := x)
  end.
  destruct (send_string_loop_spec sync (st_data_len (st_bus d) / 8)
              (st_data_len (st_bus d)) be (length s) s true d0 HW (le_n _) Hs)
    as (d1 & n1 & E1 & T1 & V1 & A1 & R1 & Y1);
    [intros H; by apply Hresp | reflexivity | intros; discriminate
    | reflexivity | ].
  rewrite (mbind_done _ _ _ _ _ E1).
  unfold mbind, yield_edge, bus_do. cbn [fst snd].
  eexists _, (n1 ++ [_]). split; [reflexivity|]. unfold with_trace, with_st_bus.
  cbn [trace st_bus]. rewrite T1. split; [by rewrite app_assoc|].
  rewrite transfers_app, map_app. simpl in V1. rewrite <- V1. f_equal.
  unfold transfers. cbn [List.filter c_bus c_ready]. rewrite A1.
  unfold ready_ok in R1.
  destruct (st_ready (st_bus d1)); simpl; [by rewrite R1|done].
Qed.

Lemma expected_words_length W bits be : forall fuel (s : list byte) fw,
  1 <= W -> (length s <= fuel)%nat -> s <> [] ->
  Z.of_nat (length (expected_words fuel W bits be s fw))
  = (Z.of_nat (length s) + W - 1) / W.
Proof.
  induction fuel as [|fuel IH]; intros s fw HW Hl Hs.
  { destruct s; [done|simpl in Hl; lia]. }
  rewrite expected_words_cons by done. cbv zeta.
  destruct (Z.of_nat (length s) <=? W) eqn:Efin.
  - apply Z.leb_le in Efin. simpl.
    assert (0 < Z.of_nat (length s)) by (destruct s; [done|simpl; lia]).
    apply Z.div_unique with (Z.of_nat (length s) - 1); lia.
  - apply Z.leb_gt in Efin.
    assert (length (drop (Z.to_nat W) s) = (length s - Z.to_nat W)%nat) as Hld
      by apply length_drop.
    cbn [length]. rewrite Nat2Z.inj_succ, IH; try done.
    + rewrite Hld.
      replace (Z.of_nat (length s) + W - 1)
        with (Z.of_nat (length s - Z.to_nat W) + W - 1 + 1 * W) by lia.
      rewrite Z.div_add by lia. lia.
    + rewrite Hld. lia.
    + intros H. apply (f_equal length) in H. rewrite Hld in H. simpl in H. lia.
Qed.

Lemma expected_words_lookup W bits be : forall fuel (s : list byte) fw i v,
  1 <= W -> (length s <= fuel)%nat -> s <> [] ->
  expected_words fuel W bits be s fw !! i = Some v ->
  let last := (S i =? length (expected_words fuel W bits be s fw))%nat in
  v = (SInt (if (i =? 0)%nat then (if fw then 1 else 0) else 0),
       SInt (if last then 1 else 0),
       SInt (if last
             then W - (Z.of_nat (length s) - Z.of_nat i * W) else 0),
       SWord bits be (take (Z.to_nat W) (drop (i * Z.to_nat W) s))).
Proof.
  induction fuel as [|fuel IH]; intros s fw i v HW Hl Hs.
  { destruct s; [done|simpl in Hl; lia]. }
  rewrite expected_words_cons by done. cbv zeta.
  destruct (Z.of_nat (length s) <=? W) eqn:Efin.
  - apply Z.leb_le in Efin. destruct i as [|i]; [|done].
    simpl. intros [= <-]. rewrite Z.min_l by lia.
    rewrite Nat2Z.id. rewrite (take_ge s (length s)) by lia.
    rewrite drop_0. rewrite (take_ge s (Z.to_nat W)) by lia.
    do 2 f_equal. f_equal. lia.
  - apply Z.leb_gt in Efin.
    assert (length (drop (Z.to_nat W) s) = (length s - Z.to_nat W)%nat) as Hld
      by apply length_drop.
    assert (drop (Z.to_nat W) s <> []) as Hne.
    { intros H. apply (f_equal length) in H. rewrite Hld in H. simpl in H. lia. }
    assert (length (drop (Z.to_nat W) s) <= fuel)%nat as Hl' by (rewrite Hld; lia).
    pose proof (expected_words_nonempty fuel W bits be _ false Hne Hl') as Hex.
    destruct i as [|i].
    + simpl. intros [= <-]. rewrite Z.min_r by lia.
      destruct (expected_words fuel W bits be (drop (Z.to_nat W) s) false);
        [done|]. by rewrite drop_0.
    + cbn [lookup list_lookup length]. intros Hv.
      rewrite (IH _ _ _ _ HW Hl' Hne Hv). cbv zeta.
      change (S (S i) =? S ?n)%nat with (S i =? n)%nat.
      rewrite drop_drop, Hld.
      replace (Z.to_nat W + i * Z.to_nat W)%nat with (S i * Z.to_nat W)%nat by lia.
      assert ((if (i =? 0)%nat then 0 else 0) = 0) as ->
        by (by destruct (i =? 0)%nat).
      change (S i =? 0)%nat with false. cbv iota.
      destruct (S i =? _)%nat; [|done].
      do 2 f_equal. f_equal. lia.
Qed.

(** C4: a string of [n > 0] bytes sent on a data bus [W > 0] bytes wide
    ([W] is the data width in bits divided by 8), the sink having no
    ready signal or raising it within [patience] cycles: the send
    returns, and the cycles with a word on the bus (valid high, and ready
    high where there is one) are [ceil(n / W)] in number; the first has
    start-of-packet 1 and the others 0; the last has end-of-packet 1 and
    empty [W] minus the bytes that remained, the others end-of-packet 0
    and empty 0; word [i] carries bytes [i * W] and on of the string. *)
Theorem C4_send_string_words (d : AvalonSTPkts G) (string : list byte)
    (sync : bool) (bigEndian : cfgval) :
  let W := st_data_len (st_bus d) / 8 in
  let n := Z.of_nat (length string) in
  0 < n -> 0 < W ->
  config d !! "firstSymbolInHighOrderBits" = Some bigEndian ->
  (st_ready (st_bus d) = true -> responsive ready_at patience) ->
  exists d' new,
    _send_string _next_valids ready_at patience string sync d = (Done tt, d') /\
    trace d' = trace d ++ new /\
    Z.of_nat (length (transfers new)) = (n + W - 1) / W /\
    forall i c, transfers new !! i = Some c ->
      let last := (S i =? length (transfers new))%nat in
      st_startofpacket (c_bus c) = SInt (if (i =? 0)%nat then 1 else 0) /\
      st_endofpacket (c_bus c) = SInt (if last then 1 else 0) /\
      st_empty (c_bus c)
        = SInt (if last then W - (n - Z.of_nat i * W) else 0) /\
      st_data (c_bus c)
        = SWord (st_data_len (st_bus d)) bigEndian
            (take (Z.to_nat W) (drop (i * Z.to_nat W) string)).
Proof.
  intros W n Hn HW Hcfg Hresp.
  assert (string <> []) as Hs by (intros ->; simpl in n; lia).
  destruct (send_string_spec string sync bigEndian d) as (d' & new & E & T & V);
    try done; [lia|].
  fold W in V.
  assert (length (transfers new)
          = length (expected_words (length string) W (st_data_len (st_bus d))
                      bigEndian string true)) as Hlen.
  { by rewrite <- V, length_map. }
  exists d', new. split_and!; try done.
  - rewrite Hlen. apply expected_words_length; [lia|done|done].
  - intros i c Hc. cbv zeta. rewrite Hlen.
    assert (expected_words (length string) W (st_data_len (st_bus d)) bigEndian
              string true !! i = Some (word_view (c_bus c))) as Hv.
    { rewrite <- V, list_lookup_fmap, Hc. done. }
    apply expected_words_lookup in Hv; [|lia|done|done]. cbv zeta in Hv.
    unfold word_view in Hv. injection Hv as -> -> -> ->. done.
Qed.

End StreamingFacts.

Lemma C4_send_string_words_witness :
  exists d' new,
    _send_string list_next_valids always_ready 1 nine_bytes true example_driver
      = (Done tt, d') /\
    trace d' = trace example_driver ++ new /\
    Z.of_nat (length (transfers new)) = (9 + 4 - 1) / 4 /\
    forall i c, transfers new !! i = Some c ->
      let last := (S i =? length (transfers new))%nat in
      st_startofpacket (c_bus c) = SInt (if (i =? 0)%nat then 1 else 0) /\
      st_endofpacket (c_bus c) = SInt (if last then 1 else 0) /\
      st_empty (c_bus c) = SInt (if last then 4 - (9 - Z.of_nat i * 4) else 0) /\
      st_data (c_bus c)
        = SWord 32 (CfgBool true)
            (take (Z.to_nat 4) (drop (i * Z.to_nat 4) nine_bytes)).
Proof.
  apply (C4_send_string_words list_next_valids always_ready 1 example_driver
           nine_bytes true (CfgBool true)).
  - reflexivity.
  - reflexivity.
  - reflexivity.
  - intros H. discriminate H.
Defined.

(** The scenario of C4 in full: nine bytes on a four-byte bus are three
    words; word 0 has start-of-packet 1 and empty 0, word 1 neither flag
    and empty 0, word 2 end-of-packet 1 and empty 3. *)
Example nine_bytes_on_a_four_byte_bus :
  map (fun c => word_view (c_bus c))
      (transfers
         (trace (snd (_send_string list_next_valids always_ready 1 nine_bytes
                        true example_driver))))
  = [(SInt 1, SInt 0, SInt 0, SWord 32 (CfgBool true) [x01; x02; x03; x04]);
     (SInt 0, SInt 0, SInt 0, SWord 32 (CfgBool true) [x05; x06; x07; x08]);
     (SInt 0, SInt 1, SInt 3, SWord 32 (CfgBool true) [x09])].
Proof. vm_compute. reflexivity. Qed.

(** C7 as stated fails: a driver configured with a ready latency of 3
    is created with that value in its configuration, and its first send
    returns without raising. *)
Lemma C7_ready_latency_3_is_accepted :
  config latency3_driver !! "readyLatency" = Some (CfgInt 3) /\
  fst (_driver_send list_next_valids always_ready 1 (PktStr nine_bytes) true
         latency3_driver) = Done tt /\
  (forall e,
     fst (_driver_send list_next_valids always_ready 1 (PktStr nine_bytes) true
            latency3_driver) <> Threw e).
Proof.
  split; [vm_compute; reflexivity|].
  assert (fst (_driver_send list_next_valids always_ready 1 (PktStr nine_bytes)
                 true latency3_driver) = Done tt) as E
    by (vm_compute; reflexivity).
  split; [exact E|]. intros e. rewrite E. discriminate.
Qed.

(** The same nine bytes through gaps and a sink that is ready every
    other cycle: the generator grants one word, then two idle cycles,
    then two words; the words that go over the bus are the same three. *)
Example nine_bytes_with_gaps_and_backpressure :
  let d := AvalonSTPkts_init list_next_valids
             {| st_valid := SX; st_data := SX; st_data_len := 32;
                st_startofpacket := SX; st_endofpacket := SX; st_empty := SX;
                st_error := None; st_channel := None; st_ready := true |}
             ∅ (Some [(1, 2); (0, 5); (2, 1)]) in
  let r := _send_string list_next_valids
             (fun n => SInt (Z.of_nat n mod 2)) 4 nine_bytes false d in
  fst r = Done tt /\
  map (fun c => (c_site c, st_valid (c_bus c))) (trace (snd r))
  = [(AtReady, SInt 1); (AtWord, SInt 1); (AtGap, SInt 0); (AtGap, SInt 0);
     (AtReady, SInt 1); (AtWord, SInt 1); (AtReady, SInt 1); (AtEnd, SInt 1)] /\
  map (fun c => word_view (c_bus c)) (transfers (trace (snd r)))
  = [(SInt 1, SInt 0, SInt 0, SWord 32 (CfgBool true) [x01; x02; x03; x04]);
     (SInt 0, SInt 0, SInt 0, SWord 32 (CfgBool true) [x05; x06; x07; x08]);
     (SInt 0, SInt 1, SInt 3, SWord 32 (CfgBool true) [x09])].
Proof. vm_compute. repeat split; reflexivity. Qed.

(** * Further properties *)

(** ** More on the responder *)













(** A cycle without read strobe goes through whatever the latency
    range: the queue loses its oldest entry and gains none, and no random
    number is drawn. *)
Lemma respond_cycle_noread m b rq :
  responder_bus b -> _readable m = true -> _writeable m = true ->
  definite rq -> truthy (rq_read rq) = false ->
  exists m' b',
    respond_cycle rq (m, b) = Returns (m', b') /\
    responder_bus b' /\ _readable m' = true /\ _writeable m' = true /\
    _readlatency_min m' = _readlatency_min m /\
    _readlatency_max m' = _readlatency_max m /\
    _responses m' = tail (_responses m) /\ mem_random m' = mem_random m.
Proof.
  intros Hb Hre Hwe [[a Ha] [v Hv]] Hrd.
  destruct (apply_request_spec rq b Hb) as (Hb1 & Had & Hr & Hw & Hwd & Hrd1).
  set (b1 := apply_request rq b) in *.
  destruct Hb1 as (H1 & H2 & H3 & H4 & H5).
  destruct (respond_edge_spec m b1 H1 H2)
    as (m2 & b2 & E2 & Hrs2 & Hob2 & A1 & A2 & A3 & A4 & A5 & A6 & M1 & M2 & M3
        & M4 & M5 & M6 & M7 & M8).
  assert (Hs : forall x, getattr x b2 = getattr x b1 -> sample x b2 = sample x b1).
  { intros x Hx. unfold sample. by rewrite Hx. }
  destruct (respond_write_spec m2 b2 (rq_write rq) a v)
    as (m4 & E4 & Hrs4 & P1 & P2 & P3 & P4 & P5 & P6 & P7).
  { congruence. } { rewrite <- Hw. by apply Hs. } { congruence. }
  { rewrite <- Hv, <- Hwd. by apply Hs. }
  assert (mem_random m4 = mem_random m2) as P8.
  { revert E4. unfold respond_write. rewrite M3, Hwe.
    destruct (sample a_write b2); [|discriminate]. cbn [obind].
    destruct (truthy a0); [|by intros [= <-]].
    destruct (integer _); [|discriminate]. cbn [obind].
    destruct (sample a_writedata b2); [|discriminate]. cbn [obind].
    destruct (integer _); [|discriminate]. cbn [obind]. by intros [= <-]. }
  exists m4, b2. unfold respond_cycle, respond_readonly. cbn [fst snd].
  fold b1. rewrite E2. cbn [obind fst snd].
  unfold respond_read. rewrite M2, Hre.
  rewrite (Hs a_read A2), Hr. cbn [obind]. rewrite Hrd. cbn [obind].
  rewrite E4. cbn [obind].
  split; [done|].
  split. { unfold responder_bus, hasattr, getattr in *. rewrite A2, A3, A4. done. }
  split_and!; congruence.
Qed.



(** X5: the latency range is not checked.  A responder created with
    [readlatency_max < readlatency_min] is accepted and runs as long as
    no read strobe is sampled; the first read raises [ValueError] out of
    [random.randint], which ends the responder. *)
Theorem X5_empty_latency_range_raises_at_first_read (b : Bus) (lmin lmax : Z)
    (store : option (gmap Z Z)) (rnd : Random) (pre post : list request)
    (rq : request) :
  responder_bus b -> lmax < lmin ->
  Forall definite pre -> Forall (fun r => truthy (rq_read r) = false) pre ->
  definite rq -> truthy (rq_read rq) = true ->
  exists m0 b0 outs s,
    AvalonMemory_init b lmin lmax store rnd = Returns (m0, b0) /\
    respond_run pre (m0, b0) = Returns (outs, s) /\
    respond_run (pre ++ rq :: post) (m0, b0) = Raises ValueError.
Proof.
  intros Hb Hlat Hdef Hnr Hrq Hrd.
  assert (exists m0 b0,
            AvalonMemory_init b lmin lmax store rnd = Returns (m0, b0) /\
            responder_bus b0 /\ _readable m0 = true /\ _writeable m0 = true /\
            _readlatency_min m0 = lmin /\ _readlatency_max m0 = lmax)
    as (m0 & b0 & E0 & Hb0 & Hre0 & Hwe0 & Hmin0 & Hmax0).
  { destruct Hb as (Hrd' & Hrv & Hr & Hw & Hwd).
    destruct b as [ad [rd'|] [r|] [w|] wt [wd|] [rv|]]; try discriminate.
    eexists _, _. split; [reflexivity|]. cbn. repeat split; reflexivity. }
  exists m0, b0.
  assert (forall m1 b1,
            responder_bus b1 -> _readable m1 = true -> _writeable m1 = true ->
            _readlatency_min m1 = lmin -> _readlatency_max m1 = lmax ->
            exists outs s,
              respond_run pre (m1, b1) = Returns (outs, s) /\
              respond_run (pre ++ rq :: post) (m1, b1) = Raises ValueError) as Hrun.
  { clear E0 Hb0 Hre0 Hwe0 Hmin0 Hmax0 m0 b0.
    induction pre as [|r pre IH]; intros m1 b1 Hb1 Hre1 Hwe1 Hmin1 Hmax1.
    - exists [], (m1, b1). split; [done|]. cbn [app respond_run].
      assert (respond_cycle rq (m1, b1) = Raises ValueError) as ->; [|done].
      destruct Hrq as [[a Ha] [v Hv]].
      destruct (apply_request_spec rq b1 Hb1) as (Hb2 & Had & Hr & Hw & Hwd & Hrd1).
      set (b2 := apply_request rq b1) in *.
      destruct Hb2 as (H1 & H2 & H3 & H4 & H5).
      destruct (respond_edge_spec m1 b2 H1 H2)
        as (m2 & b3 & E2 & Hrs2 & Hob2 & A1 & A2 & A3 & A4 & A5 & A6 & M1 & M2 & M3
            & M4 & M5 & M6 & M7 & M8).
      unfold respond_cycle, respond_readonly. cbn [fst snd]. fold b2.
      rewrite E2. cbn [obind fst snd]. unfold respond_read. rewrite M2, Hre1.
      assert (sample a_read b3 = Returns (rq_read rq)) as ->.
      { rewrite <- Hr. unfold sample. cbn [getattr]. by rewrite A2. }
      cbn [obind]. rewrite Hrd. unfold _pad, randint.
      rewrite M4, M5, Hmin1, Hmax1.
      destruct (lmax <? lmin) eqn:E; [done|lia].
    - apply Forall_cons in Hdef as [Hr1 Hdef]. apply Forall_cons in Hnr as [Hr2 Hnr].
      destruct (respond_cycle_noread m1 b1 r Hb1 Hre1 Hwe1 Hr1 Hr2)
        as (m2 & b2 & E2 & Hb2 & Hre2 & Hwe2 & Hmin2 & Hmax2 & _).
      destruct (IH Hdef Hnr m2 b2) as (outs & s & E3 & E4); try done; try congruence.
      exists (b2 :: outs), s. cbn [app respond_run]. rewrite E2. cbn [obind].
      rewrite E3, E4. destruct s. done. }
  destruct (Hrun m0 b0) as (outs & s & E1 & E2); try done.
  by exists outs, s.
Qed.

Lemma X5_empty_latency_range_raises_at_first_read_witness :
  exists m0 b0 outs s,
    AvalonMemory_init example_bus 2 1 None zero_random = Returns (m0, b0) /\
    respond_run [write_request 4 9; idle_request] (m0, b0) = Returns (outs, s) /\
    respond_run ([write_request 4 9; idle_request] ++ read_request 4 :: [idle_request])
                (m0, b0) = Raises ValueError.
Proof.
  apply (X5_empty_latency_range_raises_at_first_read example_bus 2 1 None
           zero_random [write_request 4 9; idle_request] [idle_request]
           (read_request 4)).
  - repeat split; reflexivity.
  - lia.
  - repeat constructor; eexists; reflexivity.
  - repeat constructor.
  - split; eexists; reflexivity.
  - reflexivity.
Defined.

Lemma randint_ok lo hi r :
  lo <= hi ->
  randint lo hi r = Returns (lo + draws r (drawn r) mod (hi - lo + 1),
                             {| draws := draws r; drawn := S (drawn r) |}).
Proof. intros H. unfold randint. destruct (hi <? lo) eqn:E; [lia|done]. Qed.

(** X6: three of the optional signals are not optional.  In its first
    cycle a responder raises [AttributeError] exactly when its bus lacks
    [readdatavalid], or has [readdata] without [read], or has [writedata]
    without [write] (the request being resolved and the latency range not
    empty); on any other bus the cycle returns. *)
Theorem X6_signals_the_responder_needs (b : Bus) (lmin lmax : Z)
    (store : option (gmap Z Z)) (rnd : Random) (rq : request)
    (m0 : AvalonMemory) (b0 : Bus) :
  AvalonMemory_init b lmin lmax store rnd = Returns (m0, b0) ->
  lmin <= lmax -> definite rq ->
  (respond_cycle rq (m0, b0) = Raises AttributeError <-> lacks_needed_signal b) /\
  (respond_cycle rq (m0, b0) = Raises AttributeError \/
   exists s, respond_cycle rq (m0, b0) = Returns s).
Proof.
  intros Hinit Hlat [[a Ha] [v Hv]].
  destruct rq as [ra rr rw rwd]. simpl in Ha, Hv. subst ra rwd.
  unfold AvalonMemory_init in Hinit. unfold lacks_needed_signal.
  destruct b as [ad [rd|] [r|] [w|] wt [wd|] [rv|]]; cbn in Hinit;
    try discriminate Hinit; injection Hinit as <- <-;
    unfold respond_cycle, respond_edge, respond_readonly, respond_read,
      respond_write, _pad, apply_request, drive_if_present, drive, sample, hasattr;
    cbn [fst snd getattr setattr drive_address assign obind _responses tail
         with_responses bus_address bus_readdata bus_read bus_write bus_waitrequest
         bus_writedata bus_readdatavalid _readable _writeable sig_value integer
         _readlatency_min _readlatency_max mem_random with_random with_val _mem
         mem_logging with_mem rq_address rq_read rq_write rq_writedata];
    rewrite ?(randint_ok lmin lmax rnd Hlat);
    repeat (cbn [fst snd obind integer _readable _writeable with_responses
                 with_random with_val with_mem mem_logging _mem _responses
                 mem_random _readlatency_min _readlatency_max];
            match goal with
            | |- context [if truthy ?x then _ else _] => destruct (truthy x)
            | |- context [match @lookup ?a ?b ?c ?e ?k ?d with _ => _ end] =>
                destruct (@lookup a b c e k d)
            end);
    cbn [fst snd obind integer];
    (split; [split; [intros H; try discriminate H; auto | intros H; try done;
        destruct H as [H|[[H1 H2]|[H1 H2]]]; discriminate] | eauto]).
Qed.

Lemma X6_signals_the_responder_needs_witness :
  (respond_cycle (write_request 3 4)
     ({| _readable := false; _writeable := true; _width := 32; _mem := ∅;
         _val := BinX; _readlatency_min := 1; _readlatency_max := 1;
         _responses := []; mem_log := []; mem_random := zero_random |},
      write_only_bus) = Raises AttributeError
   <-> lacks_needed_signal write_only_bus) /\
  (respond_cycle (write_request 3 4)
     ({| _readable := false; _writeable := true; _width := 32; _mem := ∅;
         _val := BinX; _readlatency_min := 1; _readlatency_max := 1;
         _responses := []; mem_log := []; mem_random := zero_random |},
      write_only_bus) = Raises AttributeError \/
   exists s,
     respond_cycle (write_request 3 4)
       ({| _readable := false; _writeable := true; _width := 32; _mem := ∅;
           _val := BinX; _readlatency_min := 1; _readlatency_max := 1;
           _responses := []; mem_log := []; mem_random := zero_random |},
        write_only_bus) = Returns s).
Proof.
  apply (X6_signals_the_responder_needs write_only_bus 1 1 None zero_random
           (write_request 3 4)).
  - reflexivity.
  - lia.
  - split; eexists; reflexivity.
Defined.

(** What a cycle cannot change, whatever is on the bus. *)
Lemma respond_cycle_frame rq m b m' b' :
  respond_cycle rq (m, b) = Returns (m', b') ->
  _readable m' = _readable m /\ _writeable m' = _writeable m /\
  (_writeable m = false -> _mem m' = _mem m) /\
  (_readable m = false -> _responses m' = tail (_responses m)) /\
  (_responses m = [] -> fst (observed b') = Some (BinInt 0)).
Proof.
  unfold respond_cycle, respond_readonly. cbn [fst snd].
  destruct (respond_edge m (apply_request rq b)) as [[m1 b1]|e] eqn:E1;
    [|discriminate].
  cbn [obind fst snd].
  destruct (respond_read m1 b1) as [m2|e] eqn:E2; [|discriminate].
  cbn [obind].
  destruct (respond_write m2 b1) as [m3|e] eqn:E3; [|discriminate].
  cbn [obind]. intros [= <- <-].
  assert (_readable m1 = _readable m /\ _writeable m1 = _writeable m /\
          _mem m1 = _mem m /\ _responses m1 = tail (_responses m) /\
          (_responses m = [] -> fst (observed b1) = Some (BinInt 0))) as
    (A1 & A2 & A3 & A4 & A5).
  { unfold respond_edge in E1.
    destruct (_responses m) as [|[| |x] rs];
      cbn [tail] in E1;
      repeat match type of E1 with
             | context [drive ?a ?v ?b] =>
                 let D := fresh "D" in
                 destruct (drive a v b) eqn:D; cbn [obind] in E1
             end; try discriminate E1; injection E1 as <- <-;
      (split_and!; try done).
    intros _. unfold drive in D. destruct (getattr a_readdatavalid (apply_request rq b)) eqn:G;
      [|discriminate]. injection D as <-. reflexivity. }
  assert (_readable m2 = _readable m1 /\ _writeable m2 = _writeable m1 /\
          _mem m2 = _mem m1 /\
          (_readable m1 = false -> _responses m2 = _responses m1)) as
    (B1 & B2 & B3 & B4).
  { unfold respond_read, _pad in E2.
    destruct (_readable m1) eqn:R; [|injection E2 as <-; done].
    destruct (sample a_read b1); [|discriminate]. cbn [obind] in E2.
    destruct (truthy a); [|injection E2 as <-; done].
    destruct (randint _ _ _) as [[l r]|]; [|discriminate]. cbn [obind fst snd] in E2.
    destruct (integer _); [|discriminate]. cbn [obind] in E2.
    cbn [_mem with_responses with_random] in E2.
    destruct (_mem m1 !! a0); injection E2 as <-; done. }
  assert (_readable m3 = _readable m2 /\ _writeable m3 = _writeable m2 /\
          _responses m3 = _responses m2 /\
          (_writeable m2 = false -> _mem m3 = _mem m2)) as (C1 & C2 & C3 & C4).
  { unfold respond_write in E3.
    destruct (_writeable m2) eqn:W; [|injection E3 as <-; done].
    destruct (sample a_write b1); [|discriminate]. cbn [obind] in E3.
    destruct (truthy a); [|injection E3 as <-; done].
    destruct (integer _); [|discriminate]. cbn [obind] in E3.
    destruct (sample a_writedata b1); [|discriminate]. cbn [obind] in E3.
    destruct (integer _); [|discriminate]. cbn [obind] in E3.
    injection E3 as <-. done. }
  split_and!; [congruence | congruence | | | exact A5].
  - intros H. rewrite C4, B3, A3; congruence.
  - intros H. rewrite C3, B4, A4; congruence.
Qed.

Lemma run_one_sided (b : Bus) (lmin lmax : Z)
    (store : option (gmap Z Z)) (rnd : Random) (rqs : list request)
    (outs : list Bus) (m' : AvalonMemory) (b' : Bus) :
  run_from_init b lmin lmax store rnd rqs = Returns (outs, (m', b')) ->
  (bus_writedata b = None ->
   _mem m' = match store with None => ∅ | Some d => d end) /\
  (bus_readdata b = None ->
   _responses m' = [] /\ Forall (fun o => fst (observed o) = Some (BinInt 0)) outs).
Proof.
  unfold run_from_init.
  destruct (AvalonMemory_init b lmin lmax store rnd) as [[m0 b0]|e] eqn:Hinit;
    [|discriminate].
  cbn [obind]. intros Hrun.
  assert (_readable m0 = hasattr b a_readdata /\ _writeable m0 = hasattr b a_writedata /\
          _mem m0 = match store with None => ∅ | Some d => d end /\
          _responses m0 = []) as (I1 & I2 & I3 & I4).
  { unfold AvalonMemory_init in Hinit.
    destruct (negb (hasattr b a_readdata) && negb (hasattr b a_writedata));
      [discriminate|]. injection Hinit as <- <-. done. }
  assert (forall m1 b1 outs,
            respond_run rqs (m1, b1) = Returns (outs, (m', b')) ->
            (_writeable m1 = false -> _mem m' = _mem m1) /\
            (_readable m1 = false -> _responses m1 = [] ->
             _responses m' = [] /\
             Forall (fun o => fst (observed o) = Some (BinInt 0)) outs)) as Hgen.
  { clear. induction rqs as [|rq rqs IH]; intros m1 b1 outs Hrun.
    - injection Hrun as <- <- <-. split; [done|]. intros _ H. by split.
    - cbn [respond_run] in Hrun.
      destruct (respond_cycle rq (m1, b1)) as [[m2 b2]|e] eqn:E; [|discriminate].
      cbn [obind] in Hrun.
      destruct (respond_run rqs (m2, b2)) as [[outs2 [m3 b3]]|e] eqn:E2;
        [|discriminate].
      cbn [obind fst snd] in Hrun. injection Hrun as <- <- <-.
      destruct (respond_cycle_frame _ _ _ _ _ E) as (F1 & F2 & F3 & F4 & F5).
      destruct (IH m2 b2 outs2 E2) as [G1 G2]. split.
      + intros H. rewrite G1, F3; congruence.
      + intros H1 H2. destruct G2 as [G2 G3]; [congruence| |].
        { rewrite F4 by done. by rewrite H2. }
        split; [done|]. constructor; [by apply F5|done]. }
  destruct (Hgen m0 b0 outs Hrun) as [G1 G2]. split.
  - intros H. rewrite G1, I3; [done|]. rewrite I2. unfold hasattr. simpl. by rewrite H.
  - intros H. apply G2; [|done]. rewrite I1. unfold hasattr. simpl. by rewrite H.
Qed.

(** X7: a memory on a bus without [writedata] is read-only: whatever
    is requested, write strobes included, a run leaves the store as it
    was given to the constructor. *)
Theorem X7_memory_without_writedata_is_read_only (b : Bus) (lmin lmax : Z)
    (store : option (gmap Z Z)) (rnd : Random) (rqs : list request)
    (outs : list Bus) (m' : AvalonMemory) (b' : Bus) :
  bus_writedata b = None ->
  run_from_init b lmin lmax store rnd rqs = Returns (outs, (m', b')) ->
  _mem m' = match store with None => ∅ | Some d => d end.
Proof. intros H Hrun. by apply (run_one_sided _ _ _ _ _ _ _ _ _ Hrun). Qed.

Lemma X7_memory_without_writedata_is_read_only_witness :
  exists outs m' b',
    run_from_init read_only_bus 1 1 (Some {[8 := 5]}) zero_random
      [write_request 8 6; read_request 8; idle_request; idle_request]
    = Returns (outs, (m', b')) /\
    _mem m' = {[8 := 5]} /\
    delivered outs = [BinInt 5].
Proof.
  eexists _, _, _. split; [vm_compute; reflexivity|]. split.
  - eapply (X7_memory_without_writedata_is_read_only read_only_bus 1 1
              (Some {[8 := 5]}) zero_random
              [write_request 8 6; read_request 8; idle_request; idle_request]);
      [reflexivity | vm_compute; reflexivity].
  - vm_compute. reflexivity.
Defined.

(** X8: a memory on a bus without [readdata] never answers: whatever
    is requested, read strobes included, no response is queued and
    [readdatavalid] is driven to 0 in every cycle. *)
Theorem X8_memory_without_readdata_never_answers (b : Bus) (lmin lmax : Z)
    (store : option (gmap Z Z)) (rnd : Random) (rqs : list request)
    (outs : list Bus) (m' : AvalonMemory) (b' : Bus) :
  bus_readdata b = None ->
  run_from_init b lmin lmax store rnd rqs = Returns (outs, (m', b')) ->
  _responses m' = [] /\
  Forall (fun o => fst (observed o) = Some (BinInt 0)) outs.
Proof. intros H Hrun. by apply (run_one_sided _ _ _ _ _ _ _ _ _ Hrun). Qed.

Lemma X8_memory_without_readdata_never_answers_witness :
  exists outs m' b',
    run_from_init bus_without_readdata 1 1 None zero_random
      [write_request 8 6; read_request 8; idle_request]
    = Returns (outs, (m', b')) /\
    (_responses m' = [] /\
     Forall (fun o => fst (observed o) = Some (BinInt 0)) outs) /\
    _mem m' = {[8 := 6]}.
Proof.
  eexists _, _, _. split; [vm_compute; reflexivity|]. split.
  - eapply (X8_memory_without_readdata_never_answers bus_without_readdata 1 1
              None zero_random [write_request 8 6; read_request 8; idle_request]);
      [reflexivity | vm_compute; reflexivity].
  - vm_compute. reflexivity.
Defined.

(** ** More on the master *)

Lemma drive_present a v b :
  hasattr b a = true ->
  exists s, getattr a b = Some s /\ drive a v b = Returns (setattr a (assign s v) b).
Proof.
  unfold hasattr, drive. destruct (getattr a b) as [s|]; [|discriminate].
  intros _. by exists s.
Qed.

Lemma hasattr_setattr a s b a' :
  hasattr b a = true -> hasattr (setattr a s b) a' = hasattr b a'.
Proof. destruct a, a'; unfold hasattr; simpl; try done; by destruct b as [? [|] [|] [|] [|] [|] [|]]. Qed.

Lemma hasattr_drive_address v b a : hasattr (drive_address v b) a = hasattr b a.
Proof. by destruct a. Qed.

Lemma sample_setattr a s b : sample a (setattr a s b) = Returns (sig_value s).
Proof. by destruct a. Qed.

Lemma sample_setattr_ne a a' s b : a <> a' -> sample a' (setattr a s b) = sample a' b.
Proof. destruct a, a'; done. Qed.

Lemma address_setattr a s b : bus_address (setattr a s b) = bus_address b.
Proof. done. Qed.

(** X9: a newly created master has a free lock, has driven the address
    and the strobes its bus has to 0 and has touched no other signal; its
    capability flags are those of the bus, so [read] raises [TestError]
    at once exactly when the bus has no [read] signal, and [write]
    exactly when it has no [write] signal. *)
Theorem X9_fresh_master (b : Bus) (address value : Z) :
  let w := AvalonMaster_init b in
  wired w /\ busy (self w) = false /\
  sig_value (bus_address (bus w)) = BinInt 0 /\
  (hasattr b a_read = true -> sample a_read (bus w) = Returns (BinInt 0)) /\
  (hasattr b a_write = true -> sample a_write (bus w) = Returns (BinInt 0)) /\
  (forall a, hasattr (bus w) a = hasattr b a) /\
  (forall a, a <> a_read -> a <> a_write -> getattr a (bus w) = getattr a b) /\
  (fst (resume (read address) w) = Failed TestError <-> hasattr b a_read = false) /\
  (fst (resume (write address value) w) = Failed TestError
   <-> hasattr b a_write = false).
Proof.
  destruct b as [ad rd [r|] [w|] wt wd rv]; cbn; unfold wired; cbn;
    (split_and!; try done; try (by intros []); try (split; done);
     try (intros a; destruct a; done)).
Qed.

Ltac has_signal :=
  repeat first
    [ rewrite hasattr_drive_address
    | rewrite hasattr_setattr
    | match goal with
      | H : forall b a, hasattr (?f b) a = hasattr b a |- context [hasattr (?f _) _] =>
          rewrite H
      end ];
  congruence.

Ltac drive_step :=
  match goal with
  | |- context [drive ?a ?v ?b] =>
      let s := fresh "s" in let G := fresh "G" in let D := fresh "D" in
      destruct (drive_present a v b) as (s & G & D);
      [ has_signal | rewrite D; clear D ]
  end.

(** X10: an uncontended [write] on a bus without [waitrequest].  The
    call takes the lock at once and suspends until the next clock edge
    with the bus untouched; at that edge it drives the address, the data
    and the strobe, which stay for one clock cycle; at the edge after it
    drops the strobe and returns with the lock free and the event set,
    the waiters handed to the scheduler.  The rest of the test bench may
    do anything to the values on the bus in between. *)
Theorem X10_write_protocol (w : world) (f1 f2 : Bus -> Bus) (address value : Z) :
  busy (self w) = false -> _can_write (self w) = true ->
  hasattr (bus w) a_write = true -> hasattr (bus w) a_writedata = true ->
  hasattr (bus w) a_waitrequest = false ->
  keeps_signals f1 -> keeps_signals f2 ->
  (exists k w0,
     resume (write address value) w = (Waiting RisingEdge k, w0) /\
     busy (self w0) = true /\ bus w0 = bus w) /\
  (exists k w1,
     exec [f1] (write address value) w = (Waiting RisingEdge k, w1) /\
     sig_value (bus_address (bus w1)) = BinInt address /\
     sample a_writedata (bus w1) = Returns (BinInt value) /\
     sample a_write (bus w1) = Returns (BinInt 1) /\
     busy (self w1) = true /\
     exists w2,
       exec [f1; f2] (write address value) w = (Finished tt, w2) /\
       drive a_write (BinInt 0) (f2 (bus w1)) = Returns (bus w2) /\
       sample a_write (bus w2) = Returns (BinInt 0) /\
       busy (self w2) = false /\ fired (busy_event (self w2)) = true /\
       woken w2 = woken w ++ _pending (busy_event (self w))).
Proof.
  intros Hbusy Hcan Hw Hwd Hwt K1 K2. unfold keeps_signals in K1, K2.
  assert (resume (write address value) w
          = (Waiting RisingEdge (write_locked address value),
             set_busy true (event_clear w))) as E0.
  { unfold write, write_transaction, _acquire_lock, yield, modify.
    cbn [resume cbind]. rewrite Hcan. cbn [negb resume cbind]. rewrite Hbusy.
    reflexivity. }
  split; [eexists _, _; split; [exact E0|]; by split|].
  cbn [exec]. rewrite E0.
  unfold write_locked, _release_lock, wait_waitrequest, on_bus, yield, modify.
  cbn [resume cbind bus with_bus set_busy event_clear with_event with_self self].
  drive_step. cbn [resume cbind bus with_bus].
  drive_step. cbn [resume cbind bus with_bus].
  match goal with
  | |- context [hasattr ?b a_waitrequest] =>
      assert (hasattr b a_waitrequest = false) as -> by has_signal
  end.
  cbn [resume cbind].
  eexists _, _. split; [reflexivity|].
  cbn [bus with_bus].
  split; [done|].
  split; [rewrite (sample_setattr_ne a_write a_writedata) by done;
          apply sample_setattr|].
  split; [apply sample_setattr|].
  split; [done|].
  drive_step.
  cbn [resume cbind bus with_bus].
  eexists. split; [reflexivity|]. cbn.
  by split_and!.
Qed.

Lemma keeps_signals_id : keeps_signals (fun b => b).
Proof. done. Qed.

Lemma keeps_signals_drive_if_present a v : keeps_signals (drive_if_present a v).
Proof.
  intros b a'. unfold drive_if_present.
  destruct (getattr a b) eqn:E; [|done].
  apply hasattr_setattr. unfold hasattr. by rewrite E.
Qed.

Lemma sample_present a b :
  hasattr b a = true -> exists s, getattr a b = Some s /\ sample a b = Returns (sig_value s).
Proof.
  unfold hasattr, sample. destruct (getattr a b) as [s|]; [|discriminate].
  intros _. by exists s.
Qed.

(** A master with a free lock on a bus with the signals of a write, no
    backpressure, on [example_bus]. *)
Lemma X10_write_protocol_witness :
  (exists k w0,
     resume (write 5 7) (AvalonMaster_init example_bus) = (Waiting RisingEdge k, w0) /\
     busy (self w0) = true /\ bus w0 = bus (AvalonMaster_init example_bus)) /\
  (exists k w1,
     exec [fun b => b] (write 5 7) (AvalonMaster_init example_bus)
       = (Waiting RisingEdge k, w1) /\
     sig_value (bus_address (bus w1)) = BinInt 5 /\
     sample a_writedata (bus w1) = Returns (BinInt 7) /\
     sample a_write (bus w1) = Returns (BinInt 1) /\
     busy (self w1) = true /\
     exists w2,
       exec [fun b => b; drive_if_present a_readdata (BinInt 9)] (write 5 7)
            (AvalonMaster_init example_bus) = (Finished tt, w2) /\
       drive a_write (BinInt 0) (drive_if_present a_readdata (BinInt 9) (bus w1))
         = Returns (bus w2) /\
       sample a_write (bus w2) = Returns (BinInt 0) /\
       busy (self w2) = false /\ fired (busy_event (self w2)) = true /\
       woken w2 = woken (AvalonMaster_init example_bus)
                  ++ _pending (busy_event (self (AvalonMaster_init example_bus)))).
Proof.
  apply (X10_write_protocol (AvalonMaster_init example_bus) (fun b => b)
           (drive_if_present a_readdata (BinInt 9)) 5 7); try reflexivity.
  - apply keeps_signals_id.
  - apply keeps_signals_drive_if_present.
Defined.

(** X11: an uncontended [read] on a bus without [waitrequest].  The
    strobe is high with the address for one clock cycle and is dropped at
    the next edge; the value returned is what [readdata] holds at the
    settle point of that edge, whatever [readdatavalid] says then or
    later; the lock is held until the time step after and is free when
    the call returns. *)
Theorem X11_read_protocol (w : world) (f1 f2 f3 f4 : Bus -> Bus) (address : Z) :
  busy (self w) = false -> _can_read (self w) = true ->
  hasattr (bus w) a_read = true -> hasattr (bus w) a_readdata = true ->
  hasattr (bus w) a_waitrequest = false ->
  keeps_signals f1 -> keeps_signals f2 -> keeps_signals f3 -> keeps_signals f4 ->
  exists k1 w1,
    exec [f1] (read address) w = (Waiting RisingEdge k1, w1) /\
    sig_value (bus_address (bus w1)) = BinInt address /\
    sample a_read (bus w1) = Returns (BinInt 1) /\
    busy (self w1) = true /\
    exists k2 w2,
      exec [f1; f2] (read address) w = (Waiting ReadOnly k2, w2) /\
      sample a_read (bus w2) = Returns (BinInt 0) /\
      exists data k3 w3,
        sample a_readdata (f3 (bus w2)) = Returns data /\
        exec [f1; f2; f3] (read address) w = (Waiting NextTimeStep k3, w3) /\
        busy (self w3) = true /\
        exists w4,
          exec [f1; f2; f3; f4] (read address) w = (Finished data, w4) /\
          bus w4 = f4 (f3 (bus w2)) /\
          busy (self w4) = false /\ fired (busy_event (self w4)) = true.
Proof.
  intros Hbusy Hcan Hr Hrd Hwt K1 K2 K3 K4. unfold keeps_signals in K1, K2, K3, K4.
  assert (resume (read address) w
          = (Waiting RisingEdge (read_locked address),
             set_busy true (event_clear w))) as E0.
  { unfold read, read_transaction, _acquire_lock, yield, modify.
    cbn [resume cbind]. rewrite Hcan. cbn [negb resume cbind]. rewrite Hbusy.
    reflexivity. }
  cbn [exec]. rewrite E0.
  unfold read_locked, _release_lock, wait_waitrequest, on_bus, from_bus, yield, modify.
  cbn [resume cbind bus with_bus set_busy event_clear with_event with_self self].
  drive_step. cbn [resume cbind bus with_bus].
  match goal with
  | |- context [hasattr ?b a_waitrequest] =>
      assert (hasattr b a_waitrequest = false) as -> by has_signal
  end.
  cbn [resume cbind].
  eexists _, _. split; [reflexivity|]. cbn [bus with_bus].
  split; [done|]. split; [apply sample_setattr|]. split; [done|].
  drive_step. cbn [resume cbind bus with_bus].
  eexists _, _. split; [reflexivity|]. cbn [bus with_bus].
  split; [apply sample_setattr|].
  match goal with
  | |- context [sample a_readdata ?b] =>
      destruct (sample_present a_readdata b) as (sd & Gd & Sd); [has_signal|]
  end.
  rewrite Sd. cbn [resume cbind bus with_bus].
  eexists _, _, _. split; [reflexivity|]. split; [reflexivity|].
  split; [done|].
  eexists. split; [reflexivity|]. by split_and!.
Qed.

Lemma X11_read_protocol_witness :
  exists k1 w1,
    exec [fun b => b] (read 5) (AvalonMaster_init example_bus)
      = (Waiting RisingEdge k1, w1) /\
    sig_value (bus_address (bus w1)) = BinInt 5 /\
    sample a_read (bus w1) = Returns (BinInt 1) /\
    busy (self w1) = true /\
    exists k2 w2,
      exec [fun b => b; fun b => b] (read 5) (AvalonMaster_init example_bus)
        = (Waiting ReadOnly k2, w2) /\
      sample a_read (bus w2) = Returns (BinInt 0) /\
      exists data k3 w3,
        sample a_readdata (drive_if_present a_readdata (BinInt 9) (bus w2))
          = Returns data /\
        exec [fun b => b; fun b => b; drive_if_present a_readdata (BinInt 9)]
             (read 5) (AvalonMaster_init example_bus)
          = (Waiting NextTimeStep k3, w3) /\
        busy (self w3) = true /\
        exists w4,
          exec [fun b => b; fun b => b; drive_if_present a_readdata (BinInt 9);
                fun b => b] (read 5) (AvalonMaster_init example_bus)
            = (Finished data, w4) /\
          bus w4 = drive_if_present a_readdata (BinInt 9) (bus w2) /\
          busy (self w4) = false /\ fired (busy_event (self w4)) = true.
Proof.
  apply (X11_read_protocol (AvalonMaster_init example_bus) (fun b => b) (fun b => b)
           (drive_if_present a_readdata (BinInt 9)) (fun b => b) 5);
    try reflexivity; try apply keeps_signals_id.
  apply keeps_signals_drive_if_present.
Defined.

(** Four clock cycles of a system whose addresses, values and store are
    symbolic, one after the other, the store operations kept folded. *)
Ltac one_cycle s E :=
  eassert (cycle s = _) as E
    by (lazy -[Z.modulo Z.pow Z.sub Z.to_nat Z.add gmap_partial_alter gmap_lookup
               gmap_empty];
        reflexivity).

Ltac run_four_cycles s :=
  let E1 := fresh "E" in let E2 := fresh "E" in
  let E3 := fresh "E" in let E4 := fresh "E" in
  one_cycle s E1;
  match type of E1 with _ = ?s1 =>
    one_cycle s1 E2;
    match type of E2 with _ = ?s2 =>
      one_cycle s2 E3;
      match type of E3 with _ = ?s3 => one_cycle s3 E4 end
    end
  end;
  cbn [cycles]; rewrite E1; rewrite E2; rewrite E3; rewrite E4;
  clear E1 E2 E3 E4.

(** X23: the lock of the master serialises two writes started together.
    On a bus with every signal of the responder and waitrequest low or
    absent, with any addresses, values and initial store: the first write
    takes the lock and the second waits for its release; after two clock
    cycles the first write has returned, its value is in the store and the
    second holds the bus; after four both have returned, the store holds
    the first value overwritten by the second where the addresses agree,
    and the lock is free. *)
Theorem X23_two_writes_are_serialised (b : Bus) (lmin lmax : Z)
    (store : option (gmap Z Z)) (rnd : Random) (a1 v1 a2 v2 : Z) :
  responder_bus b -> waitrequest_low b ->
  exists s0,
    test_bench b lmin lmax store rnd = Returns s0 /\
    (exists k, tasks (two_writers a1 v1 a2 v2 s0)
               = [Waiting RisingEdge (write_locked a1 v1); Waiting EventWait k]) /\
    tasks (cycles 2 (two_writers a1 v1 a2 v2 s0))
      = [Finished tt; Waiting RisingEdge (write_locked a2 v2)] /\
    store_of (cycles 2 (two_writers a1 v1 a2 v2 s0))
      = Some (<[a1 := v1]> (default ∅ store)) /\
    tasks (cycles 4 (two_writers a1 v1 a2 v2 s0)) = [Finished tt; Finished tt] /\
    store_of (cycles 4 (two_writers a1 v1 a2 v2 s0))
      = Some (<[a2 := v2]> (<[a1 := v1]> (default ∅ store))) /\
    busy (self (sys_world (cycles 4 (two_writers a1 v1 a2 v2 s0)))) = false.
Proof.
  intros (Hrd & Hrv & Hr & Hw & Hwd) Hwt.
  destruct b as [ad [rd|] [r|] [w|] wt [[wl wv]|] [rv|]]; try discriminate.
  destruct rnd as [dr dn].
  unfold waitrequest_low in Hwt. simpl in Hwt.
  destruct wt as [[wtl wtv]|]; [simpl in Hwt; subst wtv|].
  - eexists. split; [reflexivity|]. unfold two_writers.
    match goal with
    | |- context [fork ?c (fork ?c' ?s)] =>
        eassert (fork c (fork c' s) = _) as E0 by (lazy -[gmap_empty]; reflexivity)
    end.
    rewrite E0. clear E0. split; [eexists; reflexivity|].
    match goal with
    | |- context [cycles 2 ?s] => run_four_cycles s
    end.
    split_and!; reflexivity.
  - eexists. split; [reflexivity|]. unfold two_writers.
    match goal with
    | |- context [fork ?c (fork ?c' ?s)] =>
        eassert (fork c (fork c' s) = _) as E0 by (lazy -[gmap_empty]; reflexivity)
    end.
    rewrite E0. clear E0. split; [eexists; reflexivity|].
    match goal with
    | |- context [cycles 2 ?s] => run_four_cycles s
    end.
    split_and!; reflexivity.
Qed.

Lemma X23_two_writes_are_serialised_witness :
  exists s0,
    test_bench example_bus 1 1 None zero_random = Returns s0 /\
    (exists k, tasks (two_writers 1 10 2 20 s0)
               = [Waiting RisingEdge (write_locked 1 10); Waiting EventWait k]) /\
    tasks (cycles 2 (two_writers 1 10 2 20 s0))
      = [Finished tt; Waiting RisingEdge (write_locked 2 20)] /\
    store_of (cycles 2 (two_writers 1 10 2 20 s0))
      = Some (<[1 := 10]> (default ∅ None)) /\
    tasks (cycles 4 (two_writers 1 10 2 20 s0)) = [Finished tt; Finished tt] /\
    store_of (cycles 4 (two_writers 1 10 2 20 s0))
      = Some (<[2 := 20]> (<[1 := 10]> (default ∅ None))) /\
    busy (self (sys_world (cycles 4 (two_writers 1 10 2 20 s0)))) = false.
Proof.
  apply (X23_two_writes_are_serialised example_bus 1 1 None zero_random 1 10 2 20).
  - repeat split; reflexivity.
  - exact I.
Defined.

(** ** More on the streaming packet driver *)

Section StreamingMore.
Context {G : Type}.
Variable _next_valids : onval -> Z -> G -> onval * Z * G.
Variable ready_at : nat -> stvalue.
Variable patience : nat.

Local Abbreviation M := (@M G).
Local Abbreviation quiet := (@quiet G _).
Local Abbreviation holding := (@holding G _).
Local Abbreviation word_round := (word_round _next_valids ready_at patience).

(** *** [_wait_ready] *)

Lemma wait_ready_loop_first fuel : forall (d : AvalonSTPkts G) (j : nat),
  (j < fuel)%nat ->
  (forall i, (i < j)%nat -> st_truthy (ready_at (now d + i)%nat) = false) ->
  st_truthy (ready_at (now d + j)%nat) = true ->
  wait_ready_loop ready_at fuel d
  = (Done tt,
     with_trace (trace d ++ map (cycle_at ready_at AtReady (st_bus d) (now d)) (seq 0 j))
                (now d + j)%nat d).
Proof.
  induction fuel as [|fuel IH]; intros d j Hj Hlow Hhigh; [lia|].
  simpl. destruct j as [|j].
  - rewrite Nat.add_0_r in *. rewrite Hhigh. simpl. rewrite app_nil_r. by destruct d.
  - pose proof (Hlow O ltac:(lia)) as H0. rewrite Nat.add_0_r in H0. rewrite H0.
    unfold mbind, yield_edge at 1.
    rewrite (IH _ j); [| lia | |].
    + unfold with_trace. simpl. rewrite <- app_assoc. simpl.
      rewrite <- seq_shift, map_map.
      f_equal. f_equal; [lia|]. f_equal. f_equal.
      * unfold cycle_at. by rewrite Nat.add_0_r.
      * apply map_ext. intros i. unfold cycle_at.
        by replace (S (now d) + i)%nat with (now d + S i)%nat by lia.
    + intros i Hi. unfold with_trace; cbn [now].
      replace (S (now d) + i)%nat with (now d + S i)%nat by lia. apply Hlow. lia.
    + unfold with_trace; cbn [now].
      replace (S (now d) + j)%nat with (now d + S j)%nat by lia. done.
Qed.

Lemma wait_ready_loop_never fuel : forall (d : AvalonSTPkts G),
  (forall i, (i < fuel)%nat -> st_truthy (ready_at (now d + i)%nat) = false) ->
  wait_ready_loop ready_at fuel d
  = (Pending,
     with_trace (trace d ++ map (cycle_at ready_at AtReady (st_bus d) (now d)) (seq 0 fuel))
                (now d + fuel)%nat d).
Proof.
  induction fuel as [|fuel IH]; intros d Hlow.
  - simpl. rewrite app_nil_r, Nat.add_0_r. by destruct d.
  - simpl.
    pose proof (Hlow O ltac:(lia)) as H0. rewrite Nat.add_0_r in H0. rewrite H0.
    unfold mbind, yield_edge at 1. rewrite IH.
    + unfold with_trace. simpl. rewrite <- app_assoc. simpl.
      rewrite <- seq_shift, map_map.
      f_equal. f_equal; [lia|]. f_equal. f_equal.
      * unfold cycle_at. by rewrite Nat.add_0_r.
      * apply map_ext. intros i. unfold cycle_at.
        by replace (S (now d) + i)%nat with (now d + S i)%nat by lia.
    + intros i Hi. unfold with_trace; cbn [now].
      replace (S (now d) + i)%nat with (now d + S i)%nat by lia. apply Hlow. lia.
Qed.

(** X13: [_wait_ready] returns in the first cycle in which ready is
    high, having let one clock edge pass for each cycle in which it was
    low, and does not return as long as it stays low; it leaves the bus
    as it found it. *)
Theorem X13_wait_ready_ends_at_first_ready (d : AvalonSTPkts G) :
  (forall j,
     (j < patience)%nat ->
     (forall i, (i < j)%nat -> st_truthy (ready_at (now d + i)%nat) = false) ->
     st_truthy (ready_at (now d + j)%nat) = true ->
     exists d',
       _wait_ready ready_at patience d = (Done tt, d') /\
       now d' = (now d + j)%nat /\ st_bus d' = st_bus d /\
       trace d' = trace d ++ map (cycle_at ready_at AtReady (st_bus d) (now d)) (seq 0 j)) /\
  ((forall i, (i < patience)%nat -> st_truthy (ready_at (now d + i)%nat) = false) ->
   exists d',
     _wait_ready ready_at patience d = (Pending, d') /\
     st_bus d' = st_bus d /\
     trace d' = trace d ++ map (cycle_at ready_at AtReady (st_bus d) (now d))
                               (seq 0 patience)).
Proof.
  unfold _wait_ready. split.
  - intros j Hj Hlow Hhigh. rewrite (wait_ready_loop_first patience d j Hj Hlow Hhigh).
    eexists. split; [reflexivity|]. by split_and!.
  - intros Hlow. rewrite (wait_ready_loop_never patience d Hlow).
    eexists. split; [reflexivity|]. by split_and!.
Qed.

(** *** What a send leaves alone *)


Lemma quiet_mbind {A B} (m : M A) (f : A -> M B) :
  quiet m -> (forall a, quiet (f a)) -> quiet (mbind m f).
Proof.
  intros Hm Hf d. unfold mbind. destruct (Hm d) as (T & L & C).
  destruct (m d) as [[a| |e] d1]; simpl in *.
  - destruct (Hf a d1) as (T2 & L2 & C2). split_and!; congruence.
  - by split_and!.
  - by destruct (T e).
Qed.


Lemma quiet_plain {A} (m : M A) :
  (forall d, exists a d', m d = (Done a, d') /\ st_log d' = st_log d /\
                          config d' = config d) ->
  quiet m.
Proof. intros H d. destruct (H d) as (a & d' & -> & L & C). by split_and!. Qed.

Lemma quiet_wait_ready fuel : quiet (wait_ready_loop ready_at fuel).
Proof.
  induction fuel as [|fuel IH]; intros d; simpl; [by split_and!|].
  destruct (st_truthy (ready_at (now d))); [by split_and!|].
  apply (quiet_mbind (yield_edge ready_at AtReady) (fun _ => wait_ready_loop ready_at fuel)).
  - apply quiet_plain. intros d0. by eexists _, _.
  - intros _. exact IH.
Qed.









(** *** [__init__] *)

Lemma init_log (b : STBus) (cfg : gmap string cfgval) (g : G) :
  let d := AvalonSTPkts_init _next_valids b cfg g in
  length (st_log d) = size cfg /\ Forall (fun r => lvl r = DEBUG) (st_log d).
Proof.
  cbv zeta. unfold AvalonSTPkts_init.
  apply (map_fold_weak_ind
           (fun (d : AvalonSTPkts G) (m : gmap string cfgval) =>
              length (st_log d) = size m /\ Forall (fun r => lvl r = DEBUG) (st_log d))).
  - by split.
  - intros i x m d Hi [H1 H2]. cbn [st_logging st_log]. split.
    + rewrite length_app, H1, map_size_insert_None by done. simpl. lia.
    + apply Forall_app. split; [done|]. by constructor.
Qed.

(** X12: the configuration of a new driver is [_default_config]
    overridden by the options given: an option given is stored as given,
    known or not; an option not given has its default, if it has one; so
    the four default options are always defined.  One debug record is
    logged for each option given, and the bus and the trace are as at
    creation. *)
Theorem X12_config_is_defaults_overridden (b : STBus) (cfg : gmap string cfgval)
    (g : G) :
  let d := AvalonSTPkts_init _next_valids b cfg g in
  (forall k v, cfg !! k = Some v -> config d !! k = Some v) /\
  (forall k, cfg !! k = None -> config d !! k = _default_config !! k) /\
  (forall k, is_Some (_default_config !! k) -> is_Some (config d !! k)) /\
  length (st_log d) = size cfg /\ Forall (fun r => lvl r = DEBUG) (st_log d) /\
  st_bus d = b /\ trace d = [].
Proof.
  cbv zeta.
  pose proof (init_fields _next_valids b cfg g) as I. cbv zeta in I.
  destruct I as (I1 & _ & _ & _ & _ & I6 & I7).
  pose proof (init_log b cfg g) as [L1 L2].
  split_and!; try done.
  - intros k v H. rewrite I7. by apply lookup_union_Some_l.
  - intros k H. rewrite I7. by rewrite lookup_union_r.
  - intros k [v Hv]. rewrite I7, lookup_union.
    destruct (cfg !! k) as [x|]; rewrite Hv; by eexists.
Qed.

(** *** Gaps *)

(** X14: the gap.  With [self.on] true or a budget that is not used
    up, nothing happens.  With [self.on] false or 0 the driver drives
    valid low, lets exactly [self.off] clock edges pass (none when
    [self.off <= 0]) with nothing else changed on the bus, and then takes
    the next on/off values from the generator. *)
Theorem X14_gap_lasts_off_cycles (d : AvalonSTPkts G) :
  let r := insert_gap _next_valids ready_at d in
  let nv := _next_valids (on d) (off d) (valid_generator d) in
  (on_truthy (on d) = true -> r = (Done tt, d)) /\
  (on_truthy (on d) = false ->
   fst r = Done tt /\
   trace (snd r)
   = trace d ++ map (cycle_at ready_at AtGap (set_valid (SInt 0) (st_bus d)) (now d))
                    (seq 0 (Z.to_nat (off d))) /\
   now (snd r) = (now d + Z.to_nat (off d))%nat /\
   st_bus (snd r) = set_valid (SInt 0) (st_bus d) /\
   (on (snd r), off (snd r), valid_generator (snd r)) = nv).
Proof.
  cbv zeta. unfold insert_gap. split; intros ->; [done|]. cbn [negb].
  unfold mbind, bus_do, next_valids. cbv beta iota.
  assert (forall n (d0 : AvalonSTPkts G),
            gap_cycles ready_at n d0
            = (Done tt,
               with_trace (trace d0 ++ map (cycle_at ready_at AtGap (st_bus d0) (now d0))
                                           (seq 0 n))
                          (now d0 + n)%nat d0)) as Hgap.
  { clear. induction n as [|n IH]; intros d0.
    - simpl. rewrite app_nil_r, Nat.add_0_r. by destruct d0.
    - simpl. unfold mbind, yield_edge at 1. rewrite IH.
      unfold with_trace. simpl. rewrite <- app_assoc. simpl.
      rewrite <- seq_shift, map_map.
      f_equal. f_equal; [lia|]. f_equal. f_equal.
      + unfold cycle_at. by rewrite Nat.add_0_r.
      + apply map_ext. intros i. unfold cycle_at.
        by replace (S (now d0) + i)%nat with (now d0 + S i)%nat by lia. }
  rewrite Hgap. cbn.
  split_and!; try done.
  by destruct (_next_valids (on d) (off d) (valid_generator d)) as [[? ?] ?].
Qed.

(** *** [_send_string] *)

Lemma expected_words_bytes W bits be : forall fuel (s : list byte) fw,
  1 <= W -> (length s <= fuel)%nat ->
  concat (map (fun v => word_bytes (snd v)) (expected_words fuel W bits be s fw)) = s.
Proof.
  induction fuel as [|fuel IH]; intros s fw HW Hl.
  { destruct s; [done|simpl in Hl; lia]. }
  destruct s as [|c s]; [done|].
  rewrite expected_words_cons by done. cbv zeta.
  destruct (Z.of_nat (length (c :: s)) <=? W) eqn:Efin.
  - apply Z.leb_le in Efin. cbn [map concat snd word_bytes].
    rewrite app_nil_r, Z.min_l, Nat2Z.id by lia. by rewrite take_ge by lia.
  - apply Z.leb_gt in Efin. cbn [map concat snd word_bytes].
    rewrite Z.min_r by lia. rewrite IH; [apply take_drop | lia |].
    rewrite length_drop. lia.
Qed.

(** The send of a non-empty string in full: the words that went over
    the bus, and the bus it leaves. *)
Lemma send_string_full (s : list byte) sync be (d : AvalonSTPkts G) :
  1 <= st_data_len (st_bus d) / 8 -> s <> [] ->
  config d !! "firstSymbolInHighOrderBits" = Some be ->
  (st_ready (st_bus d) = true -> responsive ready_at patience) ->
  exists d' new (d1 : AvalonSTPkts G),
    _send_string _next_valids ready_at patience s sync d = (Done tt, d') /\
    trace d' = trace d ++ new /\
    map (fun c => word_view (c_bus c)) (transfers new)
      = expected_words (length s) (st_data_len (st_bus d) / 8)
          (st_data_len (st_bus d)) be s true /\
    last (expected_words (length s) (st_data_len (st_bus d) / 8)
            (st_data_len (st_bus d)) be s true) = Some (word_view (st_bus d1)) /\
    st_bus d' = set_endofpacket (SInt 0) (set_valid (SInt 0) (st_bus d1)).
Proof.
  intros HW Hs Hcfg Hresp. unfold _send_string.
  unfold mbind at 1. cbv beta iota zeta.
  unfold mbind at 1. unfold config_get at 1. rewrite Hcfg. cbv beta iota.
  do 5 (unfold mbind at 1; unfold bus_do at 1; cbv beta iota).
  cbn [st_bus with_st_bus].
  match goal with
  | |- context [mbind (send_string_loop _ _ _ _ _ _ _ _ _ _) _ ?x] =>
      set (d0 := x)
  end.
  destruct (send_string_loop_spec _next_valids ready_at patience sync
              (st_data_len (st_bus d) / 8)
              (st_data_len (st_bus d)) be (length s) s true d0 HW (le_n _) Hs)
    as (d1 & n1 & E1 & T1 & V1 & A1 & R1 & Y1);
    [intros H; by apply Hresp | reflexivity | intros; discriminate
    | reflexivity | ].
  rewrite (mbind_done _ _ _ _ _ E1).
  unfold mbind, yield_edge, bus_do. cbn [fst snd].
  eexists _, (n1 ++ [_]), d1. split; [reflexivity|]. unfold with_trace, with_st_bus.
  cbn [trace st_bus]. rewrite T1. split; [by rewrite app_assoc|].
  simpl in V1. split; [|split; [|done]].
  - rewrite transfers_app, map_app. rewrite <- V1. f_equal.
    unfold transfers. cbn [List.filter c_bus c_ready]. rewrite A1.
    unfold ready_ok in R1.
    destruct (st_ready (st_bus d1)); simpl; [by rewrite R1|done].
  - rewrite <- V1. by rewrite last_snoc.
Qed.

(** X15: no byte of a string is lost, repeated or moved.  On a bus at
    least one byte wide, with a sink that has no ready signal or raises
    it in time, the data words that go over the bus, put one after the
    other, are the string; and in each of them the bytes carried and the
    empty count add up to the width of the bus in bytes. *)
Theorem X15_send_string_carries_every_byte (d : AvalonSTPkts G) (string : list byte)
    (sync : bool) :
  string <> [] -> 0 < st_data_len (st_bus d) / 8 ->
  is_Some (config d !! "firstSymbolInHighOrderBits") ->
  (st_ready (st_bus d) = true -> responsive ready_at patience) ->
  exists d' new,
    _send_string _next_valids ready_at patience string sync d = (Done tt, d') /\
    trace d' = trace d ++ new /\
    concat (map (fun c => word_bytes (st_data (c_bus c))) (transfers new)) = string /\
    Forall (fun c => Z.of_nat (length (word_bytes (st_data (c_bus c))))
                     + match st_empty (c_bus c) with SInt e => e | _ => 0 end
                     = st_data_len (st_bus d) / 8)
           (transfers new).
Proof.
  intros Hs HW [be Hcfg] Hresp.
  destruct (send_string_full string sync be d) as (d' & new & d1 & E & T & V & _);
    try done; [lia|].
  exists d', new. split; [done|]. split; [done|].
  set (W := st_data_len (st_bus d) / 8) in *.
  split.
  - etransitivity;
      [|exact (expected_words_bytes W (st_data_len (st_bus d)) be (length string)
                 string true ltac:(lia) (le_n _))].
    rewrite <- V, map_map. done.
  - apply Forall_lookup_2. intros i c Hc.
    assert (expected_words (length string) W (st_data_len (st_bus d)) be
              string true !! i = Some (word_view (c_bus c))) as Hv.
    { rewrite <- V, list_lookup_fmap, Hc. done. }
    apply expected_words_lookup in Hv; [|lia|done|done]. cbv zeta in Hv.
    unfold word_view in Hv. injection Hv as _ _ -> ->. cbn [word_bytes].
    assert (i < length (expected_words (length string) W (st_data_len (st_bus d)) be
                          string true))%nat as Hi.
    { rewrite <- V, length_map. by eapply lookup_lt_Some. }
    pose proof (expected_words_length W (st_data_len (st_bus d)) be (length string)
                  string true ltac:(lia) (le_n _) Hs) as Hk.
    set (k := length (expected_words (length string) W (st_data_len (st_bus d)) be
                        string true)) in *.
    assert (Z.of_nat k * W - W < Z.of_nat (length string) <= Z.of_nat k * W) as Hb.
    { rewrite Hk.
      pose proof (Z.div_mod (Z.of_nat (length string) + W - 1) W ltac:(lia)).
      pose proof (Z.mod_pos_bound (Z.of_nat (length string) + W - 1) W ltac:(lia)).
      nia. }
    rewrite length_take, length_drop.
    clearbody k W. clear Hk V T E Hc.
    assert (exists w, W = Z.of_nat w /\ Z.to_nat W = w) as (w & Hw1 & Hw2)
      by (exists (Z.to_nat W); lia).
    rewrite Hw2. subst W. clear Hw2.
    change (match k with 0%nat => false | S m' => (i =? m')%nat end)
      with (S i =? k)%nat.
    destruct (S i =? k)%nat eqn:El.
    + apply Nat.eqb_eq in El. subst k.
      rewrite Nat.min_r by nia. nia.
    + apply Nat.eqb_neq in El.
      assert (S i * w <= (k - 1) * w)%nat as Hk' by (apply Nat.mul_le_mono_r; lia).
      rewrite Nat.min_l by nia. nia.
Qed.

(** X16: what [_send_string] leaves on the bus when it returns: valid
    and end-of-packet are low; data and empty still have the values of
    the last word; start-of-packet is still high exactly when the packet
    fitted in one word. *)
Theorem X16_bus_after_send_string (d : AvalonSTPkts G) (string : list byte)
    (sync : bool) (bigEndian : cfgval) :
  let W := st_data_len (st_bus d) / 8 in
  let n := Z.of_nat (length string) in
  let k := (n + W - 1) / W in
  0 < n -> 0 < W ->
  config d !! "firstSymbolInHighOrderBits" = Some bigEndian ->
  (st_ready (st_bus d) = true -> responsive ready_at patience) ->
  exists d',
    _send_string _next_valids ready_at patience string sync d = (Done tt, d') /\
    st_valid (st_bus d') = SInt 0 /\
    st_endofpacket (st_bus d') = SInt 0 /\
    st_startofpacket (st_bus d') = SInt (if n <=? W then 1 else 0) /\
    st_empty (st_bus d') = SInt (k * W - n) /\
    st_data (st_bus d')
      = SWord (st_data_len (st_bus d)) bigEndian
          (drop (Z.to_nat ((k - 1) * W)) string).
Proof.
  intros W n k Hn HW Hcfg Hresp.
  assert (string <> []) as Hs by (intros ->; simpl in n; lia).
  destruct (send_string_full string sync bigEndian d)
    as (d' & new & d1 & E & T & V & L & B); try done; [lia|].
  fold W in V, L.
  pose proof (expected_words_length W (st_data_len (st_bus d)) bigEndian
                (length string) string true ltac:(lia) (le_n _) Hs) as Hk.
  fold n in Hk. fold k in Hk.
  set (ws := expected_words (length string) W (st_data_len (st_bus d)) bigEndian
               string true) in *.
  assert (1 <= k) as Hk1.
  { unfold k. apply Z.div_le_lower_bound; lia. }
  assert (ws !! (length ws - 1)%nat = Some (word_view (st_bus d1))) as Hl.
  { rewrite <- L. rewrite last_lookup. f_equal. lia. }
  apply expected_words_lookup in Hl; [|lia|done|done]. cbv zeta in Hl.
  fold ws in Hl. fold n in Hl.
  replace (S (length ws - 1) =? length ws)%nat with true in Hl
    by (symmetry; apply Nat.eqb_eq; lia).
  unfold word_view in Hl. injection Hl as H1 H2 H3 H4.
  exists d'. split; [done|]. rewrite B. cbn.
  assert (Z.of_nat (length ws - 1) = k - 1) as Hi by lia.
  assert (k * W - W < n <= k * W) as Hb.
  { unfold k.
    pose proof (Z.div_mod (n + W - 1) W ltac:(lia)).
    pose proof (Z.mod_pos_bound (n + W - 1) W ltac:(lia)).
    nia. }
  split_and!; try done.
  - rewrite H1. f_equal.
    destruct (n <=? W) eqn:En.
    + apply Z.leb_le in En. assert (k = 1) by nia.
      replace (length ws - 1)%nat with O by lia. done.
    + apply Z.leb_gt in En. assert (2 <= k) by nia.
      destruct (length ws - 1)%nat eqn:Ez; [lia|done].
  - rewrite H3. f_equal. rewrite Hi. lia.
  - rewrite H4. f_equal.
    replace ((length ws - 1) * Z.to_nat W)%nat with (Z.to_nat ((k - 1) * W)) by nia.
    apply take_ge. rewrite length_drop. nia.
Qed.

(** X17: an empty string puts no word on the bus and still takes one
    clock cycle, whatever [sync] is: the defaults are driven (valid,
    start-of-packet, end-of-packet and empty at 0), one clock edge passes,
    and the call returns with the bus as in that cycle. *)
Theorem X17_empty_string_takes_one_idle_cycle (d : AvalonSTPkts G) (sync : bool) :
  is_Some (config d !! "firstSymbolInHighOrderBits") ->
  exists d' c,
    _send_string _next_valids ready_at patience [] sync d = (Done tt, d') /\
    trace d' = trace d ++ [c] /\ now d' = S (now d) /\
    c_site c = AtEnd /\ st_valid (c_bus c) = SInt 0 /\
    word_view (c_bus c) = (SInt 0, SInt 0, SInt 0, st_data (st_bus d)) /\
    st_bus d' = c_bus c.
Proof.
  intros [be Hbe]. unfold _send_string.
  unfold mbind at 1. cbv beta iota zeta.
  unfold mbind at 1. unfold config_get at 1. rewrite Hbe. cbv beta iota.
  eexists _, _. split; [reflexivity|]. cbn. by split_and!.
Qed.

(** One round of the word loop is never an error. *)
Lemma send_string_word_outcome sync W bits be (s : list byte) (fw : bool)
    (d : AvalonSTPkts G) :
  exists d',
    send_string_word _next_valids ready_at patience sync W bits be s fw d
    = (Done (if Z.of_nat (length s) <=? W then [] else drop (Z.to_nat W) s), d') \/
    send_string_word _next_valids ready_at patience sync W bits be s fw d
    = (Pending, d').
Proof.
  remember (send_string_word _next_valids ready_at patience sync W bits be s fw d)
    as r eqn:Er.
  unfold send_string_word in Er. cbv zeta in Er.
  assert (exists d0, when (negb fw || fw && sync) (yield_edge ready_at AtWord) d
                     = (Done tt, d0)) as [d0 E0].
  { destruct (negb fw || fw && sync); by eexists. }
  rewrite (mbind_done _ _ _ _ _ E0) in Er.
  destruct (insert_gap_spec _next_valids ready_at d0) as (d1 & n1 & E1 & _).
  rewrite (mbind_done _ _ _ _ _ E1) in Er.
  unfold mbind at 1 in Er. unfold consume_valid_cycle at 1 in Er. cbv beta iota in Er.
  unfold mbind at 1 in Er. unfold bus_do at 1 in Er. cbv beta iota in Er.
  match type of Er with
  | context [mbind (if fw then ?a else ?b) _ ?x] =>
      assert (exists d2, (if fw then a else b) x = (Done tt, d2)) as [d2 E2]
        by (destruct fw; by eexists)
  end.
  rewrite (mbind_done _ _ _ _ _ E2) in Er.
  match type of Er with
  | context [mbind (if ?c then ?a else ?b) _ d2] =>
      assert (exists d3, (if c then a else b) d2
                         = (Done (if c then [] else drop (Z.to_nat W) s), d3))
        as [d3 E3] by (destruct c; by eexists)
  end.
  rewrite (mbind_done _ _ _ _ _ E3) in Er.
  unfold mbind at 1 in Er. unfold bus_do at 1 in Er. cbv beta iota in Er.
  unfold mbind at 1 in Er. unfold has_ready at 1 in Er. cbv beta iota in Er.
  unfold mbind, mret in Er.
  match type of Er with
  | context [when ?r ?m ?x] => destruct (when r m x) as [[[]| |e] d4] eqn:E4
  end.
  - eexists. by left.
  - eexists. by right.
  - exfalso.
    match type of E4 with
    | when ?r _ ?x = _ =>
        destruct r; [|discriminate];
        destruct (quiet_wait_ready patience x) as (T & _)
    end.
    simpl in E4. unfold _wait_ready in E4. rewrite E4 in T. by destruct (T e).
Qed.

(** X18: on a data bus narrower than eight bits ([bus_width] is 0) a
    non-empty string is never sent: a round of the word loop leaves the
    string as it was, so the loop does not end however many rounds it is
    given, and the call stays suspended. *)
Theorem X18_send_string_hangs_on_a_narrow_bus (d : AvalonSTPkts G)
    (string : list byte) (sync : bool) :
  string <> [] -> st_data_len (st_bus d) / 8 = 0 ->
  is_Some (config d !! "firstSymbolInHighOrderBits") ->
  fst (_send_string _next_valids ready_at patience string sync d) = Pending /\
  forall fuel bits bigEndian firstword (d0 : AvalonSTPkts G),
    fst (send_string_loop _next_valids ready_at patience fuel sync 0 bits bigEndian
           string firstword d0) = Pending.
Proof.
  intros Hs HW [be Hbe].
  assert (forall fuel bits bigEndian firstword (d0 : AvalonSTPkts G),
            fst (send_string_loop _next_valids ready_at patience fuel sync 0 bits
                   bigEndian string firstword d0) = Pending) as Hloop.
  { induction fuel as [|fuel IH]; intros bits bigEndian fw d0.
    - by destruct string.
    - rewrite send_string_loop_cons by done. unfold mbind.
      destruct (send_string_word_outcome sync 0 bits bigEndian string fw d0)
        as [d1 [E|E]]; rewrite E; [|done].
      assert ((Z.of_nat (length string) <=? 0) = false) as ->.
      { apply Z.leb_gt. destruct string; [done|simpl; lia]. }
      simpl. apply IH. }
  split; [|exact Hloop].
  unfold _send_string.
  unfold mbind at 1. cbv beta iota zeta.
  unfold mbind at 1. unfold config_get at 1. rewrite Hbe. cbv beta iota.
  do 5 (unfold mbind at 1; unfold bus_do at 1; cbv beta iota).
  cbn [st_bus with_st_bus]. rewrite HW. unfold mbind at 1.
  match goal with
  | |- context [send_string_loop ?a ?b ?c ?f ?s 0 ?bits ?be ?str ?fw ?x] =>
      pose proof (Hloop f bits be fw x) as H;
      destruct (send_string_loop a b c f s 0 bits be str fw x) as [[[]| |e] dd]
  end; simpl in H; try discriminate. done.
Qed.

(** *** Timing without gaps and backpressure *)

Lemma send_string_word_plain sync W bits be (s : list byte) (fw : bool)
    (d : AvalonSTPkts G) :
  on d = OnBool true -> st_ready (st_bus d) = false ->
  exists d',
    send_string_word _next_valids ready_at patience sync W bits be s fw d
    = (Done (if Z.of_nat (length s) <=? W then [] else drop (Z.to_nat W) s), d') /\
    trace d'
    = trace d ++ (if negb fw || sync
                  then [cycle_at ready_at AtWord (st_bus d) (now d) 0] else []) /\
    on d' = OnBool true /\ st_ready (st_bus d') = false.
Proof.
  intros Hon Hr.
  remember (send_string_word _next_valids ready_at patience sync W bits be s fw d)
    as r eqn:Er.
  unfold send_string_word, mbind, when, yield_edge, insert_gap, consume_valid_cycle,
    bus_do, has_ready, mret in Er.
  destruct fw, sync, (Z.of_nat (length s) <=? W);
    cbn [negb orb andb fst snd on with_trace with_st_bus with_valids st_bus
         on_truthy consume_on st_ready set_valid set_empty set_startofpacket
         set_endofpacket set_data off valid_generator] in Er;
    rewrite ?Hon in Er;
    cbn [negb orb andb fst snd on with_trace with_st_bus with_valids st_bus
         on_truthy consume_on st_ready set_valid set_empty set_startofpacket
         set_endofpacket set_data off valid_generator] in Er;
    rewrite ?Hr in Er; subst r;
    (eexists; split; [reflexivity|]);
    cbn -[Z.min Z.sub Z.to_nat]; rewrite ?Hon, ?Hr; unfold cycle_at;
    rewrite ?Nat.add_0_r, ?app_nil_r;
    by split_and!.
Qed.

Lemma send_string_loop_plain sync W bits be : forall fuel (s : list byte) fw
    (d : AvalonSTPkts G),
  1 <= W -> (length s <= fuel)%nat -> s <> [] ->
  on d = OnBool true -> st_ready (st_bus d) = false ->
  exists d' new,
    send_string_loop _next_valids ready_at patience fuel sync W bits be s fw d
      = (Done tt, d') /\
    trace d' = trace d ++ new /\
    Z.of_nat (length new)
    = (Z.of_nat (length s) + W - 1) / W - (if negb fw || sync then 0 else 1).
Proof.
  induction fuel as [|fuel IH]; intros s fw d HW Hl Hs Hon Hr.
  { destruct s; [done|simpl in Hl; lia]. }
  rewrite send_string_loop_cons by done.
  destruct (send_string_word_plain sync W bits be s fw d Hon Hr)
    as (d1 & E1 & T1 & Hon1 & Hr1).
  rewrite (mbind_done _ _ _ _ _ E1).
  assert (0 < Z.of_nat (length s)) as Hpos by (destruct s; [done|simpl; lia]).
  destruct (Z.of_nat (length s) <=? W) eqn:Efin.
  - apply Z.leb_le in Efin. rewrite send_string_loop_nil.
    eexists _, _. unfold mret. split; [reflexivity|]. split; [exact T1|].
    assert ((Z.of_nat (length s) + W - 1) / W = 1) as ->
      by (symmetry; apply Z.div_unique with (Z.of_nat (length s) - 1); lia).
    by destruct (negb fw || sync).
  - apply Z.leb_gt in Efin.
    assert (length (drop (Z.to_nat W) s) = (length s - Z.to_nat W)%nat) as Hld
      by apply length_drop.
    destruct (IH (drop (Z.to_nat W) s) false d1) as (d2 & n2 & E2 & T2 & L2);
      try done.
    { rewrite Hld. lia. }
    { intros H. apply (f_equal length) in H. rewrite Hld in H. simpl in H. lia. }
    eexists d2, (_ ++ n2). split; [done|].
    split; [by rewrite T2, T1, <- app_assoc|].
    rewrite length_app, Nat2Z.inj_add, L2, Hld. cbn [negb orb].
    replace (Z.of_nat (length s) + W - 1)
      with (Z.of_nat (length s - Z.to_nat W) + W - 1 + 1 * W) by lia.
    rewrite Z.div_add by lia.
    destruct (negb fw || sync); simpl; lia.
Qed.

(** X19: without gaps ([self.on] is [True]) and without a ready
    signal a string takes one clock cycle for each of its
    [ceil(n / bus_width)] words, and one more when [sync] is set: with
    [sync] unset every cycle of the send carries a word. *)
Theorem X19_send_string_takes_one_cycle_per_word (d : AvalonSTPkts G)
    (string : list byte) (sync : bool) :
  let W := st_data_len (st_bus d) / 8 in
  let n := Z.of_nat (length string) in
  0 < n -> 0 < W ->
  is_Some (config d !! "firstSymbolInHighOrderBits") ->
  on d = OnBool true -> st_ready (st_bus d) = false ->
  exists d' new,
    _send_string _next_valids ready_at patience string sync d = (Done tt, d') /\
    trace d' = trace d ++ new /\
    Z.of_nat (length new) = (n + W - 1) / W + (if sync then 1 else 0) /\
    Z.of_nat (length (transfers new)) = (n + W - 1) / W.
Proof.
  intros W n Hn HW [be Hbe] Hon Hr.
  assert (string <> []) as Hs by (intros ->; simpl in n; lia).
  destruct (send_string_full string sync be d) as (d' & new & d1 & E & T & V & _);
    try done; [lia | intros H; congruence |].
  exists d', new. split; [done|]. split; [done|]. split.
  - remember (_send_string _next_valids ready_at patience string sync d) as r eqn:Er.
    unfold _send_string in Er.
    unfold mbind at 1 in Er. cbv beta iota zeta in Er.
    unfold mbind at 1 in Er. unfold config_get at 1 in Er. rewrite Hbe in Er.
    cbv beta iota in Er.
    do 5 (unfold mbind at 1 in Er; unfold bus_do at 1 in Er; cbv beta iota in Er).
    cbn [st_bus with_st_bus] in Er.
    match type of Er with
    | context [mbind (send_string_loop _ _ _ _ _ _ _ _ _ _) _ ?x] =>
        destruct (send_string_loop_plain sync W (st_data_len (st_bus d)) be
                    (length string) string true x)
          as (d2 & n2 & E2 & T2 & L2); try done; [lia|]
    end.
    fold W in Er. rewrite (mbind_done _ _ _ _ _ E2) in Er.
    unfold mbind, yield_edge, bus_do in Er. cbn [fst snd] in Er.
    rewrite Er in E. injection E as <-.
    cbn [trace with_trace with_st_bus] in T. rewrite T2 in T.
    cbn [trace] in T. rewrite <- app_assoc in T. apply app_inv_head in T.
    rewrite <- T, length_app, Nat2Z.inj_add, L2. fold n. cbn [negb orb length].
    destruct sync; lia.
  - rewrite <- (length_map (fun c => word_view (c_bus c))), V.
    apply expected_words_length; [lia|done|done].
Qed.

(** *** [_send_iterable] *)

Lemma drive_word_ready wd b : st_ready (drive_word wd b) = st_ready b.
Proof. by destruct wd as [[|] [|] [|] [|] [|] [|] [|]]. Qed.

(** The valid a word is driven over does not matter: [valid <= 1] follows. *)
Lemma drive_word_over_valid wd v b :
  set_valid (SInt 1) (drive_word wd (set_valid v b))
  = set_valid (SInt 1) (drive_word wd b).
Proof. by destruct wd as [[|] [|] [|] [|] [|] [|] [|]], b. Qed.

Lemma top_yield_bus (c fw : bool) (d : AvalonSTPkts G) :
  (fw = false -> c = true) ->
  (if fw then st_truthy (st_valid (st_bus d)) = false
   else st_truthy (st_valid (st_bus d)) = true /\ ready_ok ready_at d) ->
  exists d' new,
    when c (yield_edge ready_at AtWord) d = (Done tt, d') /\
    trace d' = trace d ++ new /\
    map c_bus (transfers new) = (if fw then [] else [st_bus d]) /\
    st_bus d' = st_bus d.
Proof.
  intros Hc Hpre. destruct c; simpl.
  - eexists _, [_]. unfold yield_edge. split; [reflexivity|]. simpl.
    split; [done|]. split; [|done]. unfold transfers. simpl.
    destruct fw.
    + by rewrite Hpre.
    + destruct Hpre as [-> Hr]. unfold ready_ok in Hr.
      destruct (st_ready (st_bus d)); simpl; [by rewrite Hr|done].
  - destruct fw; [|by discriminate Hc].
    exists d, []. by rewrite app_nil_r.
Qed.

Lemma insert_gap_bus (d : AvalonSTPkts G) :
  exists d' new,
    insert_gap _next_valids ready_at d = (Done tt, d') /\
    trace d' = trace d ++ new /\ transfers new = [] /\
    (st_bus d' = st_bus d \/ st_bus d' = set_valid (SInt 0) (st_bus d)).
Proof.
  unfold insert_gap. destruct (negb (on_truthy (on d))).
  - unfold mbind, bus_do.
    destruct (gap_cycles_spec ready_at (Z.to_nat (off d))
                (with_st_bus (set_valid (SInt 0) (st_bus d)) d))
      as (new & E & _ & Hf).
    rewrite E. unfold next_valids. eexists _, new. split; [reflexivity|].
    simpl. split_and!; try done; [|by right].
    apply transfers_none. eapply Forall_impl; [exact Hf|].
    intros c [_ Hb]. left. by rewrite Hb.
  - exists d, []. rewrite app_nil_r. split_and!; try done. by left.
Qed.

Lemma send_iterable_loop_spec sync : forall (pkt : list busword) (fw : bool)
    (d : AvalonSTPkts G),
  pkt <> [] ->
  (st_ready (st_bus d) = true -> responsive ready_at patience) ->
  (if fw then st_truthy (st_valid (st_bus d)) = false
   else st_truthy (st_valid (st_bus d)) = true /\ ready_ok ready_at d) ->
  exists d' new,
    send_iterable_loop _next_valids ready_at patience sync pkt fw d = (Done tt, d') /\
    trace d' = trace d ++ new /\
    map c_bus (transfers new) ++ [st_bus d']
      = (if fw then [] else [st_bus d]) ++ words_on_bus (st_bus d) pkt /\
    st_truthy (st_valid (st_bus d')) = true /\ ready_ok ready_at d'.
Proof.
  induction pkt as [|word pkt IH]; intros fw d Hne Hresp Hpre; [done|].
  cbn [send_iterable_loop].
  destruct (top_yield_bus (negb fw || fw && sync) fw d) as
    (d0 & n0 & E0 & T0 & V0 & B0); [by intros ->|done|].
  rewrite (mbind_done _ _ _ _ _ E0).
  destruct (insert_gap_bus d0) as (d1 & n1 & E1 & T1 & X1 & B1).
  rewrite (mbind_done _ _ _ _ _ E1).
  unfold mbind at 1. unfold consume_valid_cycle at 1. cbv beta iota.
  unfold mbind at 1. unfold bus_do at 1. cbv beta iota.
  unfold mbind at 1. unfold bus_do at 1. cbv beta iota.
  unfold mbind at 1. unfold has_ready at 1. cbv beta iota.
  cbn [st_bus with_st_bus with_valids].
  set (b2 := set_valid (SInt 1) (drive_word word (st_bus d1))).
  assert (b2 = set_valid (SInt 1) (drive_word word (st_bus d))) as Hb2.
  { unfold b2. destruct B1 as [-> | ->]; rewrite ?drive_word_over_valid; by rewrite B0. }
  match goal with
  | |- context [mbind (when _ _) _ ?x] => set (d2 := x)
  end.
  assert (st_bus d2 = b2) as Hd2 by reflexivity.
  assert (st_ready b2 = st_ready (st_bus d)) as Hr2.
  { rewrite Hb2. cbn. apply drive_word_ready. }
  change (st_ready b2) with (st_ready (st_bus d2)).
  destruct (when_wait_ready_spec ready_at patience d2) as (d3 & n3 & E3 & T3 & X3 & B3 & R3).
  { rewrite Hd2, Hr2. exact Hresp. }
  rewrite (mbind_done _ _ _ _ _ E3).
  assert (trace d3 = trace d ++ n0 ++ n1 ++ n3) as T.
  { rewrite T3. unfold d2. simpl. by rewrite T1, T0, <- !app_assoc. }
  assert (map c_bus (transfers (n0 ++ n1 ++ n3)) = (if fw then [] else [st_bus d])) as V.
  { rewrite !transfers_app, X1, X3, app_nil_r. exact V0. }
  assert (st_bus d3 = b2) as Hd3 by (by rewrite B3).
  cbn [words_on_bus]. rewrite <- Hb2.
  destruct pkt as [|word' pkt].
  - cbn [send_iterable_loop words_on_bus]. unfold mret.
    exists d3, (n0 ++ n1 ++ n3). split_and!; try done.
    + by rewrite V, Hd3.
    + by rewrite Hd3.
  - destruct (IH false d3) as (d4 & n4 & E4 & T4 & V4 & A4 & R4); try done.
    { rewrite Hd3, Hr2. exact Hresp. }
    { by rewrite Hd3. }
    exists d4, ((n0 ++ n1 ++ n3) ++ n4). split; [done|].
    split; [by rewrite T4, T, <- !app_assoc|].
    split; [|done].
    rewrite transfers_app, map_app, <- app_assoc, V4, V, Hd3. done.
Qed.

(** X20: an iterable packet sent on a bus whose valid is not high at
    the call, with a sink that has no ready signal or raises it in time.
    The send returns and leaves valid low; as many words go over the bus
    as the packet has elements, in order; in each, the signals the
    element has an attribute for carry its values, the others keep what
    the word before left, and valid is high whatever the element says of
    it. *)
Theorem X20_send_iterable_words (d : AvalonSTPkts G) (pkt : list busword)
    (sync : bool) :
  st_truthy (st_valid (st_bus d)) = false ->
  (st_ready (st_bus d) = true -> responsive ready_at patience) ->
  exists d' new,
    _send_iterable _next_valids ready_at patience pkt sync d = (Done tt, d') /\
    trace d' = trace d ++ new /\
    map c_bus (transfers new) = words_on_bus (st_bus d) pkt /\
    length (transfers new) = length pkt /\
    st_valid (st_bus d') = SInt 0.
Proof.
  intros Hidle Hresp. unfold _send_iterable.
  assert (forall b p, length (words_on_bus b p) = length p) as Hlen.
  { clear. intros b p. revert b. induction p as [|w p IH]; intros b; [done|].
    simpl. by rewrite IH. }
  destruct pkt as [|word pkt].
  - cbn [send_iterable_loop]. unfold mbind, mret, yield_edge, bus_do. cbn [fst snd].
    eexists _, [_]. split; [reflexivity|]. cbn. split; [done|].
    unfold transfers. cbn. rewrite Hidle. done.
  - destruct (send_iterable_loop_spec sync (word :: pkt) true d)
      as (d1 & n1 & E1 & T1 & V1 & A1 & R1); try done.
    rewrite (mbind_done _ _ _ _ _ E1).
    unfold mbind, yield_edge, bus_do. cbn [fst snd].
    eexists _, (n1 ++ [_]). split; [reflexivity|].
    unfold with_trace, with_st_bus. cbn [trace st_bus].
    rewrite T1. split; [by rewrite app_assoc|].
    assert (map c_bus (transfers (n1 ++ [cycle_at ready_at AtEnd (st_bus d1) (now d1) 0]))
            = words_on_bus (st_bus d) (word :: pkt)) as V.
    { rewrite transfers_app, map_app. cbn [app] in V1. rewrite <- V1. f_equal.
      unfold transfers, cycle_at. cbn [List.filter c_bus c_ready]. rewrite A1.
      rewrite Nat.add_0_r. unfold ready_ok in R1.
      destruct (st_ready (st_bus d1)); simpl; [by rewrite R1|done]. }
    unfold cycle_at in V. rewrite Nat.add_0_r in V.
    split; [exact V|]. split; [|done].
    by rewrite <- (length_map c_bus), V, Hlen.
Qed.

(** *** Backpressure *)

Lemma next_bus_app n1 n2 b : next_bus (n1 ++ n2) b = next_bus n1 (next_bus n2 b).
Proof. by destruct n1. Qed.

Lemma held_app n1 n2 b :
  held n1 (next_bus n2 b) -> held n2 b -> held (n1 ++ n2) b.
Proof.
  induction n1 as [|c n1 IH]; [done|]. cbn [held app]. intros [H1 H2] H3.
  split; [|by apply IH]. intros Hc. destruct (H1 Hc) as (A & B & C).
  by rewrite next_bus_app.
Qed.

Lemma held_calm new b : Forall (fun c => c_site c <> AtReady) new -> held new b.
Proof. induction 1 as [|c new Hc _ IH]; [done|]. by split. Qed.

Lemma held_waiting new b :
  st_truthy (st_valid b) = true ->
  Forall (fun c => c_bus c = b /\ st_truthy (c_ready c) = false) new ->
  held new b.
Proof.
  intros Hv. induction 1 as [|c new [Hc1 Hc2] Hf IH]; [done|].
  split; [|done]. intros _. rewrite Hc1. split_and!; try done.
  destruct Hf as [|c' ? [Hc' _] _]; [done|exact Hc'].
Qed.

Lemma held_lookup new b i c :
  held new b -> new !! i = Some c -> c_site c = AtReady ->
  st_truthy (st_valid (c_bus c)) = true /\ st_truthy (c_ready c) = false /\
  next_bus (drop (S i) new) b = c_bus c.
Proof.
  revert i. induction new as [|c0 new IH]; intros i; [done|].
  intros [H1 H2]. destruct i as [|i]; simpl.
  - intros [= ->] Hc. rewrite drop_0. by apply H1.
  - intros Hi Hc. by apply IH.
Qed.

(** Waiting for ready, whether it ends or not. *)
Lemma wait_ready_loop_records fuel : forall (d : AvalonSTPkts G),
  exists new,
    (fst (wait_ready_loop ready_at fuel d) = Done tt \/
     fst (wait_ready_loop ready_at fuel d) = Pending) /\
    trace (snd (wait_ready_loop ready_at fuel d)) = trace d ++ new /\
    st_bus (snd (wait_ready_loop ready_at fuel d)) = st_bus d /\
    Forall (fun c => c_bus c = st_bus d /\ st_truthy (c_ready c) = false) new.
Proof.
  induction fuel as [|fuel IH]; intros d; simpl.
  - exists []. rewrite app_nil_r. split_and!; auto.
  - destruct (st_truthy (ready_at (now d))) eqn:E.
    + exists []. simpl. rewrite app_nil_r. split_and!; auto.
    + unfold mbind, yield_edge. cbv beta iota.
      match goal with
      | |- context [wait_ready_loop ready_at fuel ?x] =>
          destruct (IH x) as (new & O & T & B & F)
      end.
      eexists (_ :: new). split; [exact O|]. rewrite T, B.
      cbn [trace st_bus with_trace]. rewrite <- app_assoc.
      split; [reflexivity|]. split; [done|].
      constructor; [by split|exact F].
Qed.

Lemma word_round_held (c : bool) (drive : STBus -> STBus) (d : AvalonSTPkts G) :
  (forall b, st_valid (drive b) = SInt 1) ->
  exists new,
    (fst (word_round c drive d) = Done tt \/ fst (word_round c drive d) = Pending) /\
    trace (snd (word_round c drive d)) = trace d ++ new /\
    held new (st_bus (snd (word_round c drive d))) /\
    (c = true -> next_bus new (st_bus (snd (word_round c drive d))) = st_bus d).
Proof.
  intros Hdrive.
  remember (word_round c drive d) as r eqn:Er. unfold word_round in Er.
  assert (exists d0 n0,
            when c (yield_edge ready_at AtWord) d = (Done tt, d0) /\
            trace d0 = trace d ++ n0 /\
            Forall (fun x => c_site x <> AtReady) n0 /\
            (c = true -> forall rest b, next_bus (n0 ++ rest) b = st_bus d))
    as (d0 & n0 & E0 & T0 & F0 & N0).
  { destruct c; simpl.
    - eexists _, [_]. split; [reflexivity|]. simpl. split_and!; try done.
      by repeat constructor.
    - exists d, []. rewrite app_nil_r. by split_and!. }
  rewrite (mbind_done _ _ _ _ _ E0) in Er.
  assert (exists d1 n1,
            insert_gap _next_valids ready_at d0 = (Done tt, d1) /\
            trace d1 = trace d0 ++ n1 /\
            Forall (fun x => c_site x <> AtReady) n1)
    as (d1 & n1 & E1 & T1 & F1).
  { unfold insert_gap. destruct (negb (on_truthy (on d0))).
    - unfold mbind, bus_do.
      destruct (gap_cycles_spec ready_at (Z.to_nat (off d0))
                  (with_st_bus (set_valid (SInt 0) (st_bus d0)) d0))
        as (new & E & _ & Hf).
      rewrite E. unfold next_valids. eexists _, new. split; [reflexivity|].
      simpl. split; [done|]. eapply Forall_impl; [exact Hf|].
      intros x [Hx _]. by rewrite Hx.
    - exists d0, []. by rewrite app_nil_r. }
  rewrite (mbind_done _ _ _ _ _ E1) in Er.
  unfold mbind at 1 in Er. unfold consume_valid_cycle at 1 in Er. cbv beta iota in Er.
  unfold mbind at 1 in Er. unfold bus_do at 1 in Er. cbv beta iota in Er.
  unfold mbind at 1 in Er. unfold has_ready at 1 in Er. cbv beta iota in Er.
  match type of Er with
  | r = when ?b _ ?x => set (rdy := b) in Er; set (d2 := x) in Er
  end.
  assert (trace d2 = trace d ++ n0 ++ n1) as T2.
  { unfold d2. simpl. by rewrite T1, T0, <- app_assoc. }
  assert (st_truthy (st_valid (st_bus d2)) = true) as V2.
  { unfold d2. simpl. by rewrite Hdrive. }
  assert (Forall (fun x => c_site x <> AtReady) (n0 ++ n1)) as F01
    by (by apply Forall_app).
  clearbody rdy. destruct rdy; cbn [when] in Er.
  - unfold _wait_ready in Er.
    destruct (wait_ready_loop_records patience d2) as (n3 & O & T3 & B3 & F3).
    rewrite <- Er in O, T3, B3.
    exists ((n0 ++ n1) ++ n3). split; [done|].
    split; [by rewrite T3, T2, <- !app_assoc|].
    split.
    + apply held_app; [by apply held_calm|].
      rewrite B3. by apply held_waiting.
    + intros Hc. rewrite <- app_assoc. by apply N0.
  - subst r. unfold mret. simpl. exists (n0 ++ n1).
    split; [by left|]. split; [done|].
    split; [by apply held_calm|].
    intros Hc. by apply N0.
Qed.

Lemma send_string_word_round sync W bits be (s : list byte) (fw : bool)
    (d : AvalonSTPkts G) :
  send_string_word _next_valids ready_at patience sync W bits be s fw d
  = mbind (word_round (negb fw || fw && sync) (string_word_on W bits be s fw))
      (fun _ => mret (if Z.of_nat (length s) <=? W then []
                      else drop (Z.to_nat W) s)) d.
Proof.
  unfold send_string_word, word_round, string_word_on. cbv zeta. unfold mbind.
  destruct (when (negb fw || fw && sync) (yield_edge ready_at AtWord) d)
    as [[[]| |e] d0]; [|done|done].
  destruct (insert_gap _next_valids ready_at d0) as [[[]| |e] d1]; [|done|done].
  destruct fw, (Z.of_nat (length s) <=? W); reflexivity.
Qed.

Lemma send_iterable_loop_round sync word (pkt : list busword) (fw : bool)
    (d : AvalonSTPkts G) :
  send_iterable_loop _next_valids ready_at patience sync (word :: pkt) fw d
  = mbind (word_round (negb fw || fw && sync)
             (fun b => set_valid (SInt 1) (drive_word word b)))
      (fun _ => send_iterable_loop _next_valids ready_at patience sync pkt false) d.
Proof.
  cbn [send_iterable_loop]. unfold word_round. unfold mbind.
  destruct (when (negb fw || fw && sync) (yield_edge ready_at AtWord) d)
    as [[[]| |e] d0]; [|done|done].
  destruct (insert_gap _next_valids ready_at d0) as [[[]| |e] d1]; [|done|done].
  reflexivity.
Qed.

Lemma held_round {A} (c : bool) (drive : STBus -> STBus) (k : M A)
    (d : AvalonSTPkts G) :
  (forall b, st_valid (drive b) = SInt 1) -> holding k ->
  exists new,
    (forall e, fst (mbind (word_round c drive) (fun _ => k) d) <> Threw e) /\
    trace (snd (mbind (word_round c drive) (fun _ => k) d)) = trace d ++ new /\
    held new (st_bus (snd (mbind (word_round c drive) (fun _ => k) d))) /\
    (c = true ->
     next_bus new (st_bus (snd (mbind (word_round c drive) (fun _ => k) d)))
     = st_bus d).
Proof.
  intros Hdrive Hk.
  destruct (word_round_held c drive d Hdrive) as (n1 & O1 & T1 & H1 & N1).
  unfold mbind.
  destruct (word_round c drive d) as [[[]| |e] d1]; simpl in *.
  - destruct (Hk d1) as (n2 & O2 & T2 & H2 & N2).
    exists (n1 ++ n2). split; [done|].
    split; [by rewrite T2, T1, app_assoc|].
    split; [apply held_app; [by rewrite N2|done]|].
    intros Hc. rewrite next_bus_app, N2. by apply N1.
  - exists n1. by split_and!.
  - by destruct O1.
Qed.

Lemma holding_send_string_loop sync W bits be : forall fuel (s : list byte),
  holding (send_string_loop _next_valids ready_at patience fuel sync W bits be s false).
Proof.
  induction fuel as [|fuel IH]; intros s d.
  - exists []. rewrite app_nil_r. by destruct s.
  - destruct s as [|c s]; [exists []; by rewrite app_nil_r|].
    rewrite send_string_loop_cons by done. unfold mbind at 1 2 3 4.
    rewrite send_string_word_round.
    set (rest := if Z.of_nat (length (c :: s)) <=? W then []
                 else drop (Z.to_nat W) (c :: s)).
    destruct (held_round true (string_word_on W bits be (c :: s) false)
                (send_string_loop _next_valids ready_at patience fuel sync W bits be
                   rest false) d) as (new & O & T & H & N).
    { intros b. unfold string_word_on. by destruct (_ <=? _). }
    { apply IH. }
    exists new.
    assert (forall x : status (list byte) * AvalonSTPkts G,
              match x with
              | (Done a, d') =>
                  send_string_loop _next_valids ready_at patience fuel sync W bits be
                    a false d'
              | (Pending, d') => (Pending, d')
              | (Threw e, d') => (Threw e, d')
              end = mbind (fun _ => x) (fun a => send_string_loop _next_valids ready_at
                    patience fuel sync W bits be a false) d) as Hx by done.
    rewrite Hx. clear Hx.
    assert (mbind (fun _ : AvalonSTPkts G =>
                     mbind (word_round (negb false || false && sync)
                              (string_word_on W bits be (c :: s) false))
                       (fun _ => mret rest) d)
                  (fun a => send_string_loop _next_valids ready_at patience fuel sync
                              W bits be a false) d
            = mbind (word_round true (string_word_on W bits be (c :: s) false))
                (fun _ => send_string_loop _next_valids ready_at patience fuel sync W
                            bits be rest false) d) as ->.
    { unfold mbind, mret. cbn [negb orb andb].
      by destruct (word_round true _ d) as [[[]| |e] d1]. }
    split_and!; try done. by apply N.
Qed.

Lemma holding_send_iterable_loop sync : forall (pkt : list busword),
  holding (send_iterable_loop _next_valids ready_at patience sync pkt false).
Proof.
  induction pkt as [|word pkt IH]; intros d.
  - exists []. by rewrite app_nil_r.
  - rewrite send_iterable_loop_round.
    destruct (held_round true (fun b => set_valid (SInt 1) (drive_word word b))
                (send_iterable_loop _next_valids ready_at patience sync pkt false) d)
      as (new & O & T & H & N); [done|exact IH|].
    exists new. split_and!; try done. by apply N.
Qed.

(** Either loop from its first round, then the clock edge that ends the
    packet and what is driven after it. *)
Lemma held_packet {A} (c : bool) (drive : STBus -> STBus) (k : M A)
    (after : STBus -> STBus) (d : AvalonSTPkts G) :
  (forall b, st_valid (drive b) = SInt 1) -> holding k ->
  let r := mbind (mbind (word_round c drive) (fun _ => k))
             (fun _ => mbind (yield_edge ready_at AtEnd) (fun _ => bus_do after)) d in
  exists new,
    (forall e, fst r <> Threw e) /\
    trace (snd r) = trace d ++ new /\
    held new (st_bus (snd r)) /\
    (fst r = Done tt -> exists x, last new = Some x /\ c_site x = AtEnd).
Proof.
  intros Hdrive Hk. cbv zeta.
  destruct (held_round c drive k d Hdrive Hk) as (n1 & O1 & T1 & H1 & _).
  remember (mbind (mbind (word_round c drive) (fun _ => k))
              (fun _ => mbind (yield_edge ready_at AtEnd) (fun _ => bus_do after)) d)
    as r eqn:Er.
  unfold mbind at 1 in Er.
  destruct (mbind (word_round c drive) (fun _ => k) d) as [[a| |e] d1];
    simpl in O1, T1, H1; subst r.
  - unfold mbind, yield_edge, bus_do. cbn [fst snd trace st_bus with_trace with_st_bus].
    eexists (n1 ++ [_]). split; [done|].
    rewrite T1, <- app_assoc. split; [reflexivity|]. split.
    + apply held_app; [exact H1|]. by split.
    + intros _. eexists. rewrite last_snoc. by split.
  - exists n1. by split_and!.
  - by destruct (O1 e).
Qed.

Lemma next_bus_drop new b j :
  next_bus (drop j new) b
  = match new !! j with Some c => c_bus c | None => b end.
Proof.
  revert j. induction new as [|c0 new IH]; intros j; [by destruct j|].
  destruct j as [|j]; [done|]. apply IH.
Qed.

Lemma held_send_string (s : list byte) sync (d : AvalonSTPkts G) :
  let r := _send_string _next_valids ready_at patience s sync d in
  exists new,
    trace (snd r) = trace d ++ new /\
    held new (st_bus (snd r)) /\
    (fst r = Done tt -> exists x, last new = Some x /\ c_site x = AtEnd).
Proof.
  cbv zeta.
  remember (_send_string _next_valids ready_at patience s sync d) as r eqn:Er.
  unfold _send_string in Er.
  unfold mbind at 1 in Er. cbv beta iota zeta in Er.
  unfold mbind at 1 in Er. unfold config_get at 1 in Er.
  destruct (config d !! "firstSymbolInHighOrderBits") as [be|].
  2: { subst r. exists []. rewrite app_nil_r. by split_and!. }
  cbv beta iota in Er.
  do 5 (unfold mbind at 1 in Er; unfold bus_do at 1 in Er; cbv beta iota in Er).
  cbn [st_bus with_st_bus] in Er.
  match type of Er with
  | r = mbind _ _ ?x => set (d0 := x) in Er
  end.
  assert (trace d0 = trace d) as T0 by reflexivity.
  rewrite <- T0.
  destruct s as [|c s].
  - cbn [send_string_loop length] in Er. subst r. eexists [_].
    split; [reflexivity|]. split; [by split|].
    intros _. eexists. by split.
  - cbn [length] in Er. rewrite send_string_loop_cons in Er by done.
    set (W := st_data_len (st_bus d) / 8) in *.
    set (rest := if Z.of_nat (length (c :: s)) <=? W then []
                 else drop (Z.to_nat W) (c :: s)).
    destruct (held_packet (negb true || true && sync)
                (string_word_on W (st_data_len (st_bus d)) be (c :: s) true)
                (send_string_loop _next_valids ready_at patience (length s) sync W
                   (st_data_len (st_bus d)) be rest false)
                (fun b => set_endofpacket (SInt 0) (set_valid (SInt 0) b)) d0)
      as (new & O & T & H & L).
    { intros b. unfold string_word_on. by destruct (_ <=? _). }
    { apply holding_send_string_loop. }
    cbv zeta in O, T, H, L.
    assert (r = mbind (mbind (word_round (negb true || true && sync)
                                (string_word_on W (st_data_len (st_bus d)) be
                                   (c :: s) true))
                         (fun _ => send_string_loop _next_valids ready_at patience
                                     (length s) sync W (st_data_len (st_bus d)) be
                                     rest false))
                  (fun _ => mbind (yield_edge ready_at AtEnd)
                              (fun _ => bus_do (fun b => set_endofpacket (SInt 0)
                                                           (set_valid (SInt 0) b))))
                  d0) as Er'.
    { rewrite Er. unfold mbind at 1 2 6 7. rewrite send_string_word_round.
      unfold mbind, mret.
      by destruct (word_round _ _ d0) as [[[]| |e] d1]. }
    rewrite Er'. exists new. by split_and!.
Qed.

Lemma held_send_iterable (pkt : list busword) sync (d : AvalonSTPkts G) :
  let r := _send_iterable _next_valids ready_at patience pkt sync d in
  exists new,
    trace (snd r) = trace d ++ new /\
    held new (st_bus (snd r)) /\
    (fst r = Done tt -> exists x, last new = Some x /\ c_site x = AtEnd).
Proof.
  cbv zeta. unfold _send_iterable.
  destruct pkt as [|word pkt].
  - eexists [_]. split; [reflexivity|]. split; [by split|].
    intros _. eexists. by split.
  - destruct (held_packet (negb true || true && sync)
                (fun b => set_valid (SInt 1) (drive_word word b))
                (send_iterable_loop _next_valids ready_at patience sync pkt false)
                (set_valid (SInt 0)) d)
      as (new & O & T & H & L); [done|apply holding_send_iterable_loop|].
    cbv zeta in O, T, H, L.
    assert (forall k : unit -> M unit,
              mbind (send_iterable_loop _next_valids ready_at patience sync
                       (word :: pkt) true) k d
              = mbind (mbind (word_round (negb true || true && sync)
                                (fun b => set_valid (SInt 1) (drive_word word b)))
                         (fun _ => send_iterable_loop _next_valids ready_at patience
                                     sync pkt false)) k d) as Hr.
    { intros k. unfold mbind at 1 2. by rewrite send_iterable_loop_round. }
    rewrite !Hr. exists new. by split_and!.
Qed.

(** X21: backpressure.  Whatever the packet, the generator and the
    sink, in every clock cycle a send spends waiting for ready valid is
    high and ready low, and the cycle after it shows the same bus: a word
    is held unchanged until the cycle in which it is taken.  If the send
    is still waiting when the simulation stops, the driver's bus is that
    of the last cycle; a send that returned ended on the clock edge after
    the last word. *)
Theorem X21_word_is_held_while_ready_is_low (d : AvalonSTPkts G) (pkt : packet)
    (sync : bool) :
  let r := _driver_send _next_valids ready_at patience pkt sync d in
  exists new,
    trace (snd r) = trace d ++ new /\
    (forall i c,
       new !! i = Some c -> c_site c = AtReady ->
       st_truthy (st_valid (c_bus c)) = true /\ st_truthy (c_ready c) = false /\
       match new !! S i with
       | Some c' => c_bus c' = c_bus c
       | None => st_bus (snd r) = c_bus c
       end) /\
    (fst r = Done tt -> exists x, last new = Some x /\ c_site x = AtEnd).
Proof.
  cbv zeta.
  remember (_driver_send _next_valids ready_at patience pkt sync d) as r eqn:Er.
  unfold _driver_send in Er.
  unfold mbind at 1 in Er. cbv beta iota in Er.
  unfold mbind at 1 in Er. cbv beta iota in Er.
  set (d0 := st_logging DEBUG "hexdump(pkt)" []
               (st_logging DEBUG "Sending packet of length %d bytes" [pkt_len pkt] d))
    in Er.
  assert (exists m : M unit,
            m = match pkt with
                | PktStr s => _send_string _next_valids ready_at patience s sync
                | PktIter ws => _send_iterable _next_valids ready_at patience ws sync
                end /\
            exists new,
              trace (snd (m d0)) = trace d0 ++ new /\
              held new (st_bus (snd (m d0))) /\
              (fst (m d0) = Done tt -> exists x, last new = Some x /\ c_site x = AtEnd))
    as (m & Em & new & T & H & L).
  { eexists. split; [reflexivity|]. destruct pkt as [s|ws].
    - apply held_send_string.
    - apply held_send_iterable. }
  rewrite <- Em in Er. clear Em. unfold mbind in Er.
  exists new.
  assert (trace (snd r) = trace d ++ new /\ st_bus (snd r) = st_bus (snd (m d0)) /\
          (fst r = Done tt -> fst (m d0) = Done tt)) as (T' & B' & D').
  { subst r. destruct (m d0) as [[[]| |e] d1]; simpl in *; by split_and!. }
  split; [done|]. split; [|by intros Hd; apply L, D'].
  intros i c Hi Hc.
  destruct (held_lookup new _ i c H Hi Hc) as (A & B & C).
  split; [done|]. split; [done|].
  rewrite next_bus_drop in C. rewrite B'.
  by destruct (new !! S i).
Qed.

End StreamingMore.

Lemma X15_send_string_carries_every_byte_witness :
  exists d' new,
    _send_string list_next_valids always_ready 1 nine_bytes true example_driver
      = (Done tt, d') /\
    trace d' = trace example_driver ++ new /\
    concat (map (fun c => word_bytes (st_data (c_bus c))) (transfers new))
      = nine_bytes /\
    Forall (fun c => Z.of_nat (length (word_bytes (st_data (c_bus c))))
                     + match st_empty (c_bus c) with SInt e => e | _ => 0 end
                     = st_data_len (st_bus example_driver) / 8)
           (transfers new).
Proof.
  apply (X15_send_string_carries_every_byte list_next_valids always_ready 1
           example_driver nine_bytes true).
  - discriminate.
  - reflexivity.
  - eexists. vm_compute. reflexivity.
  - intros H. discriminate H.
Defined.

Lemma X16_bus_after_send_string_witness :
  exists d',
    _send_string list_next_valids always_ready 1 nine_bytes true example_driver
      = (Done tt, d') /\
    st_valid (st_bus d') = SInt 0 /\
    st_endofpacket (st_bus d') = SInt 0 /\
    st_startofpacket (st_bus d') = SInt (if 9 <=? 4 then 1 else 0) /\
    st_empty (st_bus d') = SInt ((9 + 4 - 1) / 4 * 4 - 9) /\
    st_data (st_bus d')
      = SWord 32 (CfgBool true)
          (drop (Z.to_nat (((9 + 4 - 1) / 4 - 1) * 4)) nine_bytes).
Proof.
  apply (X16_bus_after_send_string list_next_valids always_ready 1 example_driver
           nine_bytes true (CfgBool true)).
  - reflexivity.
  - reflexivity.
  - reflexivity.
  - intros H. discriminate H.
Defined.

Lemma X17_empty_string_takes_one_idle_cycle_witness :
  exists d' c,
    _send_string list_next_valids always_ready 1 [] true example_driver
      = (Done tt, d') /\
    trace d' = trace example_driver ++ [c] /\ now d' = S (now example_driver) /\
    c_site c = AtEnd /\ st_valid (c_bus c) = SInt 0 /\
    word_view (c_bus c)
      = (SInt 0, SInt 0, SInt 0, st_data (st_bus example_driver)) /\
    st_bus d' = c_bus c.
Proof.
  apply (X17_empty_string_takes_one_idle_cycle list_next_valids always_ready 1
           example_driver true).
  eexists. vm_compute. reflexivity.
Defined.

Lemma X18_send_string_hangs_on_a_narrow_bus_witness :
  fst (_send_string list_next_valids always_ready 1 nine_bytes true narrow_driver)
    = Pending /\
  forall fuel bits bigEndian firstword
         (d0 : AvalonSTPkts (option (list (Z * Z)))),
    fst (send_string_loop list_next_valids always_ready 1 fuel true 0 bits
           bigEndian nine_bytes firstword d0) = Pending.
Proof.
  apply (X18_send_string_hangs_on_a_narrow_bus list_next_valids always_ready 1
           narrow_driver nine_bytes true).
  - discriminate.
  - reflexivity.
  - eexists. vm_compute. reflexivity.
Defined.

Lemma X19_send_string_takes_one_cycle_per_word_witness :
  exists d' new,
    _send_string list_next_valids always_ready 1 nine_bytes false example_driver
      = (Done tt, d') /\
    trace d' = trace example_driver ++ new /\
    Z.of_nat (length new) = (9 + 4 - 1) / 4 + (if false then 1 else 0) /\
    Z.of_nat (length (transfers new)) = (9 + 4 - 1) / 4.
Proof.
  apply (X19_send_string_takes_one_cycle_per_word list_next_valids always_ready 1
           example_driver nine_bytes false).
  - reflexivity.
  - reflexivity.
  - eexists. vm_compute. reflexivity.
  - reflexivity.
  - reflexivity.
Defined.

Lemma X20_send_iterable_words_witness :
  exists d' new,
    _send_iterable list_next_valids always_ready 1 two_words true example_driver
      = (Done tt, d') /\
    trace d' = trace example_driver ++ new /\
    map c_bus (transfers new) = words_on_bus (st_bus example_driver) two_words /\
    length (transfers new) = length two_words /\
    st_valid (st_bus d') = SInt 0.
Proof.
  apply (X20_send_iterable_words list_next_valids always_ready 1 example_driver
           two_words true).
  - reflexivity.
  - intros H. discriminate H.
Defined.


(** ** The budget of valid cycles *)

Section StreamingBudget.
Context {G : Type}.
Variable _next_valids : onval -> Z -> G -> onval * Z * G.
Variable ready_at : nat -> stvalue.
Variable patience : nat.

Local Abbreviation M := (@M G).
Local Abbreviation word_round := (word_round _next_valids ready_at patience).

Lemma no_gap_refl (d d' : AvalonSTPkts G) :
  trace d' = trace d -> off d' = off d -> valid_generator d' = valid_generator d ->
  no_gap d d'.
Proof. intros T O V. exists []. by rewrite app_nil_r. Qed.

Lemma no_gap_trans (d d1 d2 : AvalonSTPkts G) :
  no_gap d d1 -> no_gap d1 d2 -> no_gap d d2.
Proof.
  intros (n1 & T1 & F1 & O1 & V1) (n2 & T2 & F2 & O2 & V2).
  exists (n1 ++ n2). rewrite T2, T1, app_assoc, O2, O1, V2, V1.
  split_and!; try done. by apply Forall_app.
Qed.

Lemma no_gap_yield (s : site) (d : AvalonSTPkts G) :
  s <> AtGap -> no_gap d (snd (yield_edge ready_at s d)).
Proof.
  intros Hs. eexists [_]. simpl. split_and!; try done. by repeat constructor.
Qed.

Lemma wait_ready_loop_frame fuel : forall (d : AvalonSTPkts G),
  no_gap d (snd (wait_ready_loop ready_at fuel d)) /\
  on (snd (wait_ready_loop ready_at fuel d)) = on d.
Proof.
  induction fuel as [|fuel IH]; intros d; simpl.
  - split; [by apply no_gap_refl|done].
  - destruct (st_truthy (ready_at (now d))) eqn:E.
    + split; [by apply no_gap_refl|done].
    + unfold mbind. 
      pose proof (no_gap_yield AtReady d ltac:(done)) as Hy.
      destruct (yield_edge ready_at AtReady d) as [[[]| |e] d1] eqn:Ey;
        try (unfold yield_edge in Ey; discriminate).
      assert (on d1 = on d) as O1
        by (unfold yield_edge in Ey; injection Ey as <-; reflexivity).
      destruct (IH d1) as [N O]. simpl in Hy.
      split; [by eapply no_gap_trans|by rewrite O].
Qed.

(** A round with budget left: no gap, and one word less to go. *)
Lemma word_round_budget (c : bool) (drive : STBus -> STBus) (d : AvalonSTPkts G) :
  budget_ok (on d) 1 ->
  no_gap d (snd (word_round c drive d)) /\
  on (snd (word_round c drive d)) = spend (on d) 1.
Proof.
  intros Hb.
  assert (on_truthy (on d) = true /\ consume_on (on d) = spend (on d) 1) as [Ht Hc].
  { destruct (on d) as [[]|n]; simpl in *; try done.
    destruct (n =? 0) eqn:E; [apply Z.eqb_eq in E; lia|done]. }
  remember (word_round c drive d) as r eqn:Er. unfold word_round in Er.
  assert (exists d0,
            when c (yield_edge ready_at AtWord) d = (Done tt, d0) /\
            no_gap d d0 /\ on d0 = on d)
    as (d0 & E0 & N0 & O0).
  { destruct c; simpl.
    - eexists. split; [reflexivity|]. split; [|done].
      by apply (no_gap_yield AtWord d).
    - exists d. split; [done|]. split; [by apply no_gap_refl|done]. }
  rewrite (mbind_done _ _ _ _ _ E0) in Er.
  assert (insert_gap _next_valids ready_at d0 = (Done tt, d0)) as E1.
  { unfold insert_gap. by rewrite O0, Ht. }
  rewrite (mbind_done _ _ _ _ _ E1) in Er.
  unfold mbind at 1 in Er. unfold consume_valid_cycle at 1 in Er. cbv beta iota in Er.
  unfold mbind at 1 in Er. unfold bus_do at 1 in Er. cbv beta iota in Er.
  unfold mbind at 1 in Er. unfold has_ready at 1 in Er. cbv beta iota in Er.
  match type of Er with
  | r = when ?b _ ?x => set (rdy := b) in Er; set (d2 := x) in Er
  end.
  assert (no_gap d d2) as N2.
  { eapply no_gap_trans; [exact N0|]. by apply no_gap_refl. }
  assert (on d2 = spend (on d) 1) as O2 by (unfold d2; simpl; by rewrite O0, Hc).
  clearbody rdy. destruct rdy; cbn [when] in Er.
  - unfold _wait_ready in Er.
    destruct (wait_ready_loop_frame patience d2) as [N3 O3].
    rewrite <- Er in N3, O3.
    split; [by eapply no_gap_trans|by rewrite O3].
  - subst r. by split.
Qed.

Lemma spend_spend o i j : spend (spend o i) j = spend o (i + j).
Proof. destruct o; simpl; [done|]. f_equal. lia. Qed.

Lemma spend_0 o : spend o 0 = o.
Proof. destruct o; simpl; [done|]. f_equal. lia. Qed.

Lemma budget_ok_spend o i j :
  0 <= j -> budget_ok o (i + j) -> budget_ok o i /\ budget_ok (spend o i) j.
Proof. destruct o; simpl; [done|]. lia. Qed.

(** A round with budget for it and for what follows. *)
Lemma round_then_budget {A} (c : bool) (drive : STBus -> STBus) (k : M A)
    (j : Z) (d : AvalonSTPkts G) :
  0 <= j -> budget_ok (on d) (1 + j) ->
  (forall d1, budget_ok (on d1) j ->
     no_gap d1 (snd (k d1)) /\
     (forall a, fst (k d1) = Done a -> on (snd (k d1)) = spend (on d1) j)) ->
  no_gap d (snd (mbind (word_round c drive) (fun _ => k) d)) /\
  (forall a, fst (mbind (word_round c drive) (fun _ => k) d) = Done a ->
     on (snd (mbind (word_round c drive) (fun _ => k) d)) = spend (on d) (1 + j)).
Proof.
  intros Hj Hb Hk.
  destruct (budget_ok_spend (on d) 1 j Hj Hb) as [Hb1 Hb2].
  destruct (word_round_budget c drive d Hb1) as [N1 O1].
  unfold mbind.
  destruct (word_round c drive d) as [[[]| |e] d1]; simpl in *; [|by split..].
  destruct (Hk d1) as [N2 O2]; [by rewrite O1|].
  split; [by eapply no_gap_trans|].
  intros a Ha. by rewrite (O2 a Ha), O1, spend_spend.
Qed.

Lemma budget_send_iterable_loop sync : forall (pkt : list busword) (fw : bool)
    (d : AvalonSTPkts G),
  budget_ok (on d) (Z.of_nat (length pkt)) ->
  no_gap d (snd (send_iterable_loop _next_valids ready_at patience sync pkt fw d)) /\
  (forall a,
     fst (send_iterable_loop _next_valids ready_at patience sync pkt fw d) = Done a ->
     on (snd (send_iterable_loop _next_valids ready_at patience sync pkt fw d))
     = spend (on d) (Z.of_nat (length pkt))).
Proof.
  induction pkt as [|word pkt IH]; intros fw d Hb.
  - simpl. rewrite spend_0. split; [by apply no_gap_refl|done].
  - rewrite send_iterable_loop_round.
    cbn [length] in *. rewrite Nat2Z.inj_succ, <- Z.add_1_l in *.
    apply round_then_budget; [lia|done|].
    intros d1 Hb1. by apply IH.
Qed.

Lemma words_nil W : 1 <= W -> (Z.of_nat (length (@nil byte)) + W - 1) / W = 0.
Proof. intros. apply Z.div_small. simpl. lia. Qed.

Lemma budget_send_string_loop sync W bits be : forall fuel (s : list byte) (fw : bool)
    (d : AvalonSTPkts G),
  1 <= W -> (length s <= fuel)%nat ->
  budget_ok (on d) ((Z.of_nat (length s) + W - 1) / W) ->
  no_gap d (snd (send_string_loop _next_valids ready_at patience fuel sync W bits be
                   s fw d)) /\
  (forall a,
     fst (send_string_loop _next_valids ready_at patience fuel sync W bits be
            s fw d) = Done a ->
     on (snd (send_string_loop _next_valids ready_at patience fuel sync W bits be
                s fw d))
     = spend (on d) ((Z.of_nat (length s) + W - 1) / W)).
Proof.
  induction fuel as [|fuel IH]; intros s fw d HW Hl Hb.
  { destruct s; [|simpl in Hl; lia].
    rewrite (words_nil W HW), spend_0. simpl. split; [by apply no_gap_refl|done]. }
  destruct s as [|c s].
  { rewrite (words_nil W HW), spend_0. simpl. split; [by apply no_gap_refl|done]. }
  set (n := Z.of_nat (length (c :: s))) in *.
  assert (0 < n) as Hn by (unfold n; simpl; lia).
  set (rest := if n <=? W then [] else drop (Z.to_nat W) (c :: s)).
  assert ((n + W - 1) / W = 1 + (Z.of_nat (length rest) + W - 1) / W) as Hk.
  { unfold rest. destruct (n <=? W) eqn:E.
    - apply Z.leb_le in E. rewrite (words_nil W HW).
      symmetry. apply Z.div_unique with (n - 1); lia.
    - apply Z.leb_gt in E. rewrite length_drop.
      replace (n + W - 1)
        with (Z.of_nat (length (c :: s) - Z.to_nat W) + W - 1 + 1 * W)
        by (unfold n; lia).
      rewrite Z.div_add by lia. lia. }
  assert (send_string_loop _next_valids ready_at patience (S fuel) sync W bits be
            (c :: s) fw d
          = mbind (word_round (negb fw || fw && sync)
                     (string_word_on W bits be (c :: s) fw))
              (fun _ => send_string_loop _next_valids ready_at patience fuel sync W
                          bits be rest false) d) as ->.
  { rewrite send_string_loop_cons by done. unfold mbind at 1.
    rewrite send_string_word_round. unfold mbind, mret. fold n. fold rest.
    by destruct (word_round _ _ d) as [[[]| |e] d1]. }
  rewrite Hk in *.
  apply round_then_budget; [|done|].
  { apply Z.div_pos; lia. }
  intros d1 Hb1. apply IH; try done.
  unfold rest. destruct (n <=? W); [simpl; lia|]. rewrite length_drop.
  cbn [length] in *. lia.
Qed.

(** The end of a send: one more clock edge, then the strobes are lowered. *)
Lemma budget_tail (m : M unit) (f : STBus -> STBus) (j : Z) (d : AvalonSTPkts G) :
  no_gap d (snd (m d)) /\
  (forall a, fst (m d) = Done a -> on (snd (m d)) = spend (on d) j) ->
  let r := mbind m (fun _ => mbind (yield_edge ready_at AtEnd)
                               (fun _ => bus_do f)) d in
  no_gap d (snd r) /\ (fst r = Done tt -> on (snd r) = spend (on d) j).
Proof.
  intros [N O]. cbv zeta.
  remember (mbind m (fun _ => mbind (yield_edge ready_at AtEnd) (fun _ => bus_do f)) d)
    as r eqn:Er.
  unfold mbind at 1 in Er.
  destruct (m d) as [[[]| |e] d1]; subst r; simpl in *; [|by split..].
  split; [|by intros _; apply (O tt)].
  eapply no_gap_trans; [exact N|]. eexists [_]. simpl. split_and!; try done.
  by repeat constructor.
Qed.

Lemma budget_send_string (s : list byte) sync (d : AvalonSTPkts G) :
  let W := st_data_len (st_bus d) / 8 in
  let r := _send_string _next_valids ready_at patience s sync d in
  1 <= W -> budget_ok (on d) ((Z.of_nat (length s) + W - 1) / W) ->
  no_gap d (snd r) /\
  (fst r = Done tt -> on (snd r) = spend (on d) ((Z.of_nat (length s) + W - 1) / W)).
Proof.
  cbv zeta. intros HW Hb.
  remember (_send_string _next_valids ready_at patience s sync d) as r eqn:Er.
  unfold _send_string in Er.
  unfold mbind at 1 in Er. cbv beta iota zeta in Er.
  unfold mbind at 1 in Er. unfold config_get at 1 in Er.
  destruct (config d !! "firstSymbolInHighOrderBits") as [be|].
  2: { subst r. split; [by apply no_gap_refl|done]. }
  cbv beta iota in Er.
  do 5 (unfold mbind at 1 in Er; unfold bus_do at 1 in Er; cbv beta iota in Er).
  cbn [st_bus with_st_bus] in Er.
  match type of Er with
  | r = mbind _ _ ?x => set (d0 := x) in Er
  end.
  assert (r = mbind (send_string_loop _next_valids ready_at patience (length s) sync
                       (st_data_len (st_bus d) / 8) (st_data_len (st_bus d)) be s true)
                (fun _ => mbind (yield_edge ready_at AtEnd)
                            (fun _ => bus_do (fun b => set_endofpacket (SInt 0)
                                                         (set_valid (SInt 0) b))))
                d0) as ->.
  { rewrite Er. unfold mbind. 
    destruct (send_string_loop _ _ _ _ _ _ _ _ _ _ d0) as [[[]| |e] d1]; reflexivity. }
  change (on d) with (on d0). 
  assert (forall x, no_gap d0 x -> no_gap d x) as Hd.
  { intros x. apply no_gap_trans. by apply no_gap_refl. }
  match goal with |- no_gap d ?x /\ ?Q => cut (no_gap d0 x /\ Q) end.
  { intros [? ?]. split; [by apply Hd|done]. }
  apply budget_tail. by apply budget_send_string_loop.
Qed.

Lemma budget_send_iterable (pkt : list busword) sync (d : AvalonSTPkts G) :
  let r := _send_iterable _next_valids ready_at patience pkt sync d in
  budget_ok (on d) (Z.of_nat (length pkt)) ->
  no_gap d (snd r) /\
  (fst r = Done tt -> on (snd r) = spend (on d) (Z.of_nat (length pkt))).
Proof.
  cbv zeta. intros Hb. unfold _send_iterable.
  apply budget_tail. by apply budget_send_iterable_loop.
Qed.

(** X24: the valid generator's count of "on" cycles is used up one per
    word and carries over from packet to packet.  When [self.on] is [True],
    or a count of at least the number of words of the packet (for a string
    on a bus at least a byte wide, its length divided by the bus width,
    rounded up), a send inserts no gap cycle and does not ask the generator
    for new values, however long the sink keeps ready low; a send that
    returns leaves [True] as it was and a count lowered by the number of
    words. *)
Theorem X24_no_gap_within_budget (d : AvalonSTPkts G) (pkt : packet) (sync : bool) :
  let W := st_data_len (st_bus d) / 8 in
  let r := _driver_send _next_valids ready_at patience pkt sync d in
  (forall s, pkt = PktStr s -> 1 <= W) ->
  budget_ok (on d) (pkt_words W pkt) ->
  (exists new,
     trace (snd r) = trace d ++ new /\
     Forall (fun c => c_site c <> AtGap) new /\
     off (snd r) = off d /\ valid_generator (snd r) = valid_generator d) /\
  (fst r = Done tt -> on (snd r) = spend (on d) (pkt_words W pkt)).
Proof.
  cbv zeta. intros HW Hb.
  remember (_driver_send _next_valids ready_at patience pkt sync d) as r eqn:Er.
  unfold _driver_send in Er.
  unfold mbind at 1 in Er. cbv beta iota in Er.
  unfold mbind at 1 in Er. cbv beta iota in Er.
  set (d0 := st_logging DEBUG "hexdump(pkt)" []
               (st_logging DEBUG "Sending packet of length %d bytes" [pkt_len pkt] d))
    in Er.
  set (j := pkt_words (st_data_len (st_bus d) / 8) pkt) in *.
  assert (exists m : M unit,
            m = match pkt with
                | PktStr s => _send_string _next_valids ready_at patience s sync
                | PktIter ws => _send_iterable _next_valids ready_at patience ws sync
                end /\
            no_gap d0 (snd (m d0)) /\
            (fst (m d0) = Done tt -> on (snd (m d0)) = spend (on d0) j))
    as (m & Em & N & O).
  { eexists. split; [reflexivity|]. destruct pkt as [s|ws].
    - apply budget_send_string; [by apply (HW s)|exact Hb].
    - apply budget_send_iterable. exact Hb. }
  rewrite <- Em in Er. clear Em. unfold mbind in Er.
  fold (no_gap d (snd r)).
  assert (no_gap d d0) as N0 by by apply no_gap_refl.
  subst r. destruct (m d0) as [[[]| |e] d1]; simpl in *.
  - split; [|by intros _; apply O].
    eapply no_gap_trans; [exact N0|]. eapply no_gap_trans; [exact N|].
    by apply no_gap_refl.
  - split; [by eapply no_gap_trans|done].
  - split; [by eapply no_gap_trans|done].
Qed.

End StreamingBudget.

Lemma X24_no_gap_within_budget_witness :
  (exists new,
     trace (snd (_driver_send list_next_valids always_ready 1 (PktStr nine_bytes) true
                   budget_driver))
     = trace budget_driver ++ new /\
     Forall (fun c => c_site c <> AtGap) new /\
     off (snd (_driver_send list_next_valids always_ready 1 (PktStr nine_bytes) true
                 budget_driver))
     = off budget_driver /\
     valid_generator (snd (_driver_send list_next_valids always_ready 1
                             (PktStr nine_bytes) true budget_driver))
     = valid_generator budget_driver) /\
  (fst (_driver_send list_next_valids always_ready 1 (PktStr nine_bytes) true
          budget_driver) = Done tt ->
   on (snd (_driver_send list_next_valids always_ready 1 (PktStr nine_bytes) true
              budget_driver))
   = spend (on budget_driver)
       (pkt_words (st_data_len (st_bus budget_driver) / 8) (PktStr nine_bytes))).
Proof.
  apply (X24_no_gap_within_budget list_next_valids always_ready 1 budget_driver
           (PktStr nine_bytes) true).
  - intros s _. vm_compute. discriminate.
  - vm_compute. discriminate.
Defined.
